(** * vFAPS: calibration mapping, stabilisation filters, point reduction,
      tempo estimation and beat snapping

    A shallow embedding of the numeric core of the repository
    (vr_controller.py, stabilization.py, recorder.py, beat_detection.py,
    funscript_io.py and the beat-snap routine of main_window.py).

    Conventions of the embedding.
    - A Python [int] is a [Z].
    - A Python [float] is a rational number [Q] and its arithmetic is exact:
      the rounding of binary64 operations is not modelled.  Every concrete
      evaluation below is done at inputs where the binary64 computation is
      itself exact (or where the comparison is far from its threshold).
    - A Python exception is [None] in an [option] result; calls are chained
      with the bind [x ← m; k] of the option monad.
    - A [while] loop and the recursion of [_rdp] take a fuel argument and
      return [None] when it runs out; the theorems give the fuel that
      suffices.
    - Mutable objects that are shared (configuration objects) live in an
      explicit store. *)

From Stdlib Require Import ZArith QArith Qround Qabs Lqa Lia List Bool.
From stdpp Require Import base option list gmap strings sorting.

Local Open Scope Z_scope.

(* ===================================================================== *)
(** * Python numerics *)
(* ===================================================================== *)

Module Py.

(** [a / b] on floats: raises ZeroDivisionError on a zero divisor. *)
Definition fdiv (a b : Q) : option Q :=
  if Qeq_bool b 0 then None else Some (a / b)%Q.

Definition Qltb (a b : Q) : bool := negb (Qle_bool b a).

(** [min(a, b)] and [max(a, b)] of two arguments: the first argument is kept
    unless the second is strictly better. *)
Definition min2 (a b : Q) : Q := if Qltb b a then b else a.
Definition max2 (a b : Q) : Q := if Qltb a b then b else a.

(** [int(x)] on a float: truncation toward zero. *)
Definition int (x : Q) : Z :=
  if Qle_bool 0 x then Qfloor x else Qceiling x.

(** [round(x)] with one argument: the nearest integer, a tie going to the
    even neighbour. *)
Definition round (x : Q) : Z :=
  let f := Qfloor x in
  match Qcompare (x - inject_Z f) (1 # 2) with
  | Lt => f
  | Gt => f + 1
  | Eq => if Z.even f then f else f + 1
  end.

(** [math.pi], the binary64 number nearest to pi. *)
Definition pi : Q := 884279719003555 # 281474976710656.

End Py.

(* ===================================================================== *)
(** * vr_controller.py: AxisCalibration *)
(* ===================================================================== *)

Module AxisCalibration.

Record t := mk {
  min_val : Q;
  max_val : Q;
  inverted : bool;
  deadzone : Q;
  sensitivity : Q
}.

(** [AxisCalibration.map_value]. *)
Definition map_value (self : t) (raw : Q) : option Z :=
  let range_val := (max_val self - min_val self)%Q in
  if Qeq_bool range_val 0 then Some 50
  else
    normalized ← Py.fdiv (raw - min_val self) range_val;
    let normalized :=
      if negb (Qeq_bool (sensitivity self) 1)
      then ((normalized - (1 # 2)) * sensitivity self + (1 # 2))%Q
      else normalized in
    let normalized := Py.max2 0 (Py.min2 1 normalized) in
    let normalized := if inverted self then (1 - normalized)%Q else normalized in
    Some (Py.round (normalized * 100)).

(** The mapping as the specification words it, with the rounding left as a
    parameter. *)
Definition clamp01 (x : Q) : Q :=
  if Qle_bool x 0 then 0%Q else if Qle_bool 1 x then 1%Q else x.

Definition pre_round (self : t) (raw : Q) : Q :=
  let normalized := ((raw - min_val self) / (max_val self - min_val self))%Q in
  let normalized := ((normalized - (1 # 2)) * sensitivity self + (1 # 2))%Q in
  let normalized := clamp01 normalized in
  let normalized := if inverted self then (1 - normalized)%Q else normalized in
  (normalized * 100)%Q.

Definition map_value_spec (rnd : Q -> Z) (self : t) (raw : Q) : Z :=
  rnd (pre_round self raw).


End AxisCalibration.

(* ===================================================================== *)
(** * stabilization.py: filter stages *)
(* ===================================================================== *)

Module OneEuroFilter.

Record t := mk {
  min_cutoff : Q;
  beta : Q;
  d_cutoff : Q;
  _x_prev : option Q;
  _dx_prev : Q;
  _t_prev : option Q
}.

(** [OneEuroFilter.__init__]. *)
Definition init (min_cutoff beta d_cutoff : Q) : t :=
  mk min_cutoff beta d_cutoff None 0 None.

(** [OneEuroFilter._smoothing_factor]. *)
Definition _smoothing_factor (te cutoff : Q) : option Q :=
  let r := (2 * Py.pi * cutoff * te)%Q in
  Py.fdiv r (r + 1).

(** [OneEuroFilter.filter], the time stamp given by the caller: the new
    state of the filter and the value returned. *)
Definition filter (self : t) (x t : Q) : option (OneEuroFilter.t * Q) :=
  match _x_prev self with
  | None =>
      Some (mk (min_cutoff self) (beta self) (d_cutoff self) (Some x) 0 (Some t), x)
  | Some x_prev =>
      t_prev ← _t_prev self;
      let te := (t - t_prev)%Q in
      let te := if Qle_bool te 0 then (1 # 1000000)%Q else te in
      a_d ← _smoothing_factor te (d_cutoff self);
      dx ← Py.fdiv (x - x_prev) te;
      let dx_hat := (a_d * dx + (1 - a_d) * _dx_prev self)%Q in
      let cutoff := (min_cutoff self + beta self * Qabs dx_hat)%Q in
      a ← _smoothing_factor te cutoff;
      let x_hat := (a * x + (1 - a) * x_prev)%Q in
      Some (mk (min_cutoff self) (beta self) (d_cutoff self)
               (Some x_hat) dx_hat (Some t), x_hat)
  end.

(** [OneEuroFilter.reset]. *)
Definition reset (self : t) : t :=
  mk (min_cutoff self) (beta self) (d_cutoff self) None 0 None.

(** Feeding a stream of samples [(x, t)] to the filter, in order: the values
    returned. *)
Fixpoint run (self : t) (samples : list (Q * Q)) : option (list Q) :=
  match samples with
  | [] => Some []
  | (x, t) :: rest =>
      r ← filter self x t;
      outs ← run (fst r) rest;
      Some (snd r :: outs)
  end.

End OneEuroFilter.

Module SpikeRejector.

Record t := mk {
  threshold : Q;
  _prev : option Q;
  _held : option Q;
  _held_t : option Q
}.

Definition init (threshold : Q) : t := mk threshold None None None.

End SpikeRejector.

Module SlewRateLimiter.

Record t := mk {
  max_rate : Q;
  _prev : option Q;
  _t_prev : option Q
}.

Definition init (max_rate : Q) : t := mk max_rate None None.

End SlewRateLimiter.

Module JerkLimiter.

Record t := mk {
  max_jerk : Q;
  _prev : option Q;
  _vel_prev : Q;
  _t_prev : option Q
}.

Definition init (max_jerk : Q) : t := mk max_jerk None 0 None.

End JerkLimiter.

Module DeadzoneFilter.

Record t := mk {
  threshold : Q;
  _last_emitted : option Z
}.

Definition init (threshold : Q) : t := mk threshold None.

(** [DeadzoneFilter.filter]. *)
Definition filter (self : t) (value : Z) : t * Z :=
  match _last_emitted self with
  | None => (mk (threshold self) (Some value), value)
  | Some last =>
      if Qle_bool (threshold self) (inject_Z (Z.abs (value - last)))
      then (mk (threshold self) (Some value), value)
      else (self, last)
  end.

End DeadzoneFilter.

Module HysteresisFilter.

Record t := mk {
  band : Q;
  _last_emitted : option Z;
  _direction : Z          (* +1 rising, -1 falling, 0 unknown *)
}.

(** [HysteresisFilter.__init__]. *)
Definition init (band : Q) : t := mk band None 0.

(** [HysteresisFilter.filter]: the new state and the value returned. *)
Definition filter (self : t) (value : Z) : t * Z :=
  match _last_emitted self with
  | None => (mk (band self) (Some value) (_direction self), value)
  | Some last =>
      let delta := value - last in
      if _direction self =? 0 then
        if Qle_bool (band self) (inject_Z (Z.abs delta))
        then (mk (band self) (Some value) (if 0 <? delta then 1 else -1), value)
        else (self, last)
      else if ((0 <? _direction self) && (0 <? delta))
              || ((_direction self <? 0) && (delta <? 0))
      then (mk (band self) (Some value) (_direction self), value)
      else if Qle_bool (band self * 2) (inject_Z (Z.abs delta))
      then (mk (band self) (Some value) (if 0 <? delta then 1 else -1), value)
      else (self, last)
  end.

(** [HysteresisFilter.reset]. *)
Definition reset (self : t) : t := mk (band self) None 0.

(** The state after a stream of values has been fed to the filter. *)
Definition feed (self : t) (values : list Z) : t :=
  fold_left (fun s v => fst (filter s v)) values self.

End HysteresisFilter.

(* ===================================================================== *)
(** * stabilization.py: configuration and the per-axis pipeline *)
(* ===================================================================== *)

Module StabilizationConfig.

Record t := mk {
  spike_rejection_enabled : bool;
  spike_threshold : Q;
  one_euro_enabled : bool;
  one_euro_min_cutoff : Q;
  one_euro_beta : Q;
  slew_rate_enabled : bool;
  slew_max_rate : Q;
  jerk_limiter_enabled : bool;
  jerk_max_jerk : Q;
  deadzone_enabled : bool;
  deadzone_threshold : Q;
  hysteresis_enabled : bool;
  hysteresis_band : Q
}.

(** Attribute assignments [c.spike_threshold = v] and the like. *)
Definition set_spike_threshold (v : Q) (c : t) : t :=
  mk (spike_rejection_enabled c) v (one_euro_enabled c) (one_euro_min_cutoff c)
     (one_euro_beta c) (slew_rate_enabled c) (slew_max_rate c)
     (jerk_limiter_enabled c) (jerk_max_jerk c) (deadzone_enabled c)
     (deadzone_threshold c) (hysteresis_enabled c) (hysteresis_band c).

Definition set_slew_max_rate (v : Q) (c : t) : t :=
  mk (spike_rejection_enabled c) (spike_threshold c) (one_euro_enabled c)
     (one_euro_min_cutoff c) (one_euro_beta c) (slew_rate_enabled c) v
     (jerk_limiter_enabled c) (jerk_max_jerk c) (deadzone_enabled c)
     (deadzone_threshold c) (hysteresis_enabled c) (hysteresis_band c).

Definition set_jerk_max_jerk (v : Q) (c : t) : t :=
  mk (spike_rejection_enabled c) (spike_threshold c) (one_euro_enabled c)
     (one_euro_min_cutoff c) (one_euro_beta c) (slew_rate_enabled c)
     (slew_max_rate c) (jerk_limiter_enabled c) v (deadzone_enabled c)
     (deadzone_threshold c) (hysteresis_enabled c) (hysteresis_band c).

(** The preset ["medium"], which is also the dataclass's default. *)
Definition medium : t :=
  mk true (1 # 2) true (3 # 2) (7 # 1000) true 5 false 20 true 1 true (3 # 2).

End StabilizationConfig.

Module Stabilization.

(** Configuration objects are shared between the caller and the stabilizers:
    they live in a store and are named by their address. *)
Abbreviation store := (gmap nat StabilizationConfig.t).

Definition ROTATION_AXES : gset string := {[ "pitch"; "yaw"; "roll" ]}.

(** [obj.field = v] on the object at address [l]. *)
Definition setattr (h : store) (l : nat)
    (f : StabilizationConfig.t -> StabilizationConfig.t) : option store :=
  o ← h !! l; Some (<[l := f o]> h).

(** [_adjust_config_for_axis]: the store after the call and the address of
    the object returned. *)
Definition _adjust_config_for_axis (h : store) (config : nat) (axis_name : string)
  : option (store * nat) :=
  if decide (axis_name ∉ ROTATION_AXES) then Some (h, config)
  else
    (* c = copy.copy(config) *)
    o ← h !! config;
    let c := fresh (dom h) in
    let h := <[c := o]> h in
    (* c.spike_threshold = config.spike_threshold * 60.0 *)
    o ← h !! config;
    h ← setattr h c
          (StabilizationConfig.set_spike_threshold
             (StabilizationConfig.spike_threshold o * 60)%Q);
    (* c.slew_max_rate = config.slew_max_rate * 60.0 *)
    o ← h !! config;
    h ← setattr h c
          (StabilizationConfig.set_slew_max_rate
             (StabilizationConfig.slew_max_rate o * 60)%Q);
    (* c.jerk_max_jerk = config.jerk_max_jerk * 60.0 *)
    o ← h !! config;
    h ← setattr h c
          (StabilizationConfig.set_jerk_max_jerk
             (StabilizationConfig.jerk_max_jerk o * 60)%Q);
    Some (h, c).

End Stabilization.

Module AxisStabilizer.

Record t := mk {
  axis_name : string;
  _config : nat;
  _effective_config : nat;
  _spike : SpikeRejector.t;
  _one_euro : OneEuroFilter.t;
  _slew : SlewRateLimiter.t;
  _jerk : JerkLimiter.t;
  _deadzone : DeadzoneFilter.t;
  _hysteresis : HysteresisFilter.t
}.

(** [AxisStabilizer._apply_config]: the parameters of the six filters are
    read from the effective configuration; their states are kept. *)
Definition _apply_config (h : Stabilization.store) (self : t) : option t :=
  c ← h !! _effective_config self;
  Some (mk (axis_name self) (_config self) (_effective_config self)
          (SpikeRejector.mk (StabilizationConfig.spike_threshold c)
             (SpikeRejector._prev (_spike self)) (SpikeRejector._held (_spike self))
             (SpikeRejector._held_t (_spike self)))
          (OneEuroFilter.mk (StabilizationConfig.one_euro_min_cutoff c)
             (StabilizationConfig.one_euro_beta c)
             (OneEuroFilter.d_cutoff (_one_euro self))
             (OneEuroFilter._x_prev (_one_euro self))
             (OneEuroFilter._dx_prev (_one_euro self))
             (OneEuroFilter._t_prev (_one_euro self)))
          (SlewRateLimiter.mk (StabilizationConfig.slew_max_rate c)
             (SlewRateLimiter._prev (_slew self)) (SlewRateLimiter._t_prev (_slew self)))
          (JerkLimiter.mk (StabilizationConfig.jerk_max_jerk c)
             (JerkLimiter._prev (_jerk self)) (JerkLimiter._vel_prev (_jerk self))
             (JerkLimiter._t_prev (_jerk self)))
          (DeadzoneFilter.mk (StabilizationConfig.deadzone_threshold c)
             (DeadzoneFilter._last_emitted (_deadzone self)))
          (HysteresisFilter.mk (StabilizationConfig.hysteresis_band c)
             (HysteresisFilter._last_emitted (_hysteresis self))
             (HysteresisFilter._direction (_hysteresis self)))).

(** [AxisStabilizer.set_config]. *)
Definition set_config (h : Stabilization.store) (self : t) (config : nat)
  : option (Stabilization.store * t) :=
  r ← Stabilization._adjust_config_for_axis h config (axis_name self);
  let self := mk (axis_name self) config (snd r) (_spike self) (_one_euro self)
                (_slew self) (_jerk self) (_deadzone self) (_hysteresis self) in
  self ← _apply_config (fst r) self;
  Some (fst r, self).

(** [AxisStabilizer.__init__] with a configuration given. *)
Definition init (h : Stabilization.store) (axis_name : string) (config : nat)
  : option (Stabilization.store * t) :=
  r ← Stabilization._adjust_config_for_axis h config axis_name;
  let self := mk axis_name config (snd r)
                (SpikeRejector.init (1 # 2)) (OneEuroFilter.init 1 (7 # 1000) 1)
                (SlewRateLimiter.init 5) (JerkLimiter.init 20)
                (DeadzoneFilter.init 1) (HysteresisFilter.init (3 # 2)) in
  self ← _apply_config (fst r) self;
  Some (fst r, self).

End AxisStabilizer.

(* ===================================================================== *)
(** * funscript_io.py: actions and axes *)
(* ===================================================================== *)

Module Funscript.

(** [FunscriptAction]; the field [at] of the source is [at_] here, [at] being
    a keyword. *)
Record FunscriptAction := mkAction {
  at_ : Z;     (* time stamp in milliseconds *)
  pos : Z      (* position 0-100 *)
}.

(** The ["controller_axis"] entries of [AXIS_DEFINITIONS]. *)
Definition AXIS_DEFINITIONS : gmap string string :=
  list_to_map [ ("stroke", "y"); ("surge", "z"); ("sway", "x");
                ("twist", "yaw"); ("roll", "roll"); ("pitch", "pitch") ].

(** [list.sort(key=lambda a: a.at)]: a stable sort, here by insertion; an
    element goes in front of the first element whose key is not smaller. *)
Fixpoint insert_by_at (a : FunscriptAction) (l : list FunscriptAction)
  : list FunscriptAction :=
  match l with
  | [] => [a]
  | b :: l' => if at_ a <=? at_ b then a :: b :: l' else b :: insert_by_at a l'
  end.

(** [FunscriptAxis.sort_actions]. *)
Fixpoint sort_actions (actions : list FunscriptAction) : list FunscriptAction :=
  match actions with
  | [] => []
  | a :: l => insert_by_at a (sort_actions l)
  end.



End Funscript.

(* ===================================================================== *)
(** * recorder.py: point reduction *)
(* ===================================================================== *)

Module Rdp.

Section WithSqrt.

(** [x ** 0.5] on floats.  A square root is not a rational function; the
    reduction is modelled for an arbitrary one. *)
Variable pow_half : Q -> Q.

(** [Recorder._perpendicular_distance]. *)
Definition _perpendicular_distance (point line_start line_end : Z * Z) : option Q :=
  let t_range := Z.max 1 (fst line_end - fst line_start) in
  let p_range := 100%Q in
  q ← Py.fdiv (inject_Z (fst point - fst line_start)) (inject_Z t_range);
  let px := (q * p_range)%Q in
  let py := inject_Z (snd point) in
  let lx1 := 0%Q in
  let ly1 := inject_Z (snd line_start) in
  let lx2 := p_range in
  let ly2 := inject_Z (snd line_end) in
  let dx := (lx2 - lx1)%Q in
  let dy := (ly2 - ly1)%Q in
  let denom := pow_half (dx * dx + dy * dy) in
  if Qeq_bool denom 0
  then Some (pow_half ((px - lx1) * (px - lx1) + (py - ly1) * (py - ly1)))
  else Py.fdiv (Qabs (dy * px - dx * py + lx2 * ly1 - ly2 * lx1)) denom.

(** The loop [for i in range(1, len(points) - 1)] of [_rdp], run over the
    indices [idxs] from the pair [(max_dist, max_idx)]. *)
Fixpoint scan (points : list (Z * Z)) (start end_ : Z * Z) (idxs : list nat)
    (acc : Q * nat) : option (Q * nat) :=
  match idxs with
  | [] => Some acc
  | i :: idxs' =>
      p ← points !! i;
      dist ← _perpendicular_distance p start end_;
      scan points start end_ idxs'
        (if Py.Qltb (fst acc) dist then (dist, i) else acc)
  end.

(** [Recorder._rdp]; each recursive call uses one unit of fuel. *)
Fixpoint _rdp (fuel : nat) (points : list (Z * Z)) (epsilon : Q)
  : option (list (Z * Z)) :=
  if (length points <=? 2)%nat then Some points
  else
    match fuel with
    | O => None
    | S fuel' =>
        start ← head points;
        end_ ← last points;
        r ← scan points start end_ (seq 1 (length points - 2)) (0%Q, 0%nat);
        let max_dist := fst r in
        let max_idx := snd r in
        if Py.Qltb epsilon max_dist then
          left ← _rdp fuel' (take (S max_idx) points) epsilon;
          right ← _rdp fuel' (drop max_idx points) epsilon;
          Some (removelast left ++ right)
        else Some [start; end_]
    end.

End WithSqrt.

(** A square root good enough to run examples: the integer square root of
    the argument scaled by 10^12. *)
Definition sqrt_approx (x : Q) : Q :=
  Z.sqrt (Qfloor (x * 1000000000000)) # 1000000.

End Rdp.

(* ===================================================================== *)
(** * recorder.py: the recording buffer *)
(* ===================================================================== *)

Module Recorder.

Import Funscript.

(** The fields of [Recorder] that recording reads and writes. *)
Record t := mk {
  is_recording : bool;
  active_axes : gset string;
  _buffer : gmap string (list FunscriptAction);
  _record_start_ms : Z;
  min_interval_ms : Z;
  _last_sample_time : gmap string Z
}.

(** [Recorder.__init__]. *)
Definition init : t := mk false {[ "stroke" ]} ∅ 0 11 ∅.

(** [Recorder.start_recording]. *)
Definition start_recording (self : t) (video_time_ms : Z) : t :=
  mk true (active_axes self)
     (gset_to_gmap [] (active_axes self))
     video_time_ms (min_interval_ms self)
     (gset_to_gmap (-1) (active_axes self)).

(** The controller axis that feeds a funscript axis: the entry of
    [AXIS_DEFINITIONS], or the axis name itself when there is none. *)
Definition controller_axis (axis_name : string) : string :=
  default axis_name (AXIS_DEFINITIONS !! axis_name).

(** The body of the loop [for axis_name in self.active_axes] of
    [add_sample]. *)
Definition add_sample_axis (video_time_ms : Z) (mapped_positions : gmap string Z)
    (self : t) (axis_name : string) : t :=
  match mapped_positions !! controller_axis axis_name with
  | None => self
  | Some pos =>
      let last_time := default (-1) (_last_sample_time self !! axis_name) in
      if (0 <=? last_time) && (video_time_ms - last_time <? min_interval_ms self)
      then self
      else
        let action := mkAction video_time_ms (Z.max 0 (Z.min 100 pos)) in
        mk (is_recording self) (active_axes self)
           (<[axis_name := default [] (_buffer self !! axis_name) ++ [action]]>
              (_buffer self))
           (_record_start_ms self) (min_interval_ms self)
           (<[axis_name := video_time_ms]> (_last_sample_time self))
  end.

(** [Recorder.add_sample]. *)
Definition add_sample (self : t) (video_time_ms : Z)
    (mapped_positions : gmap string Z) : t :=
  if negb (is_recording self) then self
  else fold_left (add_sample_axis video_time_ms mapped_positions)
         (elements (active_axes self)) self.

End Recorder.

(* ===================================================================== *)
(** * beat_detection.py: beat grid and tempo estimation *)
(* ===================================================================== *)

Module BeatDetection.

Record BeatData := mkBeatData {
  beats : list Z;          (* beat time stamps in ms *)
  onsets : list Z;         (* onset time stamps in ms *)
  bpm : Q;
  confidence : Q;
  subdivisions : Z
}.

(** [range(n)]. *)
Definition range (n : Z) : list Z := map Z.of_nat (seq 0 (Z.to_nat n)).

(** The loop over consecutive beat pairs of [get_beat_grid]. *)
Fixpoint grid_segments (beats : list Z) (subdivisions : Z) : option (list Z) :=
  match beats with
  | start :: ((end_ :: _) as tl) =>
      step ← Py.fdiv (inject_Z (end_ - start)) (inject_Z subdivisions);
      rest ← grid_segments tl subdivisions;
      Some (map (fun s => Py.int (inject_Z start + inject_Z s * step))
              (range subdivisions) ++ rest)
  | _ => Some []
  end.

(** [BeatData.get_beat_grid]. *)
Definition get_beat_grid (self : BeatData) : option (list Z) :=
  if (length (beats self) <? 2)%nat then Some (beats self)
  else
    grid ← grid_segments (beats self) (subdivisions self);
    final ← last (beats self);
    Some (grid ++ [final]).

(** ** Tempo from inter-onset intervals *)

(** The loop of [_estimate_tempo_from_ioi] that collects the intervals. *)
Fixpoint intervals (onsets_ms : list Z) : list Z :=
  match onsets_ms with
  | prev :: ((cur :: _) as tl) =>
      let ioi := cur - prev in
      if (150 <? ioi) && (ioi <? 2000) then ioi :: intervals tl
      else intervals tl
  | _ => []
  end.

Fixpoint insert_sorted (x : Z) (l : list Z) : list Z :=
  match l with
  | [] => [x]
  | y :: l' => if x <=? y then x :: y :: l' else y :: insert_sorted x l'
  end.

Fixpoint sorted (l : list Z) : list Z :=
  match l with
  | [] => []
  | x :: l' => insert_sorted x (sorted l')
  end.

(** [np.median] of a list of integers: the middle element of the sorted
    list, or the mean of the two middle elements. *)
Definition median (l : list Z) : Q :=
  let s := sorted l in
  let n := length s in
  let lo := nth (n / 2 - 1)%nat s 0 in
  let hi := nth (n / 2)%nat s 0 in
  if Nat.even n then (inject_Z (lo + hi) / 2)%Q else inject_Z hi.

(** [while bpm > 200 and bpm / 2 >= 40: bpm /= 2]. *)
Fixpoint halve_while (fuel : nat) (bpm : Q) : option Q :=
  if Py.Qltb 200 bpm && Qle_bool 40 (bpm / 2) then
    match fuel with
    | O => None
    | S fuel' => halve_while fuel' (bpm / 2)%Q
    end
  else Some bpm.

(** [while bpm < 50 and bpm * 2 <= 200: bpm *= 2]. *)
Fixpoint double_while (fuel : nat) (bpm : Q) : option Q :=
  if Py.Qltb bpm 50 && Qle_bool (bpm * 2) 200 then
    match fuel with
    | O => None
    | S fuel' => double_while fuel' (bpm * 2)%Q
    end
  else Some bpm.

(** [_estimate_tempo_from_ioi]; [fuel] bounds the iterations of each loop. *)
Definition _estimate_tempo_from_ioi (fuel : nat) (onsets_ms : list Z) : option Q :=
  if (length onsets_ms <? 4)%nat then Some 0%Q
  else
    let intervals := intervals onsets_ms in
    if (length intervals <? 3)%nat then Some 0%Q
    else
      let median_ioi := median intervals in
      if Qle_bool median_ioi 0 then Some 0%Q
      else
        bpm ← Py.fdiv 60000 median_ioi;
        bpm ← halve_while fuel bpm;
        double_while fuel bpm.

(** Step 5b of [detect_beats]: the tempo of the autocorrelation checked
    against the inter-onset intervals; the pair [(bpm, confidence)] after the
    step. *)
Definition detect_beats_step5b (fuel : nat) (bpm confidence : Q)
    (onsets_ms : list Z) : option (Q * Q) :=
  if negb (length onsets_ms =? 0)%nat && (4 <=? length onsets_ms)%nat then
    ioi_bpm ← _estimate_tempo_from_ioi fuel onsets_ms;
    if Py.Qltb 0 ioi_bpm then
      ratio ← (if Py.Qltb 0 ioi_bpm then Py.fdiv bpm ioi_bpm else Some 999%Q);
      if Py.Qltb (18 # 10) ratio || Py.Qltb ratio (55 # 100)
      then Some (ioi_bpm, Py.max2 (1 # 10) (confidence * (1 # 2)))
      else Some (bpm, confidence)
    else Some (bpm, confidence)
  else Some (bpm, confidence).

(** ** Tempo from the autocorrelation *)

Fixpoint dot (a b : list Q) : Q :=
  match a, b with
  | x :: a', y :: b' => (x * y + dot a' b')%Q
  | _, _ => 0%Q
  end.

(** [np.correlate(e, e, mode='full')[n:]] for [n = len(e)]: the entry at
    index [k] is the correlation of [e] with itself shifted by [k + 1]. *)
Definition autocorr_tail (onset_env : list Q) : list Q :=
  map (fun k => dot (drop (S k) onset_env) onset_env)
      (seq 0 (length onset_env - 1)).

(** [l[a:b]] for indices that are not negative. *)
Definition slice (l : list Q) (a b : Z) : list Q :=
  take (Z.to_nat b - Z.to_nat a) (drop (Z.to_nat a) l).

(** [np.max]: raises on an empty array. *)
Definition np_max (l : list Q) : option Q :=
  match l with
  | [] => None
  | x :: l' => Some (fold_left (fun m y => if Py.Qltb m y then y else m) l' x)
  end.

(** [np.argmax]: the first index of the maximum. *)
Fixpoint argmax_from (l : list Q) (i best_i : nat) (best : Q) : nat :=
  match l with
  | [] => best_i
  | y :: l' =>
      if Py.Qltb best y then argmax_from l' (S i) i y
      else argmax_from l' (S i) best_i best
  end.

Definition np_argmax (l : list Q) : option nat :=
  match l with
  | [] => None
  | x :: l' => Some (argmax_from l' 1 0 x)
  end.

(** The check near double the lag: the pair [(bpm, peak_val)] after it. *)
Definition octave_down (autocorr : list Q) (peak_idx : Z) (bpm peak_val : Q)
  : option (Q * Q) :=
  let len := Z.of_nat (length autocorr) in
  let double_lag := peak_idx * 2 in
  if double_lag <? len then
    let search_start := Z.max 0 (double_lag - 3) in
    let search_end := Z.min len (double_lag + 4) in
    local_peak ← np_max (slice autocorr search_start search_end);
    if Py.Qltb (peak_val * (8 # 10)) local_peak then
      let half_bpm := (bpm / 2)%Q in
      if Qle_bool 40 half_bpm && Qle_bool half_bpm 200
      then Some (half_bpm, local_peak)
      else Some (bpm, peak_val)
    else Some (bpm, peak_val)
  else Some (bpm, peak_val).

(** The check near half the lag: the tempo after it. *)
Definition octave_up (autocorr : list Q) (min_lag peak_idx : Z) (bpm peak_val : Q)
  : option Q :=
  let len := Z.of_nat (length autocorr) in
  let half_lag := peak_idx / 2 in
  if min_lag <=? half_lag then
    let search_start := Z.max 0 (half_lag - 2) in
    let search_end := Z.min len (half_lag + 3) in
    local_peak ← np_max (slice autocorr search_start search_end);
    if Py.Qltb (peak_val * (85 # 100)) local_peak then
      let double_bpm := (bpm * 2)%Q in
      if Qle_bool 40 double_bpm && Qle_bool double_bpm 200
      then Some double_bpm
      else Some bpm
    else Some bpm
  else Some bpm.

(** [min(1.0, max(0.0, peak_val / (autocorr[0] + 1e-10)))]; numpy's division
    by zero gives an infinity or a NaN, which the clamp sends to 1 or 0. *)
Definition confidence_of (peak_val first : Q) : Q :=
  let d := (first + (1 # 10000000000))%Q in
  if Qeq_bool d 0 then (if Py.Qltb 0 peak_val then 1%Q else 0%Q)
  else Py.min2 1 (Py.max2 0 (peak_val / d)).

Definition min_lag_of (frames_per_sec : Q) : Z :=
  Z.max 1 (Py.int (frames_per_sec * 60 / 200)).

Definition max_lag_of (autocorr : list Q) (frames_per_sec : Q) : Z :=
  Z.min (Z.of_nat (length autocorr) - 1) (Py.int (frames_per_sec * 60 / 40)).

(** [_estimate_tempo]. *)
Definition _estimate_tempo (onset_env : list Q) (sr hop_size : Z)
  : option (Q * Q) :=
  let n := length onset_env in
  if (n <? 100)%nat then Some (0%Q, 0%Q)
  else
    let autocorr := autocorr_tail onset_env in
    frames_per_sec ← Py.fdiv (inject_Z sr) (inject_Z hop_size);
    let min_lag := min_lag_of frames_per_sec in
    let max_lag := max_lag_of autocorr frames_per_sec in
    if max_lag <=? min_lag then Some (0%Q, 0%Q)
    else
      let search := slice autocorr min_lag (max_lag + 1) in
      if (length search =? 0)%nat then Some (0%Q, 0%Q)
      else
        i ← np_argmax search;
        let peak_idx := Z.of_nat i + min_lag in
        peak_val ← autocorr !! Z.to_nat peak_idx;
        bpm ← Py.fdiv (60 * frames_per_sec) (inject_Z peak_idx);
        r ← octave_down autocorr peak_idx bpm peak_val;
        bpm ← octave_up autocorr min_lag peak_idx (fst r) (snd r);
        first ← autocorr !! 0%nat;
        Some (bpm, confidence_of (snd r) first).

End BeatDetection.

(* ===================================================================== *)
(** * main_window.py: beat snap *)
(* ===================================================================== *)

Module MainWindow.

Import Funscript BeatDetection.



(** [60000.0 / max(1, bpm) * 0.6]; the divisor is at least 1. *)
Definition tolerance_ms (bpm : Q) : Q :=
  (60000 / Py.max2 1 bpm * (6 # 10))%Q.




End MainWindow.

(* ===================================================================== *)
(** * Properties of the model and example data *)
(* ===================================================================== *)


(** The calibration of the specification's scenario: the window [-0.3, 0.3]
    with sensitivity 2. *)
Definition calib_scenario : AxisCalibration.t :=
  AxisCalibration.mk (-3 # 10) (3 # 10) false (2 # 100) 2.

(** A calibration with a negative sensitivity. *)
Definition calib_negative_sensitivity : AxisCalibration.t :=
  AxisCalibration.mk 0 1 false (2 # 100) (-1).

(** The default calibration of the dataclass. *)
Definition calib_default : AxisCalibration.t :=
  AxisCalibration.mk 0 1 false (2 # 100) 1.

Section HysteresisProps.
Import HysteresisFilter.

(** An input continues in the established direction. *)
Definition continues (self : t) (last value : Z) : Prop :=
  (0 < _direction self /\ last < value) \/ (_direction self < 0 /\ value < last).

End HysteresisProps.

Section OneEuroProps.
Import OneEuroFilter.

(** [y] lies between [a] and [b], whichever of the two is the larger. *)
Definition between (a y b : Q) : Prop :=
  (a <= y /\ y <= b)%Q \/ (b <= y /\ y <= a)%Q.


End OneEuroProps.

Section SetConfigProps.
Import StabilizationConfig.

(** What [_adjust_config_for_axis] writes into its copy for a rotation axis. *)
Definition scaled (cfg : StabilizationConfig.t) : StabilizationConfig.t :=
  set_jerk_max_jerk (jerk_max_jerk cfg * 60)%Q
    (set_slew_max_rate (slew_max_rate cfg * 60)%Q
       (set_spike_threshold (spike_threshold cfg * 60)%Q cfg)).

Definition is_rotation (name : string) : Prop :=
  name = "pitch" \/ name = "yaw" \/ name = "roll".

Definition is_position (name : string) : Prop :=
  name = "x" \/ name = "y" \/ name = "z".

(** The effective configuration [eff] that [set_config] derives from [cfg]
    for the axis [name]. *)
Definition effective_for (name : string) (cfg eff : StabilizationConfig.t) : Prop :=
  (is_rotation name ->
   spike_threshold eff = (spike_threshold cfg * 60)%Q /\
   slew_max_rate eff = (slew_max_rate cfg * 60)%Q /\
   jerk_max_jerk eff = (jerk_max_jerk cfg * 60)%Q /\
   deadzone_threshold eff = deadzone_threshold cfg /\
   hysteresis_band eff = hysteresis_band cfg /\
   one_euro_min_cutoff eff = one_euro_min_cutoff cfg /\
   one_euro_beta eff = one_euro_beta cfg /\
   spike_rejection_enabled eff = spike_rejection_enabled cfg /\
   one_euro_enabled eff = one_euro_enabled cfg /\
   slew_rate_enabled eff = slew_rate_enabled cfg /\
   jerk_limiter_enabled eff = jerk_limiter_enabled cfg /\
   deadzone_enabled eff = deadzone_enabled cfg /\
   hysteresis_enabled eff = hysteresis_enabled cfg) /\
  (is_position name -> eff = cfg).

(** The six filters carry the thresholds of [eff]. *)
Definition filters_follow (s : AxisStabilizer.t) (eff : StabilizationConfig.t) : Prop :=
  SpikeRejector.threshold (AxisStabilizer._spike s) = spike_threshold eff /\
  OneEuroFilter.min_cutoff (AxisStabilizer._one_euro s) = one_euro_min_cutoff eff /\
  OneEuroFilter.beta (AxisStabilizer._one_euro s) = one_euro_beta eff /\
  SlewRateLimiter.max_rate (AxisStabilizer._slew s) = slew_max_rate eff /\
  JerkLimiter.max_jerk (AxisStabilizer._jerk s) = jerk_max_jerk eff /\
  DeadzoneFilter.threshold (AxisStabilizer._deadzone s) = deadzone_threshold eff /\
  HysteresisFilter.band (AxisStabilizer._hysteresis s) = hysteresis_band eff.

End SetConfigProps.

Section RdpProps.
Import Rdp.


End RdpProps.

(** Five recorded samples, to be reduced with the recorder's default
    tolerance 1.5. *)
Definition rdp_example : list (Z * Z) :=
  [(0, 10); (100, 30); (200, 50); (300, 50); (400, 50)].

Section AddSampleProps.
Import Funscript Recorder.

(** Two recorder states agree on what concerns the axis [a]. *)
Definition agree (a : string) (s s' : Recorder.t) : Prop :=
  _buffer s !! a = _buffer s' !! a /\
  _last_sample_time s !! a = _last_sample_time s' !! a /\
  min_interval_ms s = min_interval_ms s'.

End AddSampleProps.

(** The recorder of a fresh session, recording on its one active axis. *)
Definition recorder_started : Recorder.t :=
  Recorder.start_recording Recorder.init 0.

(** The same recorder after it has accepted a sample at 100 ms. *)
Definition recorder_one_sample : Recorder.t :=
  Recorder.add_sample recorder_started 100 {[ "y" := 130 ]}.

Section IoiProps.
Import BeatDetection.

(** The gaps between consecutive onsets. *)
Fixpoint gaps (onsets_ms : list Z) : list Z :=
  match onsets_ms with
  | prev :: ((cur :: _) as tl) => (cur - prev) :: gaps tl
  | _ => []
  end.

(** A gap that [_estimate_tempo_from_ioi] keeps. *)
Definition valid_gap (g : Z) : Prop := 150 < g < 2000.

(** The tempo that [_estimate_tempo_from_ioi] derives from the median [m] of
    the valid gaps: 60000 / m, halved or doubled at most once. *)
Definition folded_tempo (m r : Q) : Prop :=
  r = (60000 / m)%Q \/ r = (60000 / m / 2)%Q \/ r = (60000 / m * 2)%Q.

End IoiProps.

(** Five onsets 500 ms apart. *)
Definition onsets_500 : list Z := [0; 500; 1000; 1500; 2000].

(** An onset envelope of 100 frames with impulses at frames 0, 5 and 9; at
    5120 Hz with hop 512 it is read at 10 frames per second. *)
Definition envelope_tie : list Q :=
  [1; 0; 0; 0; 0; 85 # 100; 0; 0; 0; 1]%Q ++ repeat 0%Q 90.

Section SortDedupProps.
Import Funscript.

(** The actions of [l] at the time stamp [k], in their order in [l]. *)
Definition at_time (k : Z) (l : list FunscriptAction) : list FunscriptAction :=
  filter (fun a => at_ a = k) l.


(** Sortedness, as a property of the head against the tail. *)
Fixpoint ascending (l : list FunscriptAction) : Prop :=
  match l with
  | [] => True
  | a :: l' => Forall (fun b => at_ a <= at_ b) l' /\ ascending l'
  end.


End SortDedupProps.

Section BeatSnapProps.
Import Funscript BeatDetection MainWindow.


End BeatSnapProps.



(* ===================================================================== *)
(** * stabilization.py: the remaining filter stages and the pipeline *)
(* ===================================================================== *)

Module PyMath.

(** [math.copysign(m, d)] on floats without signed zeros: the magnitude of
    [m] with the sign of [d]. *)
Definition copysign (m d : Q) : Q :=
  if Py.Qltb d 0 then (- Qabs m)%Q else Qabs m.

End PyMath.

Module Slew.

Import SlewRateLimiter.

(** [SlewRateLimiter.filter], the time stamp given by the caller. *)
Definition filter (self : t) (x tm : Q) : option (t * Q) :=
  match _prev self with
  | None => Some (mk (max_rate self) (Some x) (Some tm), x)
  | Some prev =>
      t_prev ← _t_prev self;
      let dt := (tm - t_prev)%Q in
      if Qle_bool dt 0 then Some (self, prev)
      else
        let max_delta := (max_rate self * dt)%Q in
        let delta := (x - prev)%Q in
        let delta :=
          if Py.Qltb max_delta (Qabs delta)
          then PyMath.copysign max_delta delta else delta in
        let result := (prev + delta)%Q in
        Some (mk (max_rate self) (Some result) (Some tm), result)
  end.

(** [SlewRateLimiter.reset]. *)
Definition reset (self : t) : t := mk (max_rate self) None None.

End Slew.

Module Jerk.

Import JerkLimiter.

(** [JerkLimiter.filter], the time stamp given by the caller. *)
Definition filter (self : t) (x tm : Q) : option (t * Q) :=
  match _prev self with
  | None => Some (mk (max_jerk self) (Some x) 0 (Some tm), x)
  | Some prev =>
      t_prev ← _t_prev self;
      let dt := (tm - t_prev)%Q in
      if Qle_bool dt 0 then Some (self, prev)
      else
        vel ← Py.fdiv (x - prev) dt;
        accel ← Py.fdiv (vel - _vel_prev self) dt;
        let max_accel := (max_jerk self * dt)%Q in
        let vel :=
          if Py.Qltb max_accel (Qabs accel)
          then (_vel_prev self + PyMath.copysign max_accel accel * dt)%Q
          else vel in
        let result := (prev + vel * dt)%Q in
        Some (mk (max_jerk self) (Some result) vel (Some tm), result)
  end.

(** [JerkLimiter.reset]. *)
Definition reset (self : t) : t := mk (max_jerk self) None 0 None.

End Jerk.

Module Spike.

Import SpikeRejector.

(** [SpikeRejector.filter]. *)
Definition filter (self : t) (x tm : Q) : t * Q :=
  match _prev self with
  | None => (mk (threshold self) (Some x) (_held self) (_held_t self), x)
  | Some prev =>
      (* a sample held from the last frame is confirmed or discarded *)
      let prev :=
        match _held self with
        | Some held =>
            if Py.Qltb (Qabs (x - held)) (threshold self) then held else prev
        | None => prev
        end in
      (* normal processing; [_held] is None by now, [_held_t] is kept *)
      let delta := Qabs (x - prev) in
      if Py.Qltb (threshold self) delta
      then (mk (threshold self) (Some prev) (Some x) (Some tm), prev)
      else (mk (threshold self) (Some x) None (_held_t self), x)
  end.

(** [SpikeRejector.reset]. *)
Definition reset (self : t) : t := mk (threshold self) None None None.

End Spike.

Module Deadzone.

(** [DeadzoneFilter.reset]. *)
Definition reset (self : DeadzoneFilter.t) : DeadzoneFilter.t :=
  DeadzoneFilter.mk (DeadzoneFilter.threshold self) None.

(** The values returned when a stream of values is fed to the filter. *)
Fixpoint run (self : DeadzoneFilter.t) (values : list Z) : list Z :=
  match values with
  | [] => []
  | v :: rest =>
      let r := DeadzoneFilter.filter self v in
      snd r :: run (fst r) rest
  end.

End Deadzone.

Module Pipeline.

Import AxisStabilizer.

(** One optional stage: the filter is run when the stage is enabled. *)
Definition stage {S : Type} (enabled : bool) (f : S -> Q -> option (S * Q))
    (s : S) (val : Q) : option (S * Q) :=
  if enabled then f s val else Some (s, val).

(** [AxisStabilizer.process], the time stamp given by the caller. *)
Definition process (h : Stabilization.store) (self : t) (raw tm : Q)
  : option (t * Q) :=
  c ← h !! _effective_config self;
  r1 ← stage (StabilizationConfig.spike_rejection_enabled c)
         (fun s v => Some (Spike.filter s v tm)) (_spike self) raw;
  r2 ← stage (StabilizationConfig.one_euro_enabled c)
         (fun s v => OneEuroFilter.filter s v tm) (_one_euro self) (snd r1);
  r3 ← stage (StabilizationConfig.slew_rate_enabled c)
         (fun s v => Slew.filter s v tm) (_slew self) (snd r2);
  r4 ← stage (StabilizationConfig.jerk_limiter_enabled c)
         (fun s v => Jerk.filter s v tm) (_jerk self) (snd r3);
  Some (mk (axis_name self) (_config self) (_effective_config self)
          (fst r1) (fst r2) (fst r3) (fst r4) (_deadzone self) (_hysteresis self),
        snd r4).

(** [AxisStabilizer.post_map]. *)
Definition post_map (h : Stabilization.store) (self : t) (mapped : Z)
  : option (t * Z) :=
  c ← h !! _effective_config self;
  let r1 := if StabilizationConfig.deadzone_enabled c
            then DeadzoneFilter.filter (_deadzone self) mapped
            else (_deadzone self, mapped) in
  let r2 := if StabilizationConfig.hysteresis_enabled c
            then HysteresisFilter.filter (_hysteresis self) (snd r1)
            else (_hysteresis self, snd r1) in
  Some (mk (axis_name self) (_config self) (_effective_config self)
          (_spike self) (_one_euro self) (_slew self) (_jerk self)
          (fst r1) (fst r2),
        snd r2).

(** [AxisStabilizer.reset]. *)
Definition reset (self : t) : t :=
  mk (axis_name self) (_config self) (_effective_config self)
     (Spike.reset (_spike self)) (OneEuroFilter.reset (_one_euro self))
     (Slew.reset (_slew self)) (Jerk.reset (_jerk self))
     (Deadzone.reset (_deadzone self)) (HysteresisFilter.reset (_hysteresis self)).

End Pipeline.

(* ===================================================================== *)
(** * recorder.py: undo history *)
(* ===================================================================== *)

Module UndoManager.

Section WithItem.

(** The entries of the stacks: triples of an action tag, a segment and the
    previous actions; the manager does not look inside them. *)
Context {Item : Type}.

Record t := mk {
  max_history : Z;
  _undo_stack : list Item;
  _redo_stack : list Item
}.

(** [UndoManager.__init__]. *)
Definition init (max_history : Z) : t := mk max_history [] [].

(** [UndoManager.push]: the new entry goes on top (the end of the list); the
    oldest entry is dropped when the stack has grown past [max_history]. *)
Definition push (self : t) (item : Item) : t :=
  let stack := _undo_stack self ++ [item] in
  let stack :=
    if max_history self <? Z.of_nat (length stack) then drop 1 stack else stack in
  mk (max_history self) stack [].

Definition can_undo (self : t) : bool := (0 <? length (_undo_stack self))%nat.
Definition can_redo (self : t) : bool := (0 <? length (_redo_stack self))%nat.

(** [UndoManager.undo]: the manager after the call and the value returned
    ([None] when there is nothing to undo). *)
Definition undo (self : t) : t * option Item :=
  match last (_undo_stack self) with
  | None => (self, None)
  | Some item =>
      (mk (max_history self) (removelast (_undo_stack self))
          (_redo_stack self ++ [item]),
       Some item)
  end.

(** [UndoManager.redo]. *)
Definition redo (self : t) : t * option Item :=
  match last (_redo_stack self) with
  | None => (self, None)
  | Some item =>
      (mk (max_history self) (_undo_stack self ++ [item])
          (removelast (_redo_stack self)),
       Some item)
  end.

(** [UndoManager.clear]. *)
Definition clear (self : t) : t := mk (max_history self) [] [].

End WithItem.

Arguments t : clear implicits.

End UndoManager.

Module UndoHistory.

(** The calls a client makes on an [UndoManager]. *)
Inductive call {Item : Type} : Type :=
  | Push (item : Item)
  | Undo
  | Redo
  | Clear.

Arguments call : clear implicits.

Definition apply {Item : Type} (self : UndoManager.t Item) (c : call Item)
  : UndoManager.t Item :=
  match c with
  | Push item => UndoManager.push self item
  | Undo => fst (UndoManager.undo self)
  | Redo => fst (UndoManager.redo self)
  | Clear => UndoManager.clear self
  end.

(** The manager after a sequence of calls. *)
Definition run {Item : Type} (self : UndoManager.t Item) (calls : list (call Item))
  : UndoManager.t Item :=
  fold_left apply calls self.

End UndoHistory.

(* ===================================================================== *)
(** * funscript_io.py: editing the actions of an axis *)
(* ===================================================================== *)

Module FunscriptAxis.

Import Funscript.

(** [start_ms <= a.at <= end_ms]. *)
Definition in_range (start_ms end_ms : Z) (a : FunscriptAction) : Prop :=
  start_ms <= at_ a <= end_ms.

#[global] Instance in_range_dec (start_ms end_ms : Z) (a : FunscriptAction) :
  Decision (in_range start_ms end_ms a).
Proof. unfold in_range. apply _. Defined.

(** [FunscriptAxis.get_actions_in_range]. *)
Definition get_actions_in_range (actions : list FunscriptAction)
    (start_ms end_ms : Z) : list FunscriptAction :=
  filter (in_range start_ms end_ms) actions.

(** [FunscriptAxis.remove_actions_in_range]: the actions that are left. *)
Definition remove_actions_in_range (actions : list FunscriptAction)
    (start_ms end_ms : Z) : list FunscriptAction :=
  filter (fun a => ~ in_range start_ms end_ms a) actions.

(** [min(a.at for a in l)] and [max(a.at for a in l)] of a list with first
    element [a0]. *)
Definition min_at (a0 : FunscriptAction) (l : list FunscriptAction) : Z :=
  fold_left (fun m a => Z.min m (at_ a)) l (at_ a0).

Definition max_at (a0 : FunscriptAction) (l : list FunscriptAction) : Z :=
  fold_left (fun m a => Z.max m (at_ a)) l (at_ a0).

(** [FunscriptAxis.add_actions]: the actions of the axis after the call. *)
Definition add_actions (actions new_actions : list FunscriptAction)
  : list FunscriptAction :=
  match new_actions with
  | [] => actions
  | a0 :: rest =>
      let start_ms := min_at a0 rest in
      let end_ms := max_at a0 rest in
      sort_actions (remove_actions_in_range actions start_ms end_ms ++ new_actions)
  end.

End FunscriptAxis.

(* ===================================================================== *)
(** * recorder.py: committing, undoing and clearing on one axis *)
(* ===================================================================== *)

Module RecorderEdit.

Import Funscript.

(** [RecordingSegment], without the wall-clock time of its creation. *)
Record RecordingSegment := mkSegment {
  axis_name : string;
  actions : list FunscriptAction;
  start_ms : Z;
  end_ms : Z
}.

(** An entry of the undo stack: the tag of the operation, its segment and the
    actions that were in the range before. *)
Definition entry : Type := string * RecordingSegment * list FunscriptAction.

(** The body of the loop of [Recorder.stop_recording] for one axis, after the
    point reduction: the axis's actions after the commit and the entry pushed
    on the undo stack.  [recorded] is not empty there. *)
Definition commit (name : string) (axis_actions recorded : list FunscriptAction)
  : option (list FunscriptAction * entry) :=
  first ← head recorded;
  final ← last recorded;
  let segment := mkSegment name recorded (at_ first) (at_ final) in
  let previous :=
    FunscriptAxis.get_actions_in_range axis_actions (start_ms segment)
      (end_ms segment) in
  Some (FunscriptAxis.add_actions axis_actions recorded,
        ("record", segment, previous)).

(** [Recorder.undo] on the axis of the entry: the axis's actions after it. *)
Definition undo (axis_actions : list FunscriptAction) (e : entry)
  : list FunscriptAction :=
  let '(_, segment, previous_actions) := e in
  let axis_actions :=
    FunscriptAxis.remove_actions_in_range axis_actions (start_ms segment)
      (end_ms segment) in
  match previous_actions with
  | [] => axis_actions
  | _ => sort_actions (axis_actions ++ previous_actions)
  end.

(** [Recorder.redo] on the axis of the entry. *)
Definition redo (axis_actions : list FunscriptAction) (e : entry)
  : list FunscriptAction :=
  let '(_, segment, _) := e in
  FunscriptAxis.add_actions axis_actions (actions segment).

(** [Recorder.clear_range]: the axis's actions after the call and the entry
    pushed, if any. *)
Definition clear_range (name : string) (axis_actions : list FunscriptAction)
    (start_ms end_ms : Z) : list FunscriptAction * option entry :=
  let previous := FunscriptAxis.get_actions_in_range axis_actions start_ms end_ms in
  match previous with
  | [] => (axis_actions, None)
  | _ =>
      (FunscriptAxis.remove_actions_in_range axis_actions start_ms end_ms,
       Some ("clear", mkSegment name [] start_ms end_ms, previous))
  end.

End RecorderEdit.

(* ===================================================================== *)
(** * vr_controller.py: Kalman filter and recentering *)
(* ===================================================================== *)

Module KalmanFilter1D.

Record t := mk {
  process_noise : Q;
  measurement_noise : Q;
  estimate : Q;
  error : Q;
  initialized : bool
}.

(** [KalmanFilter1D.__init__]. *)
Definition init (process_noise measurement_noise : Q) : t :=
  mk process_noise measurement_noise 0 1 false.

(** [KalmanFilter1D.update]: the filter after the call and the estimate
    returned. *)
Definition update (self : t) (measurement : Q) : option (t * Q) :=
  if negb (initialized self) then
    Some (mk (process_noise self) (measurement_noise self) measurement
             (error self) true,
          measurement)
  else
    let prediction := estimate self in
    let pred_error := (error self + process_noise self)%Q in
    gain ← Py.fdiv pred_error (pred_error + measurement_noise self);
    let estimate' := (prediction + gain * (measurement - prediction))%Q in
    let error' := ((1 - gain) * pred_error)%Q in
    Some (mk (process_noise self) (measurement_noise self) estimate' error' true,
          estimate').

(** [KalmanFilter1D.reset]. *)
Definition reset (self : t) : t :=
  mk (process_noise self) (measurement_noise self) 0 1 false.

(** The estimates returned for a stream of measurements. *)
Fixpoint run (self : t) (measurements : list Q) : option (list Q) :=
  match measurements with
  | [] => Some []
  | m :: rest =>
      r ← update self m;
      outs ← run (fst r) rest;
      Some (snd r :: outs)
  end.

End KalmanFilter1D.

Module VRControllerInput.

(** The raw readings of [ControllerState]. *)
Record ControllerState := mkState {
  x : Q; y : Q; z : Q;
  pitch : Q; yaw : Q; roll : Q
}.

(** The dictionary [raw] of [recenter], in the order of its items. *)
Definition raw_items (state : ControllerState) : list (string * Q) :=
  [ ("x", x state); ("y", y state); ("z", z state);
    ("pitch", pitch state); ("yaw", yaw state); ("roll", roll state) ].



End VRControllerInput.

(* ===================================================================== *)
(** * beat_detection.py: snapping time stamps to beats *)
(* ===================================================================== *)

Module BeatSnapping.

Import Funscript BeatDetection.

(** The loop [for beat in self.beats] of [snap_to_beat], which is also the
    loop [for point in grid] of [snap_to_grid], on the pair
    [(best, best_dist)]. *)
Definition nearest_loop (time_ms : Z) (points : list Z) (acc : Z * Z) : Z * Z :=
  fold_left
    (fun acc point =>
       let dist := Z.abs (time_ms - point) in
       if dist <? snd acc then (point, dist) else acc)
    points acc.

(** The body that [snap_to_beat] runs on the beats and [snap_to_grid] on the
    grid. *)
Definition snap_in (points : list Z) (time_ms tolerance_ms : Z) : Z :=
  match points with
  | [] => time_ms
  | _ =>
      let r := nearest_loop time_ms points (time_ms, tolerance_ms + 1) in
      if snd r <=? tolerance_ms then fst r else time_ms
  end.

(** [BeatData.snap_to_beat]. *)
Definition snap_to_beat (self : BeatData) (time_ms tolerance_ms : Z) : Z :=
  snap_in (beats self) time_ms tolerance_ms.

(** [BeatData.snap_to_grid]; it raises when [get_beat_grid] does. *)
Definition snap_to_grid (self : BeatData) (time_ms tolerance_ms : Z) : option Z :=
  grid ← get_beat_grid self;
  Some (snap_in grid time_ms tolerance_ms).

(** The loop [for action in actions] of [snap_actions_to_beats]. *)
Fixpoint snap_each (snap_fn : Z -> option Z) (actions : list FunscriptAction)
  : option (list FunscriptAction) :=
  match actions with
  | [] => Some []
  | action :: rest =>
      snapped_at ← snap_fn (at_ action);
      result ← snap_each snap_fn rest;
      Some (mkAction snapped_at (pos action) :: result)
  end.

(** [snap_actions_to_beats]. *)
Definition snap_actions_to_beats (actions : list FunscriptAction)
    (beat_data : BeatData) (tolerance_ms : Z) (use_grid : bool)
  : option (list FunscriptAction) :=
  match beats beat_data with
  | [] => Some actions
  | _ =>
      let snap_fn :=
        if use_grid then fun t => snap_to_grid beat_data t tolerance_ms
        else fun t => Some (snap_to_beat beat_data t tolerance_ms) in
      snap_each snap_fn actions
  end.

End BeatSnapping.

(* ===================================================================== *)
(** * recorder.py: smoothing *)
(* ===================================================================== *)

Module Smoothing.

Import Funscript FunscriptAxis RecorderEdit.

(** An index of a Python slice on a list of length [n]: a negative index
    counts from the end, and the index is clipped to the list. *)
Definition slice_index (n i : Z) : Z :=
  if i <? 0 then Z.max 0 (i + n) else Z.min i n.

(** [l[a:b]]. *)
Definition slice {A : Type} (l : list A) (a b : Z) : list A :=
  let n := Z.of_nat (length l) in
  let a' := slice_index n a in
  let b' := slice_index n b in
  take (Z.to_nat (b' - a')) (drop (Z.to_nat a') l).

(** [sum(l)]. *)
Definition sum (l : list Q) : Q := fold_left Qplus l 0%Q.

(** [Recorder._moving_average]. *)
Definition _moving_average (data : list Q) (window : Z) : option (list Q) :=
  let half := window / 2 in
  let n := Z.of_nat (length data) in
  mapM (fun i =>
          let start := Z.max 0 (i - half) in
          let end_ := Z.min n (i + half + 1) in
          Py.fdiv (sum (slice data start end_)) (inject_Z (end_ - start)))
       (BeatDetection.range n).

(** [max(0, min(100, int(round(new_pos))))]. *)
Definition smoothed_pos (new_pos : Q) : Z := Z.max 0 (Z.min 100 (Py.round new_pos)).

(** The loop [for action, new_pos in zip(target_actions, smoothed)]: the
    targeted actions after it. *)
Fixpoint assign (target_actions : list FunscriptAction) (smoothed : list Q)
  : list FunscriptAction :=
  match target_actions, smoothed with
  | action :: target', new_pos :: smoothed' =>
      mkAction (at_ action) (smoothed_pos new_pos) :: assign target' smoothed'
  | _, _ => target_actions
  end.

(** With a time range the targeted actions are the objects of [axis.actions]
    inside the range, and the loop changes them in place: the axis's actions
    after the loop, [updated] being the targeted actions after it. *)
Fixpoint write_back (start_ms end_ms : Z)
    (axis_actions updated : list FunscriptAction) : list FunscriptAction :=
  match axis_actions with
  | [] => []
  | a :: rest =>
      if decide (in_range start_ms end_ms a) then
        match updated with
        | u :: updated' => u :: write_back start_ms end_ms rest updated'
        | [] => a :: write_back start_ms end_ms rest []
        end
      else a :: write_back start_ms end_ms rest updated
  end.

(** [start_ms is not None and end_ms is not None]: the time range, when both
    ends are given. *)
Definition ranged (start_ms end_ms : option Z) : option (Z * Z) :=
  match start_ms, end_ms with
  | Some s, Some e => Some (s, e)
  | _, _ => None
  end.

(** [Recorder.apply_smoothing] on the actions of the axis: the axis's actions
    after the call and the entry pushed on the undo stack, if any. *)
Definition apply_smoothing (name : string) (axis_actions : list FunscriptAction)
    (window_size : Z) (start_ms end_ms : option Z)
  : option (list FunscriptAction * option entry) :=
  match axis_actions with
  | [] => Some (axis_actions, None)
  | first :: _ =>
      match ranged start_ms end_ms with
      | Some (s, e) =>
          let original := get_actions_in_range axis_actions s e in
          let target_actions := get_actions_in_range axis_actions s e in
          if Z.of_nat (length target_actions) <? window_size
          then Some (axis_actions, None)
          else
            let positions := map (fun a => inject_Z (pos a)) target_actions in
            smoothed ← _moving_average positions window_size;
            let updated := assign target_actions smoothed in
            Some (write_back s e axis_actions updated,
                  Some ("smooth", mkSegment name updated s e, original))
      | None =>
          let original := axis_actions in
          let target_actions := axis_actions in
          let start_ms := at_ first in
          let end_ms := at_ (default first (last axis_actions)) in
          if Z.of_nat (length target_actions) <? window_size
          then Some (axis_actions, None)
          else
            let positions := map (fun a => inject_Z (pos a)) target_actions in
            smoothed ← _moving_average positions window_size;
            let updated := assign target_actions smoothed in
            Some (updated,
                  Some ("smooth", mkSegment name updated start_ms end_ms, original))
      end
  end.

End Smoothing.

(* ===================================================================== *)
(** * recorder.py: a recording session *)
(* ===================================================================== *)

Module RecorderSession.

Import Funscript Recorder.

(** The calls [add_sample(video_time_ms, mapped_positions)] of a session, in
    order. *)
Definition feed (self : Recorder.t) (samples : list (Z * gmap string Z))
  : Recorder.t :=
  fold_left (fun s sample => add_sample s (fst sample) (snd sample)) samples self.

(** [Recorder.cancel_recording]. *)
Definition cancel_recording (self : Recorder.t) : Recorder.t :=
  mk false (active_axes self) ∅ (_record_start_ms self) (min_interval_ms self)
     (_last_sample_time self).

(** The time stamp of the last action of a buffer, [-1] for an empty one. *)
Definition last_time (buffer : list FunscriptAction) : Z :=
  match last buffer with
  | Some a => at_ a
  | None => -1
  end.

(** Consecutive actions are at least [interval] apart, unless the earlier one
    has a negative time stamp. *)
Definition spaced (interval : Z) (buffer : list FunscriptAction) : Prop :=
  forall (i : nat) (a b : FunscriptAction),
    buffer !! i = Some a -> buffer !! S i = Some b ->
    0 <= at_ a -> interval <= at_ b - at_ a.

End RecorderSession.

(* ===================================================================== *)
(** * recorder.py: ending a recording session *)
(* ===================================================================== *)

Module StopRecording.

Import Funscript RecorderEdit.

Section WithSqrt.

Variable pow_half : Q -> Q.



End WithSqrt.

End StopRecording.

(* ===================================================================== *)
(** * stabilization.py: presets and the manager of the six stabilizers *)
(* ===================================================================== *)

Module StabilizationManager.

Import Stabilization.

(** The presets ["off"], ["light"] and ["heavy"]; fields that a preset does
    not name have the dataclass's defaults. *)
Definition off : StabilizationConfig.t :=
  StabilizationConfig.mk false (1 # 2) false (3 # 2) (7 # 1000) false 5 false 20
    false 1 false (3 # 2).

Definition light : StabilizationConfig.t :=
  StabilizationConfig.mk true (8 # 10) true (25 # 10) (1 # 100) true 8 false 20
    true (1 # 2) true 1.

Definition heavy : StabilizationConfig.t :=
  StabilizationConfig.mk true (3 # 10) true (8 # 10) (4 # 1000) true 3 true 15
    true 2 true (25 # 10).

(** [STABILIZATION_PRESETS]: the preset objects are created once, when the
    module is loaded, and shared by every stabilizer; the dictionary holds
    their addresses. *)
Definition STABILIZATION_PRESETS : gmap string nat :=
  {[ "off" := 0%nat; "light" := 1%nat; "medium" := 2%nat; "heavy" := 3%nat ]}.

(** The store when the module has been loaded. *)
Definition loaded : store :=
  {[ 0%nat := off; 1%nat := light; 2%nat := StabilizationConfig.medium;
     3%nat := heavy ]}.

Definition AXIS_NAMES : list string := ["x"; "y"; "z"; "pitch"; "yaw"; "roll"].

(** The dictionary [stabilizers] keeps the order in which the axes were
    inserted. *)
Record t := mk {
  _preset_name : string;
  _config : nat;
  stabilizers : list (string * AxisStabilizer.t)
}.

(** The dictionary comprehension of [__init__]. *)
Fixpoint init_all (h : store) (config : nat) (names : list string)
  : option (store * list (string * AxisStabilizer.t)) :=
  match names with
  | [] => Some (h, [])
  | name :: rest =>
      r ← AxisStabilizer.init h name config;
      rs ← init_all (fst r) config rest;
      Some (fst rs, (name, snd r) :: snd rs)
  end.

(** [StabilizationManager.__init__]. *)
Definition init (h : store) (preset : string) : option (store * t) :=
  medium ← STABILIZATION_PRESETS !! "medium";
  let config := default medium (STABILIZATION_PRESETS !! preset) in
  r ← init_all h config AXIS_NAMES;
  Some (fst r, mk preset config (snd r)).

(** The loop [for name, stab in self.stabilizers.items()] of [set_preset]. *)
Fixpoint set_all (h : store) (config : nat)
    (stabs : list (string * AxisStabilizer.t))
  : option (store * list (string * AxisStabilizer.t)) :=
  match stabs with
  | [] => Some (h, [])
  | (name, stab) :: rest =>
      r ← AxisStabilizer.set_config h stab config;
      rs ← set_all (fst r) config rest;
      Some (fst rs, (name, snd r) :: snd rs)
  end.

(** [StabilizationManager.set_preset]. *)
Definition set_preset (h : store) (self : t) (preset : string)
  : option (store * t) :=
  match STABILIZATION_PRESETS !! preset with
  | None => Some (h, self)
  | Some config =>
      r ← set_all h config (stabilizers self);
      Some (fst r, mk preset config (snd r))
  end.

(** The calls [set_preset(p)] for the names [presets], in order. *)
Fixpoint set_presets (h : store) (self : t) (presets : list string)
  : option (store * t) :=
  match presets with
  | [] => Some (h, self)
  | p :: rest =>
      r ← set_preset h self p;
      set_presets (fst r) (snd r) rest
  end.

(** The stabilizers follow the configuration [cfg]: each one is named by its
    key, its effective configuration is the one derived from [cfg] for its
    axis, and its filters carry the thresholds of that. *)
Definition follows (h : store) (cfg : StabilizationConfig.t)
    (stabs : list (string * AxisStabilizer.t)) : Prop :=
  Forall (fun entry =>
            AxisStabilizer.axis_name (snd entry) = fst entry /\
            exists eff,
              h !! AxisStabilizer._effective_config (snd entry) = Some eff /\
              effective_for (fst entry) cfg eff /\
              filters_follow (snd entry) eff)
    stabs.

(** The configuration in use after the calls [set_preset(p)] for the names
    [presets]: names that are not presets are ignored. *)
Definition selected (current : nat) (presets : list string) : nat :=
  fold_left (fun c p => default c (STABILIZATION_PRESETS !! p)) presets current.

End StabilizationManager.

(* ===================================================================== *)
(** * stabilization.py: a stream of mapped values through [post_map] *)
(* ===================================================================== *)

Module PostMap.

(** The values returned by successive calls [post_map(v)] for the values
    [values]. *)
Fixpoint run (h : Stabilization.store) (self : AxisStabilizer.t)
    (values : list Z) : option (list Z) :=
  match values with
  | [] => Some []
  | v :: rest =>
      r ← Pipeline.post_map h self v;
      outs ← run h (fst r) rest;
      Some (snd r :: outs)
  end.

End PostMap.

(* ===================================================================== *)
(** * vr_controller.py: automatic calibration *)
(* ===================================================================== *)

Module AutoCalibration.

Import VRControllerInput.

(** An entry [{"min": ..., "max": ...}] of [_cal_data]; [None] stands for
    [float('inf')] in [min_] and for [float('-inf')] in [max_], the values
    the entry has until a state has been seen. *)
Record CalData := mkData { min_ : option Q; max_ : option Q }.

Definition AXIS_NAMES : list string := ["x"; "y"; "z"; "pitch"; "yaw"; "roll"].

(** The fields of [VRControllerInput] that automatic calibration reads and
    writes; [_cal_data] keeps the order in which its keys were inserted.
    Before the first [auto_calibrate_start] the attribute [_auto_cal] does
    not exist, which the methods treat like [False]. *)
Record t := mk {
  calibrations : gmap string AxisCalibration.t;
  _cal_data : list (string * CalData);
  _auto_cal : bool
}.


(** [min(data["min"], val)] and [max(data["max"], val)]. *)
Definition observe (data : CalData) (val : Q) : CalData :=
  mkData (Some (match min_ data with
                | None => val
                | Some m => Py.min2 m val
                end))
         (Some (match max_ data with
                | None => val
                | Some m => Py.max2 m val
                end)).










(** The raw value of an axis in a controller state. *)
Definition raw_value (state : ControllerState) (name : string) : Q :=
  default 0%Q ((list_to_map (raw_items state) : gmap string Q) !! name).

(** The entry of an axis after the states [states] have been seen. *)
Definition seen (name : string) (states : list ControllerState) : CalData :=
  fold_left (fun data state => observe data (raw_value state name)) states
    (mkData None None).

End AutoCalibration.

(* ===================================================================== *)
(** * vr_controller.py: locking an axis *)
(* ===================================================================== *)

Module AxisLock.

Import VRControllerInput.

(** The attributes of an instance of [StabilizationManager]: the names bound
    in the body of the class and the attributes that [__init__] sets.  The
    class has the methods [reset_all] and [reset_axis]; it has no attribute
    [reset] and no [__getattr__]. *)
Definition StabilizationManager_attributes : list string :=
  ["AXIS_NAMES"; "__init__"; "preset_name"; "set_preset"; "set_axis_config";
   "process"; "post_map"; "reset_all"; "reset_axis";
   "_preset_name"; "_config"; "stabilizers"].

(** How a call ends. *)
Inductive outcome (A : Type) : Type :=
| Returned (value : A)
| Raised (exception : string).

Arguments Returned {A} value.
Arguments Raised {A} exception.

(** The fields of [VRControllerInput] that the lock methods read and write;
    [_stabilization] tells whether a [StabilizationManager] was created
    ([HAS_STABILIZATION]) or the attribute is [None]. *)
Record t := mk {
  _axis_locks : gmap string bool;
  _axis_lock_values : gmap string Q;
  _stabilization : bool
}.

(** The lock state that [__init__] sets up. *)
Definition init (has_stabilization : bool) : t :=
  mk (list_to_map (map (fun n => (n, false)) AutoCalibration.AXIS_NAMES))
     (list_to_map (map (fun n => (n, 0%Q)) AutoCalibration.AXIS_NAMES))
     has_stabilization.

(** [lock_axis], [state] being what [get_current_state()] returns. *)
Definition lock_axis (self : t) (state : ControllerState) (axis : string) : t :=
  match _axis_locks self !! axis with
  | None => self
  | Some _ =>
      let raw_map : gmap string Q := list_to_map (raw_items state) in
      mk (<[axis := true]> (_axis_locks self))
         (<[axis := default 0%Q (raw_map !! axis)]> (_axis_lock_values self))
         (_stabilization self)
  end.

(** The attribute lookup [self._stabilization.<name>]. *)
Definition getattr (name : string) : outcome unit :=
  if decide (name ∈ StabilizationManager_attributes) then Returned tt
  else Raised "AttributeError".

(** [unlock_axis]: the state after the call and how the call ends.  The call
    [self._stabilization.reset(axis)] starts with the lookup of the
    attribute [reset]. *)
Definition unlock_axis (self : t) (axis : string) : t * outcome unit :=
  match _axis_locks self !! axis with
  | None => (self, Returned tt)
  | Some _ =>
      let self := mk (<[axis := false]> (_axis_locks self))
                     (_axis_lock_values self) (_stabilization self) in
      if _stabilization self then (self, getattr "reset")
      else (self, Returned tt)
  end.

(** [is_axis_locked]. *)
Definition is_axis_locked (self : t) (axis : string) : bool :=
  default false (_axis_locks self !! axis).

(** [toggle_axis_lock]. *)
Definition toggle_axis_lock (self : t) (state : ControllerState) (axis : string)
  : t * outcome bool :=
  if is_axis_locked self axis then
    match unlock_axis self axis with
    | (self, Returned _) => (self, Returned false)
    | (self, Raised e) => (self, Raised e)
    end
  else (lock_axis self state axis, Returned true).

End AxisLock.

(* ===================================================================== *)
(** * timeline_widget.py: the view of the timeline *)
(* ===================================================================== *)

Module TimelineWidget.

(** The fields of [TimelineWidget] that the coordinate conversions and the
    view read and write, and the size [width()], [height()] of the widget. *)
Record t := mk {
  _duration_ms : Z;
  _view_start_ms : Z;
  _view_end_ms : Z;
  _playhead_ms : Z;
  _zoom_level : Q;
  _is_dragging : bool;
  _selection_start_ms : Z;
  _selection_end_ms : Z;
  _margin_left : Z;
  _margin_right : Z;
  _margin_top : Z;
  _margin_bottom : Z;
  width : Z;
  height : Z
}.

(** A [QRectF] given by its left, top, width and height. *)
Record QRectF := mkRect { rect_x : Q; rect_y : Q; rect_width : Q; rect_height : Q }.

Definition left (r : QRectF) : Q := rect_x r.
Definition bottom (r : QRectF) : Q := (rect_y r + rect_height r)%Q.

(** [_get_plot_rect]. *)
Definition _get_plot_rect (self : t) : QRectF :=
  mkRect (inject_Z (_margin_left self)) (inject_Z (_margin_top self))
    (inject_Z (width self - _margin_left self - _margin_right self))
    (inject_Z (height self - _margin_top self - _margin_bottom self)).

(** [_ms_to_x]; the divisor is at least 1. *)
Definition _ms_to_x (self : t) (time_ms : Z) : Q :=
  let rect := _get_plot_rect self in
  let view_range := Z.max 1 (_view_end_ms self - _view_start_ms self) in
  (left rect
   + inject_Z (time_ms - _view_start_ms self) / inject_Z view_range
     * rect_width rect)%Q.

(** [_x_to_ms]; the divisor is at least 1. *)
Definition _x_to_ms (self : t) (x : Q) : Z :=
  let rect := _get_plot_rect self in
  let view_range := _view_end_ms self - _view_start_ms self in
  let t := ((x - left rect) / Py.max2 1 (rect_width rect) * inject_Z view_range
            + inject_Z (_view_start_ms self))%Q in
  Z.max 0 (Z.min (_duration_ms self) (Py.int t)).

(** [_pos_to_y]. *)
Definition _pos_to_y (self : t) (pos : Z) : Q :=
  let rect := _get_plot_rect self in
  (bottom rect - inject_Z pos / 100 * rect_height rect)%Q.

(** [_y_to_pos]; the divisor is at least 1. *)
Definition _y_to_pos (self : t) (y : Q) : Z :=
  let rect := _get_plot_rect self in
  let pos := ((bottom rect - y) / Py.max2 1 (rect_height rect) * 100)%Q in
  Z.max 0 (Z.min 100 (Py.round pos)).

(** Assignments to the view. *)
Definition with_view (self : t) (view_start_ms view_end_ms : Z) : t :=
  mk (_duration_ms self) view_start_ms view_end_ms (_playhead_ms self)
     (_zoom_level self) (_is_dragging self) (_selection_start_ms self)
     (_selection_end_ms self) (_margin_left self) (_margin_right self)
     (_margin_top self) (_margin_bottom self) (width self) (height self).

Definition with_playhead (self : t) (playhead_ms : Z) : t :=
  mk (_duration_ms self) (_view_start_ms self) (_view_end_ms self) playhead_ms
     (_zoom_level self) (_is_dragging self) (_selection_start_ms self)
     (_selection_end_ms self) (_margin_left self) (_margin_right self)
     (_margin_top self) (_margin_bottom self) (width self) (height self).

(** [set_playhead]. *)
Definition set_playhead (self : t) (time_ms : Z) : t :=
  let self := with_playhead self time_ms in
  if negb (_is_dragging self) then
    if (time_ms <? _view_start_ms self) || (_view_end_ms self <? time_ms) then
      let view_width := _view_end_ms self - _view_start_ms self in
      let view_start := Z.max 0 (time_ms - view_width / 4) in
      let view_end := view_start + view_width in
      if _duration_ms self <? view_end then
        let view_end := _duration_ms self in
        with_view self (Z.max 0 (view_end - view_width)) view_end
      else with_view self view_start view_end
    else self
  else self.

(** [get_selection]. *)
Definition get_selection (self : t) : Z * Z :=
  if _selection_start_ms self <? 0 then (-1, -1)
  else (Z.min (_selection_start_ms self) (_selection_end_ms self),
        Z.max (_selection_start_ms self) (_selection_end_ms self)).

(** [set_duration]. *)
Definition set_duration (self : t) (duration_ms : Z) : t :=
  let duration := Z.max 1 duration_ms in
  mk duration (_view_start_ms self) (Z.min (_view_end_ms self) duration)
     (_playhead_ms self) (_zoom_level self) (_is_dragging self)
     (_selection_start_ms self) (_selection_end_ms self) (_margin_left self)
     (_margin_right self) (_margin_top self) (_margin_bottom self)
     (width self) (height self).

(** [zoom_to_fit]. *)
Definition zoom_to_fit (self : t) : t :=
  mk (_duration_ms self) 0 (_duration_ms self) (_playhead_ms self) 1
     (_is_dragging self) (_selection_start_ms self) (_selection_end_ms self)
     (_margin_left self) (_margin_right self) (_margin_top self)
     (_margin_bottom self) (width self) (height self).

(** [wheelEvent], for the wheel movement [delta] ([event.angleDelta().y()])
    at the horizontal mouse position [mouse_x]. *)
Definition wheelEvent (self : t) (delta : Z) (mouse_x : Q) : t :=
  if delta =? 0 then self
  else
    let factor := if 0 <? delta then (115 # 100)%Q else (1 / (115 # 100))%Q in
    let mouse_time := _x_to_ms self (inject_Z (Py.int mouse_x)) in
    let view_range := _view_end_ms self - _view_start_ms self in
    let new_range :=
      Z.max 500 (Z.min (_duration_ms self) (Py.int (inject_Z view_range / factor))) in
    let rect := _get_plot_rect self in
    let mouse_frac := ((mouse_x - left rect) / Py.max2 1 (rect_width rect))%Q in
    let new_start :=
      Py.int (inject_Z mouse_time - mouse_frac * inject_Z new_range) in
    let new_start := Z.max 0 (Z.min (_duration_ms self - new_range) new_start) in
    mk (_duration_ms self) new_start (new_start + new_range) (_playhead_ms self)
       (inject_Z (_duration_ms self) / inject_Z (Z.max 1 new_range))
       (_is_dragging self) (_selection_start_ms self) (_selection_end_ms self)
       (_margin_left self) (_margin_right self) (_margin_top self)
       (_margin_bottom self) (width self) (height self).

(** The calls that move the view over a video of a given duration. *)
Inductive call : Type :=
| SetPlayhead (time_ms : Z)
| ZoomToFit
| Wheel (delta : Z) (mouse_x : Q).

Definition apply (self : t) (c : call) : t :=
  match c with
  | SetPlayhead time_ms => set_playhead self time_ms
  | ZoomToFit => zoom_to_fit self
  | Wheel delta mouse_x => wheelEvent self delta mouse_x
  end.

(** The view lies inside the video. *)
Definition view_inside (self : t) : Prop :=
  0 <= _view_start_ms self /\ _view_start_ms self <= _view_end_ms self /\
  _view_end_ms self <= _duration_ms self.

End TimelineWidget.

(* ===================================================================== *)
(** * Theorems *)
(* ===================================================================== *)

(** ** Rounding *)

Ltac qcmp :=
  repeat match goal with
  | H : (_ ?= _)%Q = Eq |- _ => apply Qeq_alt in H
  | H : (_ ?= _)%Q = Lt |- _ => apply Qlt_alt in H
  | H : (_ ?= _)%Q = Gt |- _ => apply Qgt_alt in H
  end.

Lemma Qltb_lt (a b : Q) : Py.Qltb a b = true <-> (a < b)%Q.
Proof.
  unfold Py.Qltb. rewrite negb_true_iff.
  split.
  - intros H. apply Qnot_le_lt. intros Hle.
    apply Qle_bool_iff in Hle. congruence.
  - intros H. destruct (Qle_bool b a) eqn:E; [|reflexivity].
    apply Qle_bool_iff in E. apply Qlt_not_le in H. contradiction.
Qed.

Lemma Qltb_ge (a b : Q) : Py.Qltb a b = false <-> (b <= a)%Q.
Proof.
  unfold Py.Qltb. rewrite negb_false_iff. apply Qle_bool_iff.
Qed.

Lemma Qfloor_frac (x : Q) :
  (0 <= x - inject_Z (Qfloor x))%Q /\ (x - inject_Z (Qfloor x) < 1)%Q.
Proof.
  pose proof (Qfloor_le x) as H1.
  pose proof (Qlt_floor x) as H2.
  rewrite inject_Z_plus in H2.
  change (inject_Z 1) with 1%Q in H2.
  split; lra.
Qed.

Lemma round_floor_bounds (x : Q) :
  Qfloor x <= Py.round x <= Qfloor x + 1.
Proof.
  unfold Py.round.
  destruct (Qcompare _ _); [destruct (Z.even _)| |]; lia.
Qed.

Lemma round_mono (x y : Q) : (x <= y)%Q -> Py.round x <= Py.round y.
Proof.
  intros Hxy.
  pose proof (Qfloor_resp_le _ _ Hxy) as Hf.
  destruct (Z.eq_dec (Qfloor x) (Qfloor y)) as [E|NE].
  - unfold Py.round. rewrite E.
    destruct (Qcompare (x - inject_Z (Qfloor y)) (1 # 2)) eqn:Cx;
      destruct (Qcompare (y - inject_Z (Qfloor y)) (1 # 2)) eqn:Cy;
      try (destruct (Z.even (Qfloor y))); try lia; exfalso; qcmp; lra.
  - pose proof (round_floor_bounds x). pose proof (round_floor_bounds y). lia.
Qed.

Lemma round_inject (z : Z) : Py.round (inject_Z z) = z.
Proof.
  unfold Py.round. rewrite Qfloor_Z.
  assert (H : (inject_Z z - inject_Z z == 0)%Q) by ring.
  destruct (Qcompare (inject_Z z - inject_Z z) (1 # 2)) eqn:C; auto;
    exfalso; qcmp; lra.
Qed.

Lemma round_range (x : Q) (lo hi : Z) :
  (inject_Z lo <= x)%Q -> (x <= inject_Z hi)%Q -> lo <= Py.round x <= hi.
Proof.
  intros H1 H2. apply round_mono in H1. apply round_mono in H2.
  rewrite round_inject in H1, H2. lia.
Qed.

Lemma round_compat (x y : Q) : (x == y)%Q -> Py.round x = Py.round y.
Proof.
  intros E.
  assert (H1 : (x <= y)%Q) by lra.
  assert (H2 : (y <= x)%Q) by lra.
  apply round_mono in H1. apply round_mono in H2. lia.
Qed.

(** ** Calibration mapping *)

Section MapValue.
Import AxisCalibration.

Lemma Qeq_bool_false (a b : Q) : Qeq_bool a b = false <-> ~ (a == b)%Q.
Proof.
  split.
  - intros H E. apply Qeq_bool_iff in E. congruence.
  - intros H. destruct (Qeq_bool a b) eqn:E; [|reflexivity].
    apply Qeq_bool_iff in E. contradiction.
Qed.

Lemma clamp01_cases (x : Q) :
  (x <= 0 /\ clamp01 x == 0)%Q \/ (1 <= x /\ clamp01 x == 1)%Q \/
  (0 < x /\ x < 1 /\ clamp01 x == x)%Q.
Proof.
  unfold clamp01.
  destruct (Qle_bool x 0) eqn:E0.
  - apply Qle_bool_iff in E0. left. split; [assumption|reflexivity].
  - assert (0 < x)%Q.
    { apply Qnot_le_lt. intros H. apply Qle_bool_iff in H. congruence. }
    destruct (Qle_bool 1 x) eqn:E1.
    + apply Qle_bool_iff in E1. right. left. split; [assumption|reflexivity].
    + assert (x < 1)%Q.
      { apply Qnot_le_lt. intros H1. apply Qle_bool_iff in H1. congruence. }
      right. right. repeat split; try assumption; reflexivity.
Qed.

Lemma clamp01_range (x : Q) : (0 <= clamp01 x /\ clamp01 x <= 1)%Q.
Proof. destruct (clamp01_cases x) as [[? ?]|[[? ?]|[? [? ?]]]]; split; lra. Qed.

Lemma clamp01_mono (x y : Q) : (x <= y)%Q -> (clamp01 x <= clamp01 y)%Q.
Proof.
  intros H.
  destruct (clamp01_cases x) as [[? ?]|[[? ?]|[? [? ?]]]];
    destruct (clamp01_cases y) as [[? ?]|[[? ?]|[? [? ?]]]]; lra.
Qed.

Lemma max2_min2_clamp (x : Q) : (Py.max2 0 (Py.min2 1 x) == clamp01 x)%Q.
Proof.
  unfold Py.max2, Py.min2.
  destruct (Py.Qltb x 1) eqn:E1.
  - apply Qltb_lt in E1.
    destruct (Py.Qltb 0 x) eqn:E0.
    + apply Qltb_lt in E0.
      destruct (clamp01_cases x) as [[? ?]|[[? ?]|[? [? ?]]]]; lra.
    + apply Qltb_ge in E0.
      destruct (clamp01_cases x) as [[? ?]|[[? ?]|[? [? ?]]]]; lra.
  - apply Qltb_ge in E1.
    destruct (Py.Qltb 0 1) eqn:E0.
    + destruct (clamp01_cases x) as [[? ?]|[[? ?]|[? [? ?]]]]; lra.
    + apply Qltb_ge in E0. lra.
Qed.

Lemma map_value_pre_round (self : t) (raw : Q) :
  ~ (max_val self == min_val self)%Q ->
  exists x, map_value self raw = Some (Py.round x) /\ (x == pre_round self raw)%Q.
Proof.
  intros Hne. unfold map_value, pre_round, Py.fdiv.
  assert (R : Qeq_bool (max_val self - min_val self) 0 = false).
  { apply Qeq_bool_false. intros E. apply Hne. lra. }
  rewrite R. simpl.
  eexists. split; [reflexivity|].
  set (n := ((raw - min_val self) / (max_val self - min_val self))%Q).
  assert (S : ((if negb (Qeq_bool (sensitivity self) 1)
                then (n - (1 # 2)) * sensitivity self + (1 # 2) else n)
               == (n - (1 # 2)) * sensitivity self + (1 # 2))%Q).
  { destruct (Qeq_bool (sensitivity self) 1) eqn:E; simpl; [|reflexivity].
    apply Qeq_bool_iff in E. rewrite E. ring. }
  set (m := (if negb (Qeq_bool (sensitivity self) 1)
             then ((n - (1 # 2)) * sensitivity self + (1 # 2))%Q else n)) in *.
  set (m' := ((n - (1 # 2)) * sensitivity self + (1 # 2))%Q) in *.
  assert (C : (Py.max2 0 (Py.min2 1 m) == clamp01 m')%Q).
  { rewrite max2_min2_clamp.
    assert (L1 : (clamp01 m <= clamp01 m')%Q) by (apply clamp01_mono; lra).
    assert (L2 : (clamp01 m' <= clamp01 m)%Q) by (apply clamp01_mono; lra).
    lra. }
  destruct (inverted self); lra.
Qed.

Lemma map_value_refines (self : t) (raw : Q) :
  ~ (max_val self == min_val self)%Q ->
  map_value self raw = Some (map_value_spec Py.round self raw).
Proof.
  intros Hne.
  destruct (map_value_pre_round self raw Hne) as [x [Hx Ex]].
  rewrite Hx. unfold map_value_spec. f_equal. apply round_compat. exact Ex.
Qed.

Lemma pre_round_range (self : t) (raw : Q) :
  (0 <= pre_round self raw /\ pre_round self raw <= 100)%Q.
Proof.
  unfold pre_round.
  set (k := clamp01 _). pose proof (clamp01_range k) as Hk.
  assert (Hc : (0 <= k /\ k <= 1)%Q).
  { subst k. apply clamp01_range. }
  destruct (inverted self); split; lra.
Qed.

Lemma pre_round_mono (self : t) (r1 r2 : Q) :
  (min_val self < max_val self)%Q -> inverted self = false ->
  (0 <= sensitivity self)%Q -> (r1 <= r2)%Q ->
  (pre_round self r1 <= pre_round self r2)%Q.
Proof.
  intros Hlt Hinv Hs Hr. unfold pre_round. rewrite Hinv.
  set (R := (max_val self - min_val self)%Q).
  assert (HR : (0 < R)%Q) by (unfold R; lra).
  assert (Hn : ((r1 - min_val self) / R <= (r2 - min_val self) / R)%Q).
  { unfold Qdiv. apply Qmult_le_compat_r; [lra|].
    apply Qlt_le_weak, Qinv_lt_0_compat, HR. }
  set (n1 := ((r1 - min_val self) / R)%Q) in *.
  set (n2 := ((r2 - min_val self) / R)%Q) in *.
  assert (Hm : ((n1 - (1 # 2)) * sensitivity self + (1 # 2)
                <= (n2 - (1 # 2)) * sensitivity self + (1 # 2))%Q).
  { assert ((n1 - (1 # 2)) * sensitivity self
            <= (n2 - (1 # 2)) * sensitivity self)%Q.
    { apply Qmult_le_compat_r; lra. }
    lra. }
  apply clamp01_mono in Hm. lra.
Qed.

End MapValue.

(** The scenario of the specification: raw 0.0 maps to 50 and raw 0.3 to 100,
    the doubled sensitivity pushing the normalised value to 1.5 before the
    clamp. *)
Example map_value_scenario :
  AxisCalibration.map_value calib_scenario 0 = Some 50 /\
  AxisCalibration.map_value calib_scenario (3 # 10) = Some 100.
Proof. split; reflexivity. Qed.





(** C6, as stated, fails: with [min_val = 0], [max_val = 1], no inversion and
    sensitivity -1 the raw value 0 maps to 100 and the larger raw value 1 maps
    to 0. *)
Lemma C6_counterexample :
  (AxisCalibration.min_val calib_negative_sensitivity
   < AxisCalibration.max_val calib_negative_sensitivity)%Q /\
  AxisCalibration.inverted calib_negative_sensitivity = false /\
  AxisCalibration.map_value calib_negative_sensitivity 0 = Some 100 /\
  AxisCalibration.map_value calib_negative_sensitivity 1 = Some 0.
Proof. repeat split. Qed.

(** C6 (amended): for every calibration with [max_val > min_val], [map_value]
    returns an integer in [0,100]; when moreover [inverted] is false and the
    sensitivity is not negative, it is non-decreasing in the raw input; for
    every calibration with [max_val == min_val] it returns 50; in no case does
    it raise. *)
Theorem C6_map_value_monotone_bounded :
  forall c : AxisCalibration.t,
    ((AxisCalibration.max_val c == AxisCalibration.min_val c)%Q ->
     forall raw, AxisCalibration.map_value c raw = Some 50) /\
    ((AxisCalibration.min_val c < AxisCalibration.max_val c)%Q ->
     forall raw, exists v,
       AxisCalibration.map_value c raw = Some v /\ 0 <= v <= 100) /\
    ((AxisCalibration.min_val c < AxisCalibration.max_val c)%Q ->
     AxisCalibration.inverted c = false ->
     (0 <= AxisCalibration.sensitivity c)%Q ->
     forall r1 r2, (r1 <= r2)%Q ->
       exists v1 v2,
         AxisCalibration.map_value c r1 = Some v1 /\
         AxisCalibration.map_value c r2 = Some v2 /\ v1 <= v2).
Proof.
  intros c. repeat split.
  - intros E raw. unfold AxisCalibration.map_value.
    assert (R : Qeq_bool (AxisCalibration.max_val c - AxisCalibration.min_val c) 0 = true).
    { apply Qeq_bool_iff. lra. }
    rewrite R. reflexivity.
  - intros Hlt raw.
    assert (Hne : ~ (AxisCalibration.max_val c == AxisCalibration.min_val c)%Q) by lra.
    rewrite (map_value_refines c raw Hne). eexists. split; [reflexivity|].
    unfold AxisCalibration.map_value_spec.
    destruct (pre_round_range c raw) as [H0 H1].
    apply round_range; assumption.
  - intros Hlt Hinv Hs r1 r2 Hr.
    assert (Hne : ~ (AxisCalibration.max_val c == AxisCalibration.min_val c)%Q) by lra.
    rewrite (map_value_refines c r1 Hne), (map_value_refines c r2 Hne).
    do 2 eexists. repeat split.
    unfold AxisCalibration.map_value_spec.
    apply round_mono, pre_round_mono; assumption.
Qed.

Lemma C6_witness :
  (AxisCalibration.min_val calib_default < AxisCalibration.max_val calib_default)%Q /\
  AxisCalibration.inverted calib_default = false /\
  (0 <= AxisCalibration.sensitivity calib_default)%Q /\
  ((1 # 4) <= (3 # 4))%Q /\
  exists v1 v2,
    AxisCalibration.map_value calib_default (1 # 4) = Some v1 /\
    AxisCalibration.map_value calib_default (3 # 4) = Some v2 /\ v1 <= v2.
Proof.
  assert (H1 : (AxisCalibration.min_val calib_default
                < AxisCalibration.max_val calib_default)%Q) by reflexivity.
  assert (H2 : (0 <= AxisCalibration.sensitivity calib_default)%Q)
    by (intro E; discriminate E).
  assert (H3 : ((1 # 4) <= (3 # 4))%Q) by (intro E; discriminate E).
  refine (conj H1 (conj eq_refl (conj H2 (conj H3 _)))).
  exact (proj2 (proj2 (C6_map_value_monotone_bounded calib_default))
           H1 eq_refl H2 (1 # 4)%Q (3 # 4)%Q H3).
Defined.

(** ** Hysteresis filter *)

Section Hysteresis.
Import HysteresisFilter.

Lemma Qle_bool_false (a b : Q) : Qle_bool a b = false <-> (b < a)%Q.
Proof.
  split.
  - intros H. apply Qnot_le_lt. intros L. apply Qle_bool_iff in L. congruence.
  - intros H. destruct (Qle_bool a b) eqn:E; [|reflexivity].
    apply Qle_bool_iff in E. apply Qlt_not_le in H. contradiction.
Qed.

Lemma filter_no_direction (self : t) (last value : Z) :
  _last_emitted self = Some last -> _direction self = 0 ->
  (inject_Z (Z.abs (value - last)) < band self)%Q ->
  filter self value = (self, last).
Proof.
  intros Hl Hd Hb. unfold filter. rewrite Hl, Hd. simpl.
  apply Qle_bool_false in Hb. rewrite Hb. reflexivity.
Qed.

Lemma filter_continues (self : t) (last value : Z) :
  _last_emitted self = Some last -> _direction self <> 0 ->
  continues self last value ->
  filter self value = (mk (band self) (Some value) (_direction self), value).
Proof.
  intros Hl Hd Hc. unfold filter. rewrite Hl.
  destruct (Z.eqb_spec (_direction self) 0) as [E|_]; [contradiction|].
  assert (C : ((0 <? _direction self) && (0 <? value - last)
               || (_direction self <? 0) && (value - last <? 0)) = true).
  { destruct Hc as [[H1 H2]|[H1 H2]].
    - apply orb_true_iff. left. apply andb_true_iff. split; apply Z.ltb_lt; lia.
    - apply orb_true_iff. right. apply andb_true_iff. split; apply Z.ltb_lt; lia. }
  rewrite C. reflexivity.
Qed.

Lemma filter_small_reversal (self : t) (last value : Z) :
  _last_emitted self = Some last -> _direction self <> 0 ->
  (inject_Z (Z.abs (value - last)) < band self * 2)%Q ->
  _direction (fst (filter self value)) = _direction self /\
  (~ continues self last value -> filter self value = (self, last)).
Proof.
  intros Hl Hd Hb. unfold filter. rewrite Hl.
  destruct (Z.eqb_spec (_direction self) 0) as [E|_]; [contradiction|].
  apply Qle_bool_false in Hb. rewrite Hb.
  destruct ((0 <? _direction self) && (0 <? value - last)
            || (_direction self <? 0) && (value - last <? 0)) eqn:C.
  - split; [reflexivity|]. intros Hn. exfalso. apply Hn.
    apply orb_true_iff in C. destruct C as [C|C];
      apply andb_true_iff in C; destruct C as [C1 C2];
      apply Z.ltb_lt in C1; apply Z.ltb_lt in C2; [left|right]; lia.
  - split; [reflexivity|]. intros _. reflexivity.
Qed.

End Hysteresis.

(** C9: let a HysteresisFilter be reset and fed any sequence of inputs, and
    let [last] be the value it emitted last.  (a) While no direction is
    established, an input that differs from [last] by less than [band] leaves
    the emitted value (and the whole state) unchanged.  (b) Once a direction
    is established, an input that continues in that direction is emitted and
    the direction is kept.  (c) Once a direction is established, an input
    whose distance to [last] is smaller than 2 x band never changes the
    direction, and when it does not continue in the direction the filter
    repeats [last]. *)
Theorem C9_hysteresis_band :
  forall (f0 : HysteresisFilter.t) (inputs : list Z) (last value : Z),
    let self := HysteresisFilter.feed (HysteresisFilter.reset f0) inputs in
    HysteresisFilter._last_emitted self = Some last ->
    (HysteresisFilter._direction self = 0 ->
     (inject_Z (Z.abs (value - last)) < HysteresisFilter.band self)%Q ->
     HysteresisFilter.filter self value = (self, last)) /\
    (HysteresisFilter._direction self <> 0 ->
     continues self last value ->
     snd (HysteresisFilter.filter self value) = value /\
     HysteresisFilter._direction (fst (HysteresisFilter.filter self value))
       = HysteresisFilter._direction self) /\
    (HysteresisFilter._direction self <> 0 ->
     (inject_Z (Z.abs (value - last)) < HysteresisFilter.band self * 2)%Q ->
     HysteresisFilter._direction (fst (HysteresisFilter.filter self value))
       = HysteresisFilter._direction self /\
     (~ continues self last value ->
      HysteresisFilter.filter self value = (self, last))).
Proof.
  intros f0 inputs last value self Hl. repeat split.
  - intros Hd Hb. apply filter_no_direction; assumption.
  - rewrite (filter_continues self last value); auto.
  - rewrite (filter_continues self last value); auto.
  - apply (filter_small_reversal self last value); assumption.
  - apply (filter_small_reversal self last value); assumption.
Qed.

(** A filter of band 3/2 that has emitted 50 and then 60: the direction is
    rising and the last emitted value is 60. *)
Lemma C9_witness :
  let self := HysteresisFilter.feed
                (HysteresisFilter.reset (HysteresisFilter.init (3 # 2))) [50; 60] in
  HysteresisFilter._last_emitted self = Some 60 /\
  HysteresisFilter._direction self <> 0 /\
  (inject_Z (Z.abs (58 - 60)) < HysteresisFilter.band self * 2)%Q /\
  ~ continues self 60 58 /\
  HysteresisFilter.filter self 58 = (self, 60).
Proof.
  intros self.
  assert (Hl : HysteresisFilter._last_emitted self = Some 60) by reflexivity.
  assert (Hd : HysteresisFilter._direction self <> 0) by (intro E; discriminate E).
  assert (Hb : (inject_Z (Z.abs (58 - 60)) < HysteresisFilter.band self * 2)%Q)
    by reflexivity.
  assert (Hc : ~ continues self 60 58).
  { unfold continues. simpl. lia. }
  refine (conj Hl (conj Hd (conj Hb (conj Hc _)))).
  exact (proj2 (proj2 (proj2 (C9_hysteresis_band (HysteresisFilter.init (3 # 2))
                                [50; 60] 60 58 Hl)) Hd Hb) Hc).
Defined.

(** ** One Euro filter *)

Section OneEuro.
Import OneEuroFilter.



Lemma blend_between (a x xp : Q) :
  (0 <= a)%Q -> (a <= 1)%Q -> between xp (a * x + (1 - a) * xp) x.
Proof.
  intros H0 H1. unfold between.
  destruct (Qlt_le_dec x xp) as [L|L].
  - right.
    assert (A : (0 <= a * (xp - x))%Q) by (apply Qmult_le_0_compat; lra).
    assert (B : (0 <= (1 - a) * (xp - x))%Q) by (apply Qmult_le_0_compat; lra).
    split; lra.
  - left.
    assert (A : (0 <= a * (x - xp))%Q) by (apply Qmult_le_0_compat; lra).
    assert (B : (0 <= (1 - a) * (x - xp))%Q) by (apply Qmult_le_0_compat; lra).
    split; lra.
Qed.



End OneEuro.



(** ** Axis-scaled configuration *)

Section SetConfig.
Import StabilizationConfig.

Lemma is_rotation_elem (name : string) :
  is_rotation name <-> name ∈ Stabilization.ROTATION_AXES.
Proof.
  unfold is_rotation, Stabilization.ROTATION_AXES.
  rewrite !elem_of_union, !elem_of_singleton. tauto.
Qed.

Lemma is_position_not_rotation (name : string) :
  is_position name -> name ∉ Stabilization.ROTATION_AXES.
Proof.
  intros Hp Hr. apply is_rotation_elem in Hr.
  destruct Hp as [-> | [-> | ->]]; destruct Hr as [E | [E | E]]; discriminate E.
Qed.

Lemma fresh_not_allocated (h : Stabilization.store) (l : nat) :
  is_Some (h !! l) -> l <> fresh (dom h).
Proof.
  intros Hl E. apply elem_of_dom in Hl. rewrite E in Hl.
  exact (is_fresh (dom h) Hl).
Qed.

Lemma adjust_position (h : Stabilization.store) (config : nat) (name : string) :
  name ∉ Stabilization.ROTATION_AXES ->
  Stabilization._adjust_config_for_axis h config name = Some (h, config).
Proof.
  intros Hn. unfold Stabilization._adjust_config_for_axis.
  destruct (decide (name ∉ Stabilization.ROTATION_AXES)); [reflexivity|contradiction].
Qed.

Lemma adjust_rotation (h : Stabilization.store) (config : nat) (name : string)
    (cfg : StabilizationConfig.t) :
  name ∈ Stabilization.ROTATION_AXES ->
  h !! config = Some cfg ->
  exists h',
    Stabilization._adjust_config_for_axis h config name = Some (h', fresh (dom h)) /\
    h' !! fresh (dom h) = Some (scaled cfg) /\
    forall l, l <> fresh (dom h) -> h' !! l = h !! l.
Proof.
  intros Hn Hc. unfold Stabilization._adjust_config_for_axis.
  destruct (decide (name ∉ Stabilization.ROTATION_AXES)) as [Hd|_]; [contradiction|].
  assert (Hne : config <> fresh (dom h)).
  { apply fresh_not_allocated. rewrite Hc. eauto. }
  set (c := fresh (dom h)) in *.
  rewrite Hc. cbn [mbind option_bind].
  unfold Stabilization.setattr.
  repeat (rewrite ?lookup_insert_eq, ?(lookup_insert_ne _ c config) by congruence;
          rewrite ?Hc; cbn [mbind option_bind]).
  eexists. split; [reflexivity|]. split.
  - rewrite lookup_insert_eq. reflexivity.
  - intros l Hl. rewrite !lookup_insert_ne by congruence. reflexivity.
Qed.

Lemma set_config_effect (h : Stabilization.store) (self : AxisStabilizer.t)
    (config : nat) (cfg : StabilizationConfig.t) :
  h !! config = Some cfg ->
  exists h' self' eff,
    AxisStabilizer.set_config h self config = Some (h', self') /\
    (forall l, is_Some (h !! l) -> h' !! l = h !! l) /\
    AxisStabilizer.axis_name self' = AxisStabilizer.axis_name self /\
    AxisStabilizer._config self' = config /\
    h' !! AxisStabilizer._effective_config self' = Some eff /\
    eff = (if decide (AxisStabilizer.axis_name self ∉ Stabilization.ROTATION_AXES)
           then cfg else scaled cfg) /\
    filters_follow self' eff.
Proof.
  intros Hc. unfold AxisStabilizer.set_config.
  destruct (decide (AxisStabilizer.axis_name self ∉ Stabilization.ROTATION_AXES))
    as [Hp|Hr].
  - rewrite (adjust_position _ _ _ Hp). cbn [mbind option_bind fst snd].
    unfold AxisStabilizer._apply_config. cbn [AxisStabilizer._effective_config].
    rewrite Hc. cbn [mbind option_bind].
    do 3 eexists. split; [reflexivity|].
    split; [intros l _; reflexivity|].
    do 2 (split; [reflexivity|]). split; [exact Hc|].
    split; [reflexivity|]. repeat split.
  - apply dec_stable in Hr.
    destruct (adjust_rotation h config _ cfg Hr Hc) as (h' & Ea & Hfresh & Hold).
    rewrite Ea. cbn [mbind option_bind fst snd].
    unfold AxisStabilizer._apply_config. cbn [AxisStabilizer._effective_config].
    rewrite Hfresh. cbn [mbind option_bind].
    do 3 eexists. split; [reflexivity|].
    split; [intros l Hl; apply Hold, fresh_not_allocated, Hl|].
    do 2 (split; [reflexivity|]). split; [exact Hfresh|].
    split; [reflexivity|]. repeat split.
Qed.

Lemma effective_for_derived (name : string) (cfg : StabilizationConfig.t) :
  effective_for name cfg
    (if decide (name ∉ Stabilization.ROTATION_AXES) then cfg else scaled cfg).
Proof.
  split.
  - intros Hr. apply is_rotation_elem in Hr.
    destruct (decide (name ∉ Stabilization.ROTATION_AXES)) as [Hn|_];
      [contradiction|].
    repeat split.
  - intros Hp. apply is_position_not_rotation in Hp.
    destruct (decide (name ∉ Stabilization.ROTATION_AXES)) as [_|Hn];
      [reflexivity|contradiction].
Qed.

End SetConfig.

(** C5: [set_config], given the address of a configuration [cfg] of the
    caller, derives an effective configuration that, for a rotation axis
    (pitch, yaw, roll), has [spike_threshold], [slew_max_rate] and
    [jerk_max_jerk] equal to 60 times those of [cfg] and every other field
    ([deadzone_threshold] and [hysteresis_band] among them) equal to that of
    [cfg], and that for a position axis (x, y, z) is [cfg] itself; the filters
    take their thresholds from it; no object that existed before the call,
    the caller's configuration included, is changed; and a second call with
    the same configuration derives the same effective values again (60 times,
    not 3600 times) and still leaves the caller's object as it was. *)
Theorem C5_set_config_scales_once :
  forall (h : Stabilization.store) (self : AxisStabilizer.t) (config : nat)
         (cfg : StabilizationConfig.t),
    h !! config = Some cfg ->
    exists h1 s1 eff,
      AxisStabilizer.set_config h self config = Some (h1, s1) /\
      (forall l, is_Some (h !! l) -> h1 !! l = h !! l) /\
      h1 !! AxisStabilizer._effective_config s1 = Some eff /\
      effective_for (AxisStabilizer.axis_name self) cfg eff /\
      filters_follow s1 eff /\
      exists h2 s2,
        AxisStabilizer.set_config h1 s1 config = Some (h2, s2) /\
        h2 !! config = Some cfg /\
        h2 !! AxisStabilizer._effective_config s2 = Some eff /\
        filters_follow s2 eff.
Proof.
  intros h self config cfg Hc.
  destruct (set_config_effect h self config cfg Hc)
    as (h1 & s1 & eff & E1 & Hold1 & Hname & _ & Heff1 & Hval1 & Hf1).
  assert (Hc1 : h1 !! config = Some cfg).
  { rewrite Hold1; [exact Hc|]. rewrite Hc. eauto. }
  destruct (set_config_effect h1 s1 config cfg Hc1)
    as (h2 & s2 & eff2 & E2 & Hold2 & _ & _ & Heff2 & Hval2 & Hf2).
  rewrite Hname in Hval2. rewrite <- Hval1 in Hval2. subst eff2.
  exists h1, s1, eff. split; [exact E1|]. split; [exact Hold1|].
  split; [exact Heff1|]. split.
  { rewrite Hval1. apply effective_for_derived. }
  split; [exact Hf1|].
  exists h2, s2. split; [exact E2|]. split.
  { rewrite Hold2; [exact Hc1|]. rewrite Hc1. eauto. }
  split; [exact Heff2 | exact Hf2].
Qed.

(** The medium preset at address 0, assigned to a pitch stabilizer. *)
Lemma C5_witness :
  let h : Stabilization.store := {[ 0%nat := StabilizationConfig.medium ]} in
  h !! 0%nat = Some StabilizationConfig.medium /\
  exists h1 s1 eff,
    AxisStabilizer.set_config h
      (AxisStabilizer.mk "pitch" 0 0 (SpikeRejector.init (1 # 2))
         (OneEuroFilter.init 1 (7 # 1000) 1) (SlewRateLimiter.init 5)
         (JerkLimiter.init 20) (DeadzoneFilter.init 1)
         (HysteresisFilter.init (3 # 2))) 0 = Some (h1, s1) /\
    h1 !! AxisStabilizer._effective_config s1 = Some eff /\
    effective_for "pitch" StabilizationConfig.medium eff.
Proof.
  intros h.
  assert (Hc : h !! 0%nat = Some StabilizationConfig.medium) by reflexivity.
  split; [exact Hc|].
  destruct (C5_set_config_scales_once h
              (AxisStabilizer.mk "pitch" 0 0 (SpikeRejector.init (1 # 2))
                 (OneEuroFilter.init 1 (7 # 1000) 1) (SlewRateLimiter.init 5)
                 (JerkLimiter.init 20) (DeadzoneFilter.init 1)
                 (HysteresisFilter.init (3 # 2))) 0%nat StabilizationConfig.medium Hc)
    as (h1 & s1 & eff & E & _ & He & Hf & _).
  exists h1, s1, eff. split; [exact E|]. split; [exact He | exact Hf].
Defined.

(** ** Ramer-Douglas-Peucker reduction *)

Section RdpFacts.
Import Rdp.
Variable pow_half : Q -> Q.

Lemma fdiv_nonzero (a b : Q) : ~ (b == 0)%Q -> Py.fdiv a b = Some (a / b)%Q.
Proof.
  intros H. unfold Py.fdiv.
  destruct (Qeq_bool b 0) eqn:E; [|reflexivity].
  apply Qeq_bool_iff in E. contradiction.
Qed.







Lemma head_drop_lookup {A} (l : list A) (i : nat) : head (drop i l) = l !! i.
Proof.
  revert i. induction l as [|a l IH]; intros [|i]; simpl; auto.
Qed.




End RdpFacts.

(** The example is a ramp followed by a plateau: the corner is kept and the
    two points that lie on the segments are dropped. *)
Example rdp_example_reduced :
  Rdp._rdp Rdp.sqrt_approx 5 rdp_example (3 # 2)
  = Some [(0, 10); (200, 50); (400, 50)].
Proof. vm_compute. reflexivity. Qed.



(** ** Recording buffer *)

Section AddSample.
Import Funscript Recorder.
Variables (vt : Z) (mp : gmap string Z).

Lemma agree_refl (a : string) (s : Recorder.t) : agree a s s.
Proof. repeat split. Qed.

Lemma agree_trans (a : string) (s1 s2 s3 : Recorder.t) :
  agree a s1 s2 -> agree a s2 s3 -> agree a s1 s3.
Proof.
  intros (A1 & A2 & A3) (B1 & B2 & B3).
  repeat split; etransitivity; eassumption.
Qed.

Lemma step_other (s : Recorder.t) (a b : string) :
  a <> b -> agree a (add_sample_axis vt mp s b) s.
Proof.
  intros Hne. unfold add_sample_axis.
  destruct (mp !! controller_axis b); [|apply agree_refl].
  destruct (_ && _); [apply agree_refl|].
  unfold agree. cbn [_buffer _last_sample_time min_interval_ms].
  rewrite !lookup_insert_ne by congruence. repeat split.
Qed.

Lemma step_same (s s' : Recorder.t) (a : string) :
  agree a s s' ->
  agree a (add_sample_axis vt mp s a) (add_sample_axis vt mp s' a).
Proof.
  intros (A1 & A2 & A3). unfold add_sample_axis.
  destruct (mp !! controller_axis a); [|repeat split; assumption].
  rewrite A2, A3.
  destruct (_ && _); [repeat split; assumption|].
  unfold agree. cbn [_buffer _last_sample_time min_interval_ms].
  rewrite !lookup_insert_eq, A1. repeat split; assumption.
Qed.

Lemma fold_agree (l : list string) :
  NoDup l ->
  forall (s : Recorder.t) (a : string),
    agree a (fold_left (add_sample_axis vt mp) l s)
      (if decide (a ∈ l) then add_sample_axis vt mp s a else s).
Proof.
  induction l as [|b l IH]; intros Hnd s a.
  - simpl. destruct (decide (a ∈ [])) as [Hin|_]; [|apply agree_refl].
    apply elem_of_nil in Hin. contradiction.
  - apply NoDup_cons in Hnd. destruct Hnd as [Hb Hnd].
    simpl. specialize (IH Hnd (add_sample_axis vt mp s b) a).
    destruct (decide (a = b)) as [->|Hne].
    + destruct (decide (b ∈ l)) as [Hin|_]; [contradiction|].
      destruct (decide (b ∈ b :: l)) as [_|Hn]; [exact IH|].
      exfalso. apply Hn, list_elem_of_here.
    + destruct (decide (a ∈ l)) as [Hin|Hnin].
      * destruct (decide (a ∈ b :: l)) as [_|Hn].
        -- eapply agree_trans; [exact IH|]. apply step_same, step_other, Hne.
        -- exfalso. apply Hn, list_elem_of_further, Hin.
      * destruct (decide (a ∈ b :: l)) as [Hin'|_].
        -- apply elem_of_cons in Hin'. destruct Hin' as [E|Hin']; contradiction.
        -- eapply agree_trans; [exact IH|]. apply step_other, Hne.
Qed.

Lemma add_sample_agree (s : Recorder.t) (a : string) :
  is_recording s = true ->
  agree a (add_sample s vt mp)
    (if decide (a ∈ active_axes s) then add_sample_axis vt mp s a else s).
Proof.
  intros Hr. unfold add_sample. rewrite Hr. cbn [negb].
  pose proof (fold_agree (elements (active_axes s))
                (NoDup_elements (active_axes s)) s a) as H.
  destruct (decide (a ∈ elements (active_axes s))) as [Hin|Hnin];
    destruct (decide (a ∈ active_axes s)) as [Hin'|Hnin']; try exact H.
  - apply elem_of_elements in Hin. contradiction.
  - apply elem_of_elements in Hin'. contradiction.
Qed.

End AddSample.

(** C10, as stated, fails: recording is active and "stroke" is an active
    axis, but the sample carries no value for its controller axis "y";
    nothing is appended for "stroke". *)
Lemma C10_counterexample :
  Recorder.is_recording recorder_started = true /\
  "stroke" ∈ Recorder.active_axes recorder_started /\
  Recorder._buffer recorder_started !! "stroke" = Some [] /\
  Recorder._buffer
    (Recorder.add_sample recorder_started 0 {[ "x" := 40 ]}) !! "stroke" = Some [].
Proof.
  split; [reflexivity|]. split.
  - unfold recorder_started, Recorder.start_recording, Recorder.init. simpl.
    apply elem_of_singleton. reflexivity.
  - split; vm_compute; reflexivity.
Qed.

(** C10 (amended): the default [min_interval_ms] is 11.  When [is_recording]
    is false, [add_sample] changes nothing.  When recording is active, the
    buffer of an axis that is not active, or whose controller axis has no
    value in the sample, is unchanged; for an active axis whose controller
    axis has the value [pos], the sample is dropped (buffer and last sample
    time unchanged) when the last accepted time of the axis is not negative
    and the video time is less than [min_interval_ms] after it, and otherwise
    one action is appended to the axis's buffer, at the video time and with
    [pos] clamped to [0,100], and the video time becomes the axis's last
    accepted time. *)
Theorem C10_add_sample :
  Recorder.min_interval_ms Recorder.init = 11 /\
  forall (self : Recorder.t) (vt : Z) (mp : gmap string Z),
    (Recorder.is_recording self = false -> Recorder.add_sample self vt mp = self) /\
    (Recorder.is_recording self = true ->
     forall axis : string,
       let self' := Recorder.add_sample self vt mp in
       let last := default (-1) (Recorder._last_sample_time self !! axis) in
       (axis ∉ Recorder.active_axes self ->
        Recorder._buffer self' !! axis = Recorder._buffer self !! axis) /\
       (axis ∈ Recorder.active_axes self ->
        mp !! Recorder.controller_axis axis = None ->
        Recorder._buffer self' !! axis = Recorder._buffer self !! axis) /\
       (axis ∈ Recorder.active_axes self ->
        forall pos : Z,
          mp !! Recorder.controller_axis axis = Some pos ->
          (0 <= last /\ vt - last < Recorder.min_interval_ms self ->
           Recorder._buffer self' !! axis = Recorder._buffer self !! axis /\
           Recorder._last_sample_time self' !! axis
             = Recorder._last_sample_time self !! axis) /\
          (~ (0 <= last /\ vt - last < Recorder.min_interval_ms self) ->
           Recorder._buffer self' !! axis
             = Some (default [] (Recorder._buffer self !! axis)
                       ++ [Funscript.mkAction vt (Z.max 0 (Z.min 100 pos))]) /\
           0 <= Z.max 0 (Z.min 100 pos) <= 100 /\
           Recorder._last_sample_time self' !! axis = Some vt))).
Proof.
  split; [reflexivity|]. intros self vt mp. split.
  - intros Hr. unfold Recorder.add_sample. rewrite Hr. reflexivity.
  - intros Hr axis self' last.
    pose proof (add_sample_agree vt mp self axis Hr) as Hag.
    fold self' in Hag.
    destruct (decide (axis ∈ Recorder.active_axes self)) as [Hin|Hnin].
    + destruct Hag as (Hb & Hl & _).
      unfold Recorder.add_sample_axis in Hb, Hl.
      split; [intros Hn; contradiction|]. split.
      * intros _ Hnone. rewrite Hnone in Hb. exact Hb.
      * intros _ pos Hpos. rewrite Hpos in Hb, Hl. fold last in Hb, Hl.
        split.
        -- intros [H0 H1].
           assert (C : (0 <=? last) && (vt - last <? Recorder.min_interval_ms self) = true).
           { apply andb_true_iff. split; [apply Z.leb_le|apply Z.ltb_lt]; lia. }
           rewrite C in Hb, Hl. split; assumption.
        -- intros Hn.
           assert (C : (0 <=? last) && (vt - last <? Recorder.min_interval_ms self) = false).
           { apply andb_false_iff.
             destruct (Z.leb_spec 0 last); [|left; reflexivity].
             destruct (Z.ltb_spec (vt - last) (Recorder.min_interval_ms self));
               [|right; reflexivity].
             exfalso. apply Hn. split; assumption. }
           rewrite C in Hb, Hl.
           cbn [Recorder._buffer Recorder._last_sample_time] in Hb, Hl.
           rewrite lookup_insert_eq in Hb. rewrite lookup_insert_eq in Hl.
           split; [exact Hb|]. split; [lia|exact Hl].
    + destruct Hag as (Hb & _).
      split; [intros _; exact Hb|].
      split; [intros Hin; contradiction|intros Hin; contradiction].
Qed.

(** A second sample 5 ms after the accepted one is dropped. *)
Lemma C10_witness :
  Recorder.is_recording recorder_one_sample = true /\
  "stroke" ∈ Recorder.active_axes recorder_one_sample /\
  ({[ "y" := 40 ]} : gmap string Z) !! Recorder.controller_axis "stroke" = Some 40 /\
  (0 <= 100 /\ 105 - 100 < Recorder.min_interval_ms recorder_one_sample) /\
  Recorder._buffer (Recorder.add_sample recorder_one_sample 105 {[ "y" := 40 ]})
    !! "stroke" = Recorder._buffer recorder_one_sample !! "stroke".
Proof.
  assert (Hr : Recorder.is_recording recorder_one_sample = true) by reflexivity.
  assert (Hin : "stroke" ∈ Recorder.active_axes recorder_one_sample)
    by (vm_compute; reflexivity).
  assert (Hpos : ({[ "y" := 40 ]} : gmap string Z)
                   !! Recorder.controller_axis "stroke" = Some 40)
    by (vm_compute; reflexivity).
  assert (Hlast : default (-1)
                    (Recorder._last_sample_time recorder_one_sample !! "stroke") = 100)
    by (vm_compute; reflexivity).
  assert (Hint : Recorder.min_interval_ms recorder_one_sample = 11)
    by (vm_compute; reflexivity).
  assert (Hsoon : 0 <= 100 /\ 105 - 100 < Recorder.min_interval_ms recorder_one_sample)
    by (rewrite Hint; lia).
  refine (conj Hr (conj Hin (conj Hpos (conj Hsoon _)))).
  pose proof (proj2 (proj2 (proj2 (proj2 C10_add_sample recorder_one_sample 105
                                     {[ "y" := 40 ]}) Hr "stroke")) Hin 40 Hpos) as H.
  cbv zeta in H. rewrite Hlast in H.
  exact (proj1 (proj1 H Hsoon)).
Defined.

(** ** Tempo from inter-onset intervals *)

Section Ioi.
Import BeatDetection.

Lemma intervals_cons (a b : Z) (l : list Z) :
  intervals (a :: b :: l)
  = if (150 <? b - a) && (b - a <? 2000)
    then (b - a) :: intervals (b :: l) else intervals (b :: l).
Proof. reflexivity. Qed.

Lemma gaps_cons (a b : Z) (l : list Z) :
  gaps (a :: b :: l) = (b - a) :: gaps (b :: l).
Proof. reflexivity. Qed.

Lemma intervals_filter (onsets_ms : list Z) :
  intervals onsets_ms
  = List.filter (fun g => (150 <? g) && (g <? 2000)) (gaps onsets_ms).
Proof.
  induction onsets_ms as [|a l IH]; [reflexivity|].
  destruct l as [|b l']; [reflexivity|].
  rewrite intervals_cons, gaps_cons. cbn [List.filter].
  destruct ((150 <? b - a) && (b - a <? 2000)); rewrite IH; reflexivity.
Qed.

Lemma intervals_valid (onsets_ms : list Z) :
  Forall valid_gap (intervals onsets_ms).
Proof.
  rewrite intervals_filter. apply Forall_forall. intros g Hg.
  apply list_elem_of_In, filter_In in Hg. destruct Hg as [_ Hg].
  apply andb_true_iff in Hg. destruct Hg as [H1 H2].
  apply Z.ltb_lt in H1. apply Z.ltb_lt in H2. split; assumption.
Qed.

Lemma insert_sorted_Forall (P : Z -> Prop) (x : Z) (l : list Z) :
  P x -> Forall P l -> Forall P (insert_sorted x l).
Proof.
  intros Hx Hl. induction Hl as [|y l Hy Hl IH]; simpl.
  - constructor; [assumption|constructor].
  - destruct (x <=? y); repeat constructor; assumption.
Qed.

Lemma sorted_Forall (P : Z -> Prop) (l : list Z) :
  Forall P l -> Forall P (sorted l).
Proof.
  intros Hl. induction Hl as [|x l Hx Hl IH]; simpl; [constructor|].
  apply insert_sorted_Forall; assumption.
Qed.

Lemma insert_sorted_length (x : Z) (l : list Z) :
  length (insert_sorted x l) = S (length l).
Proof.
  induction l as [|y l IH]; simpl; [reflexivity|].
  destruct (x <=? y); simpl; [reflexivity|]. rewrite IH. reflexivity.
Qed.

Lemma sorted_length (l : list Z) : length (sorted l) = length l.
Proof.
  induction l as [|x l IH]; simpl; [reflexivity|].
  rewrite insert_sorted_length, IH. reflexivity.
Qed.

Lemma nth_valid (l : list Z) (i : nat) :
  Forall valid_gap l -> (i < length l)%nat -> valid_gap (nth i l 0).
Proof.
  intros Hl Hi. apply Forall_forall with (x := nth i l 0) in Hl; [exact Hl|].
  apply list_elem_of_In, nth_In, Hi.
Qed.

Lemma median_valid (l : list Z) :
  Forall valid_gap l -> (0 < length l)%nat ->
  (150 < median l)%Q /\ (median l < 2000)%Q.
Proof.
  intros Hl Hn. unfold median.
  pose proof (sorted_Forall _ _ Hl) as Hs.
  pose proof (sorted_length l) as Hlen.
  set (s := sorted l) in *. set (n := length s) in *.
  assert (Hhalf : (n / 2 < n)%nat) by (apply Nat.div_lt; lia).
  assert (Hlo : valid_gap (nth (n / 2 - 1) s 0)) by (apply nth_valid; [assumption|lia]).
  assert (Hhi : valid_gap (nth (n / 2) s 0)) by (apply nth_valid; [assumption|lia]).
  destruct Hlo as [L1 L2]. destruct Hhi as [H1 H2].
  set (lo := nth (n / 2 - 1) s 0) in *. set (hi := nth (n / 2) s 0) in *.
  destruct (Nat.even n).
  - assert (A : (inject_Z (150 + 150) < inject_Z (lo + hi))%Q)
      by (rewrite <- Zlt_Qlt; lia).
    assert (B : (inject_Z (lo + hi) < inject_Z (2000 + 2000))%Q)
      by (rewrite <- Zlt_Qlt; lia).
    change (inject_Z (150 + 150)) with 300%Q in A.
    change (inject_Z (2000 + 2000)) with 4000%Q in B.
    generalize dependent (inject_Z (lo + hi)). intros q A B.
    split.
    + apply Qlt_shift_div_l; [reflexivity|lra].
    + apply Qlt_shift_div_r; [reflexivity|lra].
  - assert (A : (inject_Z 150 < inject_Z hi)%Q) by (rewrite <- Zlt_Qlt; lia).
    assert (B : (inject_Z hi < inject_Z 2000)%Q) by (rewrite <- Zlt_Qlt; lia).
    split; assumption.
Qed.

Lemma Qeq_of_eq (a b : Q) : a = b -> (a == b)%Q.
Proof. intros ->. reflexivity. Qed.

Lemma halve_while_once (fuel : nat) (b : Q) :
  (1 <= fuel)%nat -> (30 < b)%Q -> (b < 400)%Q ->
  exists r, halve_while fuel b = Some r /\ (30 < r)%Q /\ (r <= 200)%Q /\
            (r = b \/ r = (b / 2)%Q).
Proof.
  intros Hf H1 H2. destruct fuel as [|fuel]; [lia|].
  assert (Hhalf : (b / 2 == b * (1 # 2))%Q) by (unfold Qdiv; reflexivity).
  cbn [halve_while].
  destruct (Py.Qltb 200 b) eqn:E.
  - apply Qltb_lt in E.
    assert (C : Qle_bool 40 (b / 2) = true) by (apply Qle_bool_iff; lra).
    rewrite C. cbn [andb].
    assert (E2 : Py.Qltb 200 (b / 2) = false) by (apply Qltb_ge; lra).
    destruct fuel; cbn [halve_while]; rewrite E2; cbn [andb];
      (eexists; split; [reflexivity|]; repeat split; try lra; right; reflexivity).
  - apply Qltb_ge in E. cbn [andb].
    eexists. split; [reflexivity|]. repeat split; try lra. left; reflexivity.
Qed.

Lemma double_while_once (fuel : nat) (b : Q) :
  (1 <= fuel)%nat -> (30 < b)%Q -> (b <= 200)%Q ->
  exists r, double_while fuel b = Some r /\ (50 <= r)%Q /\ (r <= 200)%Q /\
            (r = b \/ r = (b * 2)%Q).
Proof.
  intros Hf H1 H2. destruct fuel as [|fuel]; [lia|].
  cbn [double_while].
  destruct (Py.Qltb b 50) eqn:E.
  - apply Qltb_lt in E.
    assert (C : Qle_bool (b * 2) 200 = true) by (apply Qle_bool_iff; lra).
    rewrite C. cbn [andb].
    assert (E2 : Py.Qltb (b * 2) 50 = false) by (apply Qltb_ge; lra).
    destruct fuel; cbn [double_while]; rewrite E2; cbn [andb];
      (eexists; split; [reflexivity|]; repeat split; try lra; right; reflexivity).
  - apply Qltb_ge in E. cbn [andb].
    eexists. split; [reflexivity|]. repeat split; try lra. left; reflexivity.
Qed.

Lemma estimate_from_ioi_result (fuel : nat) (onsets_ms : list Z) :
  (1 <= fuel)%nat ->
  exists r,
    _estimate_tempo_from_ioi fuel onsets_ms = Some r /\
    ((length onsets_ms < 4 \/ length (intervals onsets_ms) < 3)%nat -> r = 0%Q) /\
    ((4 <= length onsets_ms)%nat -> (3 <= length (intervals onsets_ms))%nat ->
     folded_tempo (median (intervals onsets_ms)) r /\ (50 <= r)%Q /\ (r <= 200)%Q).
Proof.
  intros Hf. unfold _estimate_tempo_from_ioi.
  destruct (Nat.ltb_spec (length onsets_ms) 4) as [H4|H4].
  { exists 0%Q. split; [reflexivity|]. split; [reflexivity|]. intros; lia. }
  destruct (Nat.ltb_spec (length (intervals onsets_ms)) 3) as [H3|H3].
  { exists 0%Q. split; [reflexivity|]. split; [reflexivity|]. intros; lia. }
  destruct (median_valid (intervals onsets_ms) (intervals_valid onsets_ms) ltac:(lia))
    as [M1 M2].
  set (m := median (intervals onsets_ms)) in *.
  assert (Hpos : Qle_bool m 0 = false) by (apply Qle_bool_false; lra).
  rewrite Hpos. rewrite fdiv_nonzero by lra. cbn [mbind option_bind].
  assert (B1 : (30 < 60000 / m)%Q) by (apply Qlt_shift_div_l; lra).
  assert (B2 : (60000 / m < 400)%Q) by (apply Qlt_shift_div_r; lra).
  destruct (halve_while_once fuel _ Hf B1 B2) as (h & Eh & Hh1 & Hh2 & Hh).
  rewrite Eh. cbn [mbind option_bind].
  destruct (double_while_once fuel h Hf Hh1 Hh2) as (r & Er & Hr1 & Hr2 & Hr).
  exists r. split; [exact Er|]. split; [intros [?|?]; lia|].
  intros _ _. split; [|split; assumption].
  unfold folded_tempo. destruct Hr as [-> | ->].
  - destruct Hh as [-> | ->]; [left|right; left]; reflexivity.
  - destruct Hh as [-> | ->]; [right; right; reflexivity|].
    exfalso.
    assert (Hhalf : (60000 / m / 2 == 60000 / m * (1 # 2))%Q)
      by (unfold Qdiv; reflexivity).
    apply Qle_lt_or_eq in Hh2.
    destruct (Qlt_le_dec 200 (60000 / m)) as [L|L].
    + (* halved: the halved value is above 100, so no doubling happened *)
      assert (Hd : double_while fuel (60000 / m / 2) = Some (60000 / m / 2)%Q).
      { destruct fuel; cbn [double_while];
          assert (E : Py.Qltb (60000 / m / 2) 50 = false) by (apply Qltb_ge; lra);
          rewrite E; reflexivity. }
      rewrite Hd in Er. apply (inj Some), Qeq_of_eq in Er. lra.
    + (* not above 200: the loop did not halve *)
      assert (Hn : halve_while fuel (60000 / m) = Some (60000 / m)%Q).
      { destruct fuel; cbn [halve_while];
          assert (E : Py.Qltb 200 (60000 / m) = false) by (apply Qltb_ge; lra);
          rewrite E; reflexivity. }
      rewrite Hn in Eh. apply (inj Some), Qeq_of_eq in Eh. lra.
Qed.

End Ioi.

Lemma max2_floor (lo x : Q) :
  (lo <= Py.max2 lo x)%Q /\
  ((lo <= x)%Q -> (Py.max2 lo x == x)%Q) /\
  ((x <= lo)%Q -> (Py.max2 lo x == lo)%Q).
Proof.
  unfold Py.max2. destruct (Py.Qltb lo x) eqn:E.
  - apply Qltb_lt in E. repeat split; intros; lra.
  - apply Qltb_ge in E. repeat split; intros; lra.
Qed.

Lemma step5b_result (fuel : nat) (bpm conf ioi : Q) (onsets_ms : list Z) :
  (4 <= length onsets_ms)%nat ->
  BeatDetection._estimate_tempo_from_ioi fuel onsets_ms = Some ioi ->
  (0 < ioi)%Q ->
  BeatDetection.detect_beats_step5b fuel bpm conf onsets_ms
  = if Py.Qltb (18 # 10) (bpm / ioi) || Py.Qltb (bpm / ioi) (55 # 100)
    then Some (ioi, Py.max2 (1 # 10) (conf * (1 # 2)))
    else Some (bpm, conf).
Proof.
  intros Hlen He Hpos. unfold BeatDetection.detect_beats_step5b.
  destruct (Nat.eqb_spec (length onsets_ms) 0) as [E0|_]; [lia|].
  destruct (Nat.leb_spec 4 (length onsets_ms)) as [_|Hc]; [|lia].
  cbn [negb andb]. rewrite He. cbn [mbind option_bind].
  assert (P : Py.Qltb 0 ioi = true) by (apply Qltb_lt; exact Hpos).
  rewrite P. rewrite fdiv_nonzero by lra. cbn [mbind option_bind].
  reflexivity.
Qed.

(** C2, as stated, fails: the inter-onset estimate is 120 BPM and the ratio
    66.5 / 120 = 0.554 is below 1/1.8 = 0.5556, so the claim has the reported
    tempo become 120 and the confidence 0.4; the code compares with 0.55 and
    keeps the tempo 66.5 and the confidence 0.8. *)
Lemma C2_counterexample :
  (4 <= length onsets_500)%nat /\
  (exists ioi, BeatDetection._estimate_tempo_from_ioi 1 onsets_500 = Some ioi /\
               (ioi == 120)%Q) /\
  ((133 # 2) / 120 < 1 / (18 # 10))%Q /\
  BeatDetection.detect_beats_step5b 1 (133 # 2) (8 # 10) onsets_500
    = Some (133 # 2, 8 # 10).
Proof.
  split; [simpl; lia|]. split.
  - eexists. split; reflexivity.
  - split; reflexivity.
Qed.

(** C2 (amended): [_estimate_tempo_from_ioi] keeps exactly the consecutive
    onset gaps strictly inside (150 ms, 2000 ms); it returns 0 when there are
    fewer than 4 onsets or fewer than 3 such gaps, and otherwise 60000 divided
    by the median of the gaps, halved or doubled so that it lies in [50,200];
    so every nonzero value it returns lies in [50,200].  In [detect_beats],
    whenever at least 4 onsets exist and the IOI estimate is positive: if the
    autocorrelation BPM divided by the IOI BPM is greater than 1.8 or less
    than 0.55, the reported BPM becomes the IOI estimate and the reported
    confidence becomes the larger of 0.1 and half the confidence; otherwise
    both are kept. *)
Theorem C2_ioi_cross_validation :
  forall (fuel : nat) (onsets_ms : list Z),
    (1 <= fuel)%nat ->
    BeatDetection.intervals onsets_ms
      = List.filter (fun g => (150 <? g) && (g <? 2000)) (gaps onsets_ms) /\
    exists ioi,
      BeatDetection._estimate_tempo_from_ioi fuel onsets_ms = Some ioi /\
      ((length onsets_ms < 4 \/
        length (BeatDetection.intervals onsets_ms) < 3)%nat -> ioi = 0%Q) /\
      ((4 <= length onsets_ms)%nat ->
       (3 <= length (BeatDetection.intervals onsets_ms))%nat ->
       folded_tempo (BeatDetection.median (BeatDetection.intervals onsets_ms)) ioi) /\
      (~ (ioi == 0)%Q -> (50 <= ioi)%Q /\ (ioi <= 200)%Q) /\
      forall bpm conf : Q,
        (4 <= length onsets_ms)%nat -> (0 < ioi)%Q ->
        ((18 # 10 < bpm / ioi)%Q \/ (bpm / ioi < 55 # 100)%Q ->
         exists conf',
           BeatDetection.detect_beats_step5b fuel bpm conf onsets_ms
             = Some (ioi, conf') /\
           (1 # 10 <= conf')%Q /\
           ((1 # 10 <= conf * (1 # 2))%Q -> (conf' == conf * (1 # 2))%Q) /\
           ((conf * (1 # 2) <= 1 # 10)%Q -> (conf' == 1 # 10)%Q)) /\
        (~ ((18 # 10 < bpm / ioi)%Q \/ (bpm / ioi < 55 # 100)%Q) ->
         BeatDetection.detect_beats_step5b fuel bpm conf onsets_ms
           = Some (bpm, conf)).
Proof.
  intros fuel onsets_ms Hf. split; [apply intervals_filter|].
  destruct (estimate_from_ioi_result fuel onsets_ms Hf) as (ioi & He & Hz & Hr).
  exists ioi. split; [exact He|]. split; [exact Hz|].
  split; [intros H4 H3; exact (proj1 (Hr H4 H3))|]. split.
  - intros Hnz.
    destruct (Nat.ltb_spec (length onsets_ms) 4) as [H4|H4].
    { exfalso. apply Hnz. rewrite Hz; [reflexivity|left; exact H4]. }
    destruct (Nat.ltb_spec (length (BeatDetection.intervals onsets_ms)) 3) as [H3|H3].
    { exfalso. apply Hnz. rewrite Hz; [reflexivity|right; exact H3]. }
    exact (proj2 (Hr H4 H3)).
  - intros bpm conf H4 Hpos.
    rewrite (step5b_result fuel bpm conf ioi onsets_ms H4 He Hpos).
    split.
    + intros Hd.
      assert (C : Py.Qltb (18 # 10) (bpm / ioi) || Py.Qltb (bpm / ioi) (55 # 100) = true).
      { apply orb_true_iff. destruct Hd as [Hd|Hd]; [left|right]; apply Qltb_lt, Hd. }
      rewrite C. eexists. split; [reflexivity|].
      apply max2_floor.
    + intros Hn.
      assert (C : Py.Qltb (18 # 10) (bpm / ioi) || Py.Qltb (bpm / ioi) (55 # 100) = false).
      { apply orb_false_iff. split; apply Qltb_ge; apply Qnot_lt_le; intros L;
          apply Hn; [left|right]; exact L. }
      rewrite C. reflexivity.
Qed.

Lemma C2_witness :
  (1 <= 1)%nat /\
  exists ioi,
    BeatDetection._estimate_tempo_from_ioi 1 onsets_500 = Some ioi /\
    (~ (ioi == 0)%Q -> (50 <= ioi)%Q /\ (ioi <= 200)%Q).
Proof.
  split; [lia|].
  destruct (proj2 (C2_ioi_cross_validation 1 onsets_500 (le_n 1)))
    as (ioi & He & _ & _ & Hrange & _).
  exists ioi. split; [exact He | exact Hrange].
Defined.

(** ** Tempo from the autocorrelation *)

Section Tempo.
Import BeatDetection.

Lemma slice_length (l : list Q) (a b : Z) :
  length (slice l a b)
  = Nat.min (Z.to_nat b - Z.to_nat a) (length l - Z.to_nat a).
Proof. unfold slice. rewrite length_take, length_drop. reflexivity. Qed.

Lemma slice_lookup (l : list Q) (a b : Z) (k : nat) :
  (k < length (slice l a b))%nat ->
  slice l a b !! k = l !! (Z.to_nat a + k)%nat.
Proof.
  intros Hk. rewrite slice_length in Hk. unfold slice.
  rewrite lookup_take_lt by lia. apply lookup_drop.
Qed.

Lemma np_max_total (l : list Q) :
  (0 < length l)%nat -> exists m, np_max l = Some m.
Proof. destruct l; simpl; [lia|eauto]. Qed.

Lemma fold_max_spec (l : list Q) :
  forall x : Q,
    let m := fold_left (fun m y => if Py.Qltb m y then y else m) l x in
    (m = x \/ m ∈ l) /\ (x <= m)%Q /\ Forall (fun y => (y <= m)%Q) l.
Proof.
  induction l as [|y l IH]; intros x; cbn [fold_left].
  - split; [left; reflexivity|]. split; [lra|constructor].
  - specialize (IH (if Py.Qltb x y then y else x)).
    cbv zeta in IH. destruct IH as (Hin & Hle & Hall).
    destruct (Py.Qltb x y) eqn:E.
    + apply Qltb_lt in E. split.
      * right. destruct Hin as [-> | Hin];
          [apply list_elem_of_here | apply list_elem_of_further, Hin].
      * split; [lra|]. constructor; assumption.
    + apply Qltb_ge in E. split.
      * destruct Hin as [Hin | Hin];
          [left; exact Hin | right; apply list_elem_of_further, Hin].
      * split; [assumption|]. constructor; [lra|assumption].
Qed.

(** [np_max] returns an element of the array that bounds all of them. *)
Lemma np_max_spec (l : list Q) (m : Q) :
  np_max l = Some m -> m ∈ l /\ Forall (fun y => (y <= m)%Q) l.
Proof.
  destruct l as [|x l]; [discriminate|]. cbn [np_max]. intros E.
  apply (inj Some) in E. subst m.
  destruct (fold_max_spec l x) as (Hin & Hle & Hall). split.
  - destruct Hin as [-> | Hin];
      [apply list_elem_of_here | apply list_elem_of_further, Hin].
  - constructor; assumption.
Qed.

Lemma argmax_from_spec (L : list Q) (l : list Q) :
  forall (i bi : nat) (b : Q),
    drop i L = l -> L !! bi = Some b ->
    (forall j w, (j < i)%nat -> L !! j = Some w -> (w <= b)%Q) ->
    exists v,
      L !! argmax_from l i bi b = Some v /\
      forall j w, L !! j = Some w -> (w <= v)%Q.
Proof.
  induction l as [|y l IH]; intros i bi b Hd Hb Hmax.
  - exists b. split; [exact Hb|]. intros j w Hj. apply (Hmax j w); [|exact Hj].
    apply lookup_lt_Some in Hj.
    assert (L0 : length (drop i L) = 0%nat) by (rewrite Hd; reflexivity).
    rewrite length_drop in L0. lia.
  - assert (Hi : L !! i = Some y).
    { rewrite <- head_drop_lookup, Hd. reflexivity. }
    assert (Hd' : drop (S i) L = l).
    { rewrite (drop_S L y i Hi) in Hd. inversion Hd. reflexivity. }
    cbn [argmax_from]. destruct (Py.Qltb b y) eqn:E.
    + apply Qltb_lt in E. apply IH; [exact Hd'|exact Hi|].
      intros j w Hj Hw. destruct (decide (j = i)) as [->|Hne].
      * rewrite Hi in Hw. inversion Hw. lra.
      * assert (w <= b)%Q by (apply (Hmax j w); [lia|exact Hw]). lra.
    + apply Qltb_ge in E. apply IH; [exact Hd'|exact Hb|].
      intros j w Hj Hw. destruct (decide (j = i)) as [->|Hne].
      * rewrite Hi in Hw. inversion Hw. subst w. exact E.
      * apply (Hmax j w); [lia|exact Hw].
Qed.

(** [np_argmax] returns the index of an element that bounds all of them. *)
Lemma np_argmax_spec (L : list Q) :
  (0 < length L)%nat ->
  exists i v,
    np_argmax L = Some i /\ L !! i = Some v /\
    forall j w, L !! j = Some w -> (w <= v)%Q.
Proof.
  intros Hlen. destruct L as [|x l]; [simpl in Hlen; lia|].
  cbn [np_argmax].
  destruct (argmax_from_spec (x :: l) l 1 0 x eq_refl eq_refl) as (v & Hv & Hmax).
  { intros j w Hj Hw. assert (j = 0%nat) by lia. subst j.
    inversion Hw. lra. }
  eauto.
Qed.

Lemma slice_window_nonempty (l : list Q) (c lo hi : Z) :
  0 <= c < Z.of_nat (length l) -> 0 <= lo -> 0 < hi ->
  (0 < length (slice l (Z.max 0 (c - lo)) (Z.min (Z.of_nat (length l)) (c + hi))))%nat.
Proof. intros Hc Hlo Hhi. rewrite slice_length. lia. Qed.

Lemma octave_down_cases (autocorr : list Q) (peak_idx : Z) (bpm peak_val : Q) :
  0 <= peak_idx ->
  exists bpm1 peak1,
    octave_down autocorr peak_idx bpm peak_val = Some (bpm1, peak1) /\
    ((bpm1 = bpm /\ peak1 = peak_val) \/ bpm1 = (bpm / 2)%Q).
Proof.
  intros Hp. unfold octave_down.
  destruct (Z.ltb_spec (peak_idx * 2) (Z.of_nat (length autocorr))) as [Hlt|Hge].
  2:{ do 2 eexists. split; [reflexivity|]. left. split; reflexivity. }
  destruct (np_max_total _ (slice_window_nonempty autocorr (peak_idx * 2) 3 4
                              ltac:(lia) ltac:(lia) ltac:(lia))) as [m Hm].
  rewrite Hm. cbn [mbind option_bind].
  destruct (Py.Qltb (peak_val * (8 # 10)) m).
  2:{ do 2 eexists. split; [reflexivity|]. left. split; reflexivity. }
  destruct (Qle_bool 40 (bpm / 2) && Qle_bool (bpm / 2) 200).
  - do 2 eexists. split; [reflexivity|]. right. reflexivity.
  - do 2 eexists. split; [reflexivity|]. left. split; reflexivity.
Qed.

Lemma octave_down_adopts (autocorr : list Q) (peak_idx : Z) (bpm peak_val local : Q) :
  peak_idx * 2 < Z.of_nat (length autocorr) ->
  np_max (slice autocorr (Z.max 0 (peak_idx * 2 - 3))
            (Z.min (Z.of_nat (length autocorr)) (peak_idx * 2 + 4))) = Some local ->
  (peak_val * (8 # 10) < local)%Q ->
  (40 <= bpm / 2)%Q -> (bpm / 2 <= 200)%Q ->
  octave_down autocorr peak_idx bpm peak_val = Some ((bpm / 2)%Q, local).
Proof.
  intros Hlt Hm Hgt H40 H200. unfold octave_down.
  destruct (Z.ltb_spec (peak_idx * 2) (Z.of_nat (length autocorr))) as [_|Hge]; [|lia].
  rewrite Hm. cbn [mbind option_bind].
  apply Qltb_lt in Hgt. rewrite Hgt.
  apply Qle_bool_iff in H40. apply Qle_bool_iff in H200. rewrite H40, H200.
  reflexivity.
Qed.

Lemma octave_up_cases (autocorr : list Q) (min_lag peak_idx : Z) (bpm peak_val : Q) :
  1 <= min_lag -> peak_idx < Z.of_nat (length autocorr) ->
  exists bpm2,
    octave_up autocorr min_lag peak_idx bpm peak_val = Some bpm2 /\
    (bpm2 = bpm \/ bpm2 = (bpm * 2)%Q) /\
    (peak_idx / 2 < min_lag -> bpm2 = bpm) /\
    (forall local,
        min_lag <= peak_idx / 2 ->
        np_max (slice autocorr (Z.max 0 (peak_idx / 2 - 2))
                  (Z.min (Z.of_nat (length autocorr)) (peak_idx / 2 + 3))) = Some local ->
        ((peak_val * (85 # 100) < local)%Q ->
         (40 <= bpm * 2)%Q -> (bpm * 2 <= 200)%Q -> bpm2 = (bpm * 2)%Q) /\
        ((local <= peak_val * (85 # 100))%Q -> bpm2 = bpm)).
Proof.
  intros Hmin Hp. unfold octave_up.
  destruct (Z.leb_spec min_lag (peak_idx / 2)) as [Hle|Hgt].
  2:{ eexists. split; [reflexivity|]. split; [left; reflexivity|].
      split; [reflexivity|]. intros local Hc. lia. }
  assert (Hh : 0 <= peak_idx / 2 < Z.of_nat (length autocorr)).
  { pose proof (Z.div_mod peak_idx 2 ltac:(lia)) as Hdm.
    pose proof (Z.mod_pos_bound peak_idx 2 ltac:(lia)) as Hmb. lia. }
  destruct (np_max_total _ (slice_window_nonempty autocorr (peak_idx / 2) 2 3
                              Hh ltac:(lia) ltac:(lia))) as [m Hm].
  rewrite Hm. cbn [mbind option_bind].
  destruct (Py.Qltb (peak_val * (85 # 100)) m) eqn:E.
  - apply Qltb_lt in E.
    destruct (Qle_bool 40 (bpm * 2)) eqn:E40;
      destruct (Qle_bool (bpm * 2) 200) eqn:E200; cbn [andb];
      (eexists; split; [reflexivity|]);
      (split; [first [left; reflexivity | right; reflexivity]|]);
      (split; [intros Hc; lia|]);
      intros local _ Hl; apply (inj Some) in Hl; subst local;
      (split; [intros _ A B | intros C; lra]);
      try reflexivity.
    + apply Qle_bool_iff in B. congruence.
    + apply Qle_bool_iff in A. congruence.
    + apply Qle_bool_iff in A. congruence.
  - apply Qltb_ge in E.
    eexists. split; [reflexivity|]. split; [left; reflexivity|].
    split; [reflexivity|].
    intros local _ Hl. apply (inj Some) in Hl. subst local.
    split; [intros C; lra | reflexivity].
Qed.

End Tempo.

Lemma inject_Z_nonzero (z : Z) : z <> 0 -> ~ (inject_Z z == 0)%Q.
Proof. intros Hz E. unfold Qeq in E. simpl in E. lia. Qed.

Lemma autocorr_tail_length (env : list Q) :
  length (BeatDetection.autocorr_tail env) = (length env - 1)%nat.
Proof. unfold BeatDetection.autocorr_tail. rewrite length_map, length_seq. reflexivity. Qed.

(** C3, as stated, fails: the autocorrelation peaks at index 8 with value 1
    (75 BPM); the window around half the lag (index 4) has maximum 0.85,
    which is exactly 85% of the peak, and the doubled tempo 150 lies in
    [40,200], so the claim has 150 BPM adopted; the code requires the local
    peak to exceed 85% and returns 75 BPM. *)
Lemma C3_counterexample :
  (exists peak_val,
      BeatDetection.autocorr_tail envelope_tie !! 8%nat = Some peak_val /\
      (peak_val == 1)%Q) /\
  (exists local,
      BeatDetection.np_max
        (BeatDetection.slice (BeatDetection.autocorr_tail envelope_tie)
           (Z.max 0 (8 / 2 - 2)) (Z.min 99 (8 / 2 + 3))) = Some local /\
      (local == 85 # 100)%Q /\ (1 * (85 # 100) <= local)%Q) /\
  (40 <= 75 * 2)%Q /\ (75 * 2 <= 200)%Q /\
  exists bpm conf,
    BeatDetection._estimate_tempo envelope_tie 5120 512 = Some (bpm, conf) /\
    (bpm == 75)%Q.
Proof.
  split.
  { eexists. split; [vm_compute; reflexivity|reflexivity]. }
  split.
  { eexists. split; [vm_compute; reflexivity|].
    split; [reflexivity|intro E; discriminate E]. }
  split; [intro E; discriminate E|]. split; [intro E; discriminate E|].
  eexists _, _. split; [vm_compute; reflexivity|]. reflexivity.
Qed.

(** C3 (amended): in [_estimate_tempo] (on an envelope of at least 100 frames
    with a non-empty lag window), the lag picked is one of maximal
    autocorrelation inside the window [min_lag, max_lag].  If double that lag
    is inside the array, the maximum autocorrelation within 3 samples of it
    exceeds 80% of the primary peak and the halved BPM lies within [40,200],
    the halved BPM is adopted and the reference peak value becomes that
    maximum.  Then, if half the lag (rounded down) is at least [min_lag], the
    maximum autocorrelation within 2 samples of it exceeds 85% of the
    (possibly updated) peak value and the doubled BPM lies within [40,200],
    the doubled BPM is adopted; when half the lag is below [min_lag], or that
    maximum does not exceed 85% of the peak value, the BPM is not doubled.
    The BPM is changed in no other way. *)
Theorem C3_octave_correction :
  forall (onset_env : list Q) (sr hop_size : Z),
    (100 <= length onset_env)%nat -> hop_size <> 0 ->
    let autocorr := BeatDetection.autocorr_tail onset_env in
    let len := Z.of_nat (length autocorr) in
    let fps := (inject_Z sr / inject_Z hop_size)%Q in
    let min_lag := BeatDetection.min_lag_of fps in
    let max_lag := BeatDetection.max_lag_of autocorr fps in
    min_lag < max_lag ->
    exists (peak_idx : Z) (peak_val bpm1 peak1 bpm2 conf : Q),
      BeatDetection._estimate_tempo onset_env sr hop_size = Some (bpm2, conf) /\
      min_lag <= peak_idx <= max_lag /\
      autocorr !! Z.to_nat peak_idx = Some peak_val /\
      (forall (j : Z) (v : Q),
          min_lag <= j <= max_lag -> autocorr !! Z.to_nat j = Some v ->
          (v <= peak_val)%Q) /\
      let bpm0 := (60 * fps / inject_Z peak_idx)%Q in
      (forall local : Q,
          peak_idx * 2 < len ->
          BeatDetection.np_max
            (BeatDetection.slice autocorr (Z.max 0 (peak_idx * 2 - 3))
               (Z.min len (peak_idx * 2 + 4))) = Some local ->
          (peak_val * (8 # 10) < local)%Q ->
          (40 <= bpm0 / 2)%Q -> (bpm0 / 2 <= 200)%Q ->
          bpm1 = (bpm0 / 2)%Q /\ peak1 = local) /\
      ((bpm1 = bpm0 /\ peak1 = peak_val) \/ bpm1 = (bpm0 / 2)%Q) /\
      (forall local : Q,
          min_lag <= peak_idx / 2 ->
          BeatDetection.np_max
            (BeatDetection.slice autocorr (Z.max 0 (peak_idx / 2 - 2))
               (Z.min len (peak_idx / 2 + 3))) = Some local ->
          ((peak1 * (85 # 100) < local)%Q ->
           (40 <= bpm1 * 2)%Q -> (bpm1 * 2 <= 200)%Q -> bpm2 = (bpm1 * 2)%Q) /\
          ((local <= peak1 * (85 # 100))%Q -> bpm2 = bpm1)) /\
      (peak_idx / 2 < min_lag -> bpm2 = bpm1) /\
      (bpm2 = bpm1 \/ bpm2 = (bpm1 * 2)%Q).
Proof.
  intros onset_env sr hop_size Hn Hhop autocorr len fps min_lag max_lag Hlag.
  assert (Hlen : length autocorr = (length onset_env - 1)%nat)
    by apply autocorr_tail_length.
  assert (Hmin : 1 <= min_lag) by (unfold min_lag, BeatDetection.min_lag_of; lia).
  assert (Hmax : max_lag <= len - 1)
    by (unfold max_lag, BeatDetection.max_lag_of, len; lia).
  set (search := BeatDetection.slice autocorr min_lag (max_lag + 1)).
  assert (Hslen : length search = Z.to_nat (max_lag + 1 - min_lag)).
  { unfold search. rewrite slice_length. lia. }
  destruct (np_argmax_spec search ltac:(lia)) as (i & v & Harg & Hv & Hvmax).
  assert (Hi : (i < length search)%nat) by (apply lookup_lt_Some in Hv; exact Hv).
  set (peak_idx := Z.of_nat i + min_lag).
  assert (Hpv : autocorr !! Z.to_nat peak_idx = Some v).
  { rewrite <- Hv. unfold search. rewrite slice_lookup by exact Hi.
    f_equal. unfold peak_idx. lia. }
  assert (Hpi : min_lag <= peak_idx <= max_lag) by (unfold peak_idx; lia).
  set (bpm0 := (60 * fps / inject_Z peak_idx)%Q).
  destruct (octave_down_cases autocorr peak_idx bpm0 v ltac:(lia))
    as (bpm1 & peak1 & Edown & Hdown).
  destruct (octave_up_cases autocorr min_lag peak_idx bpm1 peak1 Hmin ltac:(fold len; lia))
    as (bpm2 & Eup & Hup_cases & Hup_guard & Hup).
  destruct (lookup_lt_is_Some_2 autocorr 0 ltac:(lia)) as [first Hfirst].
  exists peak_idx, v, bpm1, peak1, bpm2, (BeatDetection.confidence_of peak1 first).
  split.
  { unfold BeatDetection._estimate_tempo.
    destruct (Nat.ltb_spec (length onset_env) 100) as [Hc|_]; [lia|].
    rewrite (fdiv_nonzero _ _ (inject_Z_nonzero hop_size Hhop)).
    cbn [mbind option_bind]. fold autocorr fps. fold min_lag max_lag.
    destruct (Z.leb_spec max_lag min_lag) as [Hc|_]; [lia|].
    fold search.
    destruct (Nat.eqb_spec (length search) 0) as [Hc|_]; [lia|].
    rewrite Harg. cbn [mbind option_bind]. fold peak_idx. rewrite Hpv.
    cbn [mbind option_bind].
    rewrite (fdiv_nonzero _ _ (inject_Z_nonzero peak_idx ltac:(lia))).
    cbn [mbind option_bind]. fold bpm0. rewrite Edown.
    cbn [mbind option_bind fst snd]. rewrite Eup.
    cbn [mbind option_bind]. rewrite Hfirst. reflexivity. }
  split; [exact Hpi|]. split; [exact Hpv|]. split.
  { intros j w Hj Hw.
    apply (Hvmax (Z.to_nat (j - min_lag)) w).
    unfold search. rewrite slice_lookup by (fold search; lia).
    rewrite <- Hw. f_equal. lia. }
  cbv zeta. fold bpm0. split.
  { intros local Hlt Hm Hgt H40 H200.
    rewrite (octave_down_adopts autocorr peak_idx bpm0 v local Hlt Hm Hgt H40 H200)
      in Edown.
    inversion Edown. split; reflexivity. }
  split; [exact Hdown|]. split; [exact Hup|]. split; [exact Hup_guard|exact Hup_cases].
Qed.

Lemma C3_witness :
  (100 <= length envelope_tie)%nat /\ 512 <> 0 /\
  BeatDetection.min_lag_of (inject_Z 5120 / inject_Z 512)
  < BeatDetection.max_lag_of (BeatDetection.autocorr_tail envelope_tie)
      (inject_Z 5120 / inject_Z 512) /\
  exists bpm conf,
    BeatDetection._estimate_tempo envelope_tie 5120 512 = Some (bpm, conf).
Proof.
  assert (Hn : (100 <= length envelope_tie)%nat) by (vm_compute; lia).
  assert (Hh : 512 <> 0) by lia.
  assert (Hl : BeatDetection.min_lag_of (inject_Z 5120 / inject_Z 512)
               < BeatDetection.max_lag_of (BeatDetection.autocorr_tail envelope_tie)
                   (inject_Z 5120 / inject_Z 512)) by (vm_compute; reflexivity).
  refine (conj Hn (conj Hh (conj Hl _))).
  destruct (C3_octave_correction envelope_tie 5120 512 Hn Hh Hl)
    as (p & pv & b1 & p1 & b2 & c & E & _).
  exists b2, c. exact E.
Defined.

(** ** Sorting and removal of duplicates *)

Section SortDedup.
Import Funscript.

Lemma insert_by_at_perm (a : FunscriptAction) (l : list FunscriptAction) :
  insert_by_at a l ≡ₚ a :: l.
Proof.
  induction l as [|b l IH]; simpl; [reflexivity|].
  destruct (at_ a <=? at_ b); [reflexivity|].
  rewrite IH. apply Permutation_swap.
Qed.

Lemma sort_actions_perm (l : list FunscriptAction) : sort_actions l ≡ₚ l.
Proof.
  induction l as [|a l IH]; simpl; [reflexivity|].
  rewrite insert_by_at_perm, IH. reflexivity.
Qed.

Lemma insert_by_at_ascending (a : FunscriptAction) (l : list FunscriptAction) :
  ascending l -> ascending (insert_by_at a l).
Proof.
  induction l as [|b l IH]; intros Hl; simpl.
  - split; [constructor|exact I].
  - destruct Hl as [Hb Hl].
    destruct (Z.leb_spec (at_ a) (at_ b)) as [Hle|Hgt].
    + split; [|split; assumption].
      constructor; [exact Hle|].
      eapply Forall_impl; [exact Hb|]. intros c Hc. simpl in Hc. lia.
    + split; [|apply IH, Hl].
      rewrite insert_by_at_perm. constructor; [lia|exact Hb].
Qed.

Lemma sort_actions_ascending (l : list FunscriptAction) : ascending (sort_actions l).
Proof.
  induction l as [|a l IH]; simpl; [exact I|].
  apply insert_by_at_ascending, IH.
Qed.

(** The sort is stable: the actions at one time stamp keep their order. *)
Lemma insert_by_at_stable (k : Z) (a : FunscriptAction) (l : list FunscriptAction) :
  at_time k (insert_by_at a l) = at_time k (a :: l).
Proof.
  unfold at_time. induction l as [|b l IH]; simpl; [reflexivity|].
  destruct (Z.leb_spec (at_ a) (at_ b)) as [Hle|Hgt]; [reflexivity|].
  rewrite (filter_cons _ b), IH, !(filter_cons _ a), !(filter_cons _ b).
  destruct (decide (at_ a = k)) as [Ea|Na];
    destruct (decide (at_ b = k)) as [Eb|Nb]; try reflexivity.
  lia.
Qed.

Lemma sort_actions_stable (k : Z) (l : list FunscriptAction) :
  at_time k (sort_actions l) = at_time k l.
Proof.
  induction l as [|a l IH]; simpl; [reflexivity|].
  rewrite insert_by_at_stable. unfold at_time in *.
  rewrite !(filter_cons _ a), IH. reflexivity.
Qed.










End SortDedup.

(** ** Beat snap *)

Section BeatSnap.
Import Funscript BeatDetection MainWindow.

Lemma int_compat (x y : Q) : (x == y)%Q -> Py.int x = Py.int y.
Proof.
  intros E. unfold Py.int.
  assert (B : Qle_bool 0 x = Qle_bool 0 y).
  { destruct (Qle_bool 0 x) eqn:Ex; destruct (Qle_bool 0 y) eqn:Ey; try reflexivity.
    - apply Qle_bool_iff in Ex. apply Qle_bool_false in Ey. lra.
    - apply Qle_bool_iff in Ey. apply Qle_bool_false in Ex. lra. }
  rewrite B. destruct (Qle_bool 0 y);
    [apply Qfloor_comp | apply Qceiling_comp]; exact E.
Qed.

Lemma int_inject (z : Z) : Py.int (inject_Z z) = z.
Proof.
  unfold Py.int. destruct (Qle_bool 0 (inject_Z z));
    [apply Qfloor_Z | apply Qceiling_Z].
Qed.








Lemma grid_segments_total (bs : list Z) (subdivisions : Z) :
  subdivisions <> 0 -> exists g, grid_segments bs subdivisions = Some g.
Proof.
  intros Hs. induction bs as [|a bs IH]; [eexists; reflexivity|].
  destruct bs as [|b bs]; [eexists; reflexivity|].
  destruct IH as [g Eg].
  change (grid_segments (a :: b :: bs) subdivisions)
    with (step ← Py.fdiv (inject_Z (b - a)) (inject_Z subdivisions);
          rest ← grid_segments (b :: bs) subdivisions;
          Some (map (fun s => Py.int (inject_Z a + inject_Z s * step))
                  (range subdivisions) ++ rest)).
  rewrite (fdiv_nonzero _ _ (inject_Z_nonzero subdivisions Hs)).
  cbn [mbind option_bind]. rewrite Eg. cbn [mbind option_bind].
  eexists; reflexivity.
Qed.

Lemma get_beat_grid_total (bd : BeatData) :
  subdivisions bd <> 0 -> exists g, get_beat_grid bd = Some g.
Proof.
  intros Hs. unfold get_beat_grid.
  destruct (Nat.ltb_spec (length (beats bd)) 2) as [_|Hlen]; [eexists; reflexivity|].
  destruct (grid_segments_total (beats bd) (subdivisions bd) Hs) as [g Eg].
  rewrite Eg. cbn [mbind option_bind].
  destruct (last (beats bd)) as [f|] eqn:El.
  - cbn [mbind option_bind]. eexists; reflexivity.
  - apply last_None in El. rewrite El in Hlen. simpl in Hlen. lia.
Qed.


End BeatSnap.

(** The grid of the specification: beats [0, 1000, 2000] with 4 subdivisions
    give 9 points. *)
Example beat_grid_nine_points :
  BeatDetection.get_beat_grid (BeatDetection.mkBeatData [0; 1000; 2000] [] 120 1 4)
  = Some [0; 250; 500; 750; 1000; 1250; 1500; 1750; 2000].
Proof. vm_compute. reflexivity. Qed.




(* ===================================================================== *)
(** * Further properties of the code *)
(* ===================================================================== *)

(** ** Slew-rate and jerk limiters *)


Lemma Qabs_nonneg_eq (x : Q) : (0 <= x)%Q -> (Qabs x == x)%Q.
Proof. apply Qabs_pos. Qed.







(** ** Spike rejector *)




(** ** Deadzone filter *)

Lemma deadzone_step (self : DeadzoneFilter.t) (last value : Z) :
  DeadzoneFilter._last_emitted self = Some last ->
  let r := DeadzoneFilter.filter self value in
  DeadzoneFilter._last_emitted (fst r) = Some (snd r) /\
  DeadzoneFilter.threshold (fst r) = DeadzoneFilter.threshold self /\
  ((snd r = value /\
    (DeadzoneFilter.threshold self <= inject_Z (Z.abs (value - last)))%Q) \/
   (snd r = last /\
    (inject_Z (Z.abs (value - last)) < DeadzoneFilter.threshold self)%Q)).
Proof.
  intros Hl. unfold DeadzoneFilter.filter. rewrite Hl. cbv zeta.
  destruct (Qle_bool (DeadzoneFilter.threshold self) (inject_Z (Z.abs (value - last))))
    eqn:E.
  - apply Qle_bool_iff in E. cbn [fst snd DeadzoneFilter._last_emitted
                                   DeadzoneFilter.threshold].
    split; [reflexivity|]. split; [reflexivity|]. left. split; [reflexivity|exact E].
  - apply Qle_bool_false in E. cbn [fst snd].
    split; [exact Hl|]. split; [reflexivity|]. right. split; [reflexivity|exact E].
Qed.

Lemma deadzone_run_seeded (values : list Z) :
  forall (self : DeadzoneFilter.t) (last : Z),
    DeadzoneFilter._last_emitted self = Some last ->
    let outs := Deadzone.run self values in
    length outs = length values /\
    forall (i : nat) (prev o v : Z),
      (last :: outs) !! i = Some prev -> outs !! i = Some o ->
      values !! i = Some v ->
      (o = v /\ (DeadzoneFilter.threshold self <= inject_Z (Z.abs (o - prev)))%Q) \/
      (o = prev /\ (inject_Z (Z.abs (v - o)) < DeadzoneFilter.threshold self)%Q).
Proof.
  induction values as [|v0 rest IH]; intros self last Hl; cbv zeta.
  - split; [reflexivity|]. intros i prev o v _ Ho. destruct i; discriminate Ho.
  - cbn [Deadzone.run].
    destruct (deadzone_step self last v0 Hl) as (Hl' & Hth & Hstep).
    set (r := DeadzoneFilter.filter self v0) in *.
    specialize (IH (fst r) (snd r) Hl'). cbv zeta in IH.
    destruct IH as [Hlen Hchain]. split; [simpl; f_equal; exact Hlen|].
    intros i prev o v Hprev Ho Hv. destruct i as [|i].
    + simpl in Hprev, Ho, Hv. inversion Hprev; inversion Ho; inversion Hv; subst.
      destruct Hstep as [[E Hge]|[E Hlt]].
      * left. split; [exact E|]. rewrite E. exact Hge.
      * right. split; [exact E|]. rewrite E. exact Hlt.
    + simpl in Hprev, Ho, Hv. rewrite <- Hth. apply (Hchain i prev o v); assumption.
Qed.

(** X4: a DeadzoneFilter, reset and fed any stream of values, returns its
    first input; every later output either is the new input, which then
    differs from the output before it by at least [threshold], or repeats the
    output before it, which then is less than [threshold] away from the new
    input.  So the output never moves by less than [threshold] and never lags
    the input by [threshold] or more. *)
Theorem X4_deadzone_steps :
  forall (f0 : DeadzoneFilter.t) (v0 : Z) (rest : list Z),
    let outs := Deadzone.run (Deadzone.reset f0) (v0 :: rest) in
    length outs = S (length rest) /\
    outs !! 0%nat = Some v0 /\
    forall (i : nat) (prev o v : Z),
      outs !! i = Some prev -> outs !! S i = Some o -> rest !! i = Some v ->
      (o = v /\ (DeadzoneFilter.threshold f0 <= inject_Z (Z.abs (o - prev)))%Q) \/
      (o = prev /\ (inject_Z (Z.abs (v - o)) < DeadzoneFilter.threshold f0)%Q).
Proof.
  intros f0 v0 rest. cbv zeta.
  change (Deadzone.run (Deadzone.reset f0) (v0 :: rest))
    with (v0 :: Deadzone.run (DeadzoneFilter.mk (DeadzoneFilter.threshold f0) (Some v0))
                  rest).
  destruct (deadzone_run_seeded rest
              (DeadzoneFilter.mk (DeadzoneFilter.threshold f0) (Some v0)) v0 eq_refl)
    as [Hlen Hchain].
  split; [simpl; f_equal; exact Hlen|]. split; [reflexivity|].
  intros i prev o v Hprev Ho Hv. apply (Hchain i prev o v); assumption.
Qed.

(** ** The per-axis pipeline *)

(** X5: whatever the configuration, the first sample after
    [AxisStabilizer.reset] passes through [process] unchanged, and the first
    mapped value passes through [post_map] unchanged: every stage, enabled or
    not, lets its first sample through.  And at any time, with the four
    pre-map stages disabled [process] returns its input and leaves the
    stabilizer as it was, and with the two post-map stages disabled so does
    [post_map]. *)
Theorem X5_pipeline_pass_through :
  forall (h : Stabilization.store) (self : AxisStabilizer.t)
         (c : StabilizationConfig.t) (raw tm : Q) (mapped : Z),
    h !! AxisStabilizer._effective_config self = Some c ->
    (exists s1, Pipeline.process h (Pipeline.reset self) raw tm = Some (s1, raw)) /\
    (exists s2, Pipeline.post_map h (Pipeline.reset self) mapped = Some (s2, mapped)) /\
    (StabilizationConfig.spike_rejection_enabled c = false ->
     StabilizationConfig.one_euro_enabled c = false ->
     StabilizationConfig.slew_rate_enabled c = false ->
     StabilizationConfig.jerk_limiter_enabled c = false ->
     Pipeline.process h self raw tm = Some (self, raw)) /\
    (StabilizationConfig.deadzone_enabled c = false ->
     StabilizationConfig.hysteresis_enabled c = false ->
     Pipeline.post_map h self mapped = Some (self, mapped)).
Proof.
  intros h self c raw tm mapped Hc. split; [|split; [|split]].
  - unfold Pipeline.process, Pipeline.reset, Pipeline.stage.
    cbn [AxisStabilizer._effective_config AxisStabilizer._spike
         AxisStabilizer._one_euro AxisStabilizer._slew AxisStabilizer._jerk].
    rewrite Hc. cbn [mbind option_bind].
    destruct (StabilizationConfig.spike_rejection_enabled c);
      destruct (StabilizationConfig.one_euro_enabled c);
      destruct (StabilizationConfig.slew_rate_enabled c);
      destruct (StabilizationConfig.jerk_limiter_enabled c);
      cbn; eexists; reflexivity.
  - unfold Pipeline.post_map, Pipeline.reset.
    cbn [AxisStabilizer._effective_config AxisStabilizer._deadzone
         AxisStabilizer._hysteresis].
    rewrite Hc. cbn [mbind option_bind].
    destruct (StabilizationConfig.deadzone_enabled c);
      destruct (StabilizationConfig.hysteresis_enabled c);
      cbn; eexists; reflexivity.
  - intros E1 E2 E3 E4. unfold Pipeline.process, Pipeline.stage.
    rewrite Hc. cbn [mbind option_bind]. rewrite E1, E2, E3, E4.
    cbn [mbind option_bind fst snd]. destruct self; reflexivity.
  - intros E1 E2. unfold Pipeline.post_map. rewrite Hc.
    cbn [mbind option_bind]. rewrite E1, E2.
    cbn [fst snd]. destruct self; reflexivity.
Qed.

Lemma X5_witness :
  let h : Stabilization.store := {[ 0%nat := StabilizationConfig.medium ]} in
  let self := AxisStabilizer.mk "x" 0 0 (SpikeRejector.init (1 # 2))
                (OneEuroFilter.init 1 (7 # 1000) 1) (SlewRateLimiter.init 5)
                (JerkLimiter.init 20) (DeadzoneFilter.init 1)
                (HysteresisFilter.init (3 # 2)) in
  h !! AxisStabilizer._effective_config self = Some StabilizationConfig.medium /\
  exists s1, Pipeline.process h (Pipeline.reset self) (1 # 4) 0 = Some (s1, 1 # 4).
Proof.
  intros h self.
  assert (Hc : h !! AxisStabilizer._effective_config self
               = Some StabilizationConfig.medium) by reflexivity.
  split; [exact Hc|].
  exact (proj1 (X5_pipeline_pass_through h self StabilizationConfig.medium
                  (1 # 4) 0 50 Hc)).
Defined.

(** ** Undo history *)

Section UndoFacts.
Context {Item : Type}.

Lemma removelast_snoc_last (l : list Item) (x : Item) :
  last l = Some x -> removelast l ++ [x] = l.
Proof.
  intros H. apply last_Some in H. destruct H as [l' ->].
  rewrite removelast_last. reflexivity.
Qed.

Lemma length_removelast_last (l : list Item) (x : Item) :
  last l = Some x -> S (length (removelast l)) = length l.
Proof.
  intros H. apply last_Some in H. destruct H as [l' ->].
  rewrite removelast_last, length_app. simpl. lia.
Qed.

Lemma history_size_apply (self : UndoManager.t Item) (c : UndoHistory.call Item) :
  0 <= UndoManager.max_history self ->
  Z.of_nat (length (UndoManager._undo_stack self)
            + length (UndoManager._redo_stack self))
  <= UndoManager.max_history self ->
  let self' := UndoHistory.apply self c in
  UndoManager.max_history self' = UndoManager.max_history self /\
  Z.of_nat (length (UndoManager._undo_stack self')
            + length (UndoManager._redo_stack self'))
  <= UndoManager.max_history self.
Proof.
  intros Hmax Hinv. destruct c as [item| | |]; cbv zeta; cbn [UndoHistory.apply].
  - unfold UndoManager.push. cbn [UndoManager.max_history UndoManager._undo_stack
                                  UndoManager._redo_stack].
    split; [reflexivity|].
    destruct (Z.ltb_spec (UndoManager.max_history self)
                (Z.of_nat (length (UndoManager._undo_stack self ++ [item]))))
      as [Hlt|Hge].
    + rewrite length_drop, length_app. simpl. lia.
    + simpl. lia.
  - unfold UndoManager.undo.
    destruct (last (UndoManager._undo_stack self)) as [item|] eqn:El.
    + cbn [fst UndoManager.max_history UndoManager._undo_stack
           UndoManager._redo_stack].
      split; [reflexivity|].
      pose proof (length_removelast_last _ _ El) as Hl.
      rewrite length_app. simpl. lia.
    + cbn [fst]. split; [reflexivity|exact Hinv].
  - unfold UndoManager.redo.
    destruct (last (UndoManager._redo_stack self)) as [item|] eqn:El.
    + cbn [fst UndoManager.max_history UndoManager._undo_stack
           UndoManager._redo_stack].
      split; [reflexivity|].
      pose proof (length_removelast_last _ _ El) as Hl.
      rewrite length_app. simpl. lia.
    + cbn [fst]. split; [reflexivity|exact Hinv].
  - cbn. split; [reflexivity|lia].
Qed.

End UndoFacts.

(** X6: an UndoManager created with [max_history >= 0] never holds more than
    [max_history] entries, counting the undo and the redo stack together,
    whatever sequence of push, undo, redo and clear calls it receives. *)
Theorem X6_undo_history_bounded :
  forall (Item : Type) (max_history : Z) (calls : list (UndoHistory.call Item)),
    0 <= max_history ->
    let self := UndoHistory.run (UndoManager.init max_history) calls in
    UndoManager.max_history self = max_history /\
    Z.of_nat (length (UndoManager._undo_stack self)
              + length (UndoManager._redo_stack self)) <= max_history.
Proof.
  intros Item max_history calls Hmax. cbv zeta. unfold UndoHistory.run.
  assert (G : forall (s : UndoManager.t Item),
             UndoManager.max_history s = max_history ->
             Z.of_nat (length (UndoManager._undo_stack s)
                       + length (UndoManager._redo_stack s)) <= max_history ->
             UndoManager.max_history (fold_left UndoHistory.apply calls s)
             = max_history /\
             Z.of_nat (length (UndoManager._undo_stack
                                 (fold_left UndoHistory.apply calls s))
                       + length (UndoManager._redo_stack
                                   (fold_left UndoHistory.apply calls s)))
             <= max_history).
  { induction calls as [|c calls IH]; intros s Hm Hinv; [split; assumption|].
    cbn [fold_left].
    destruct (history_size_apply s c ltac:(lia) ltac:(lia)) as [Hm' Hinv'].
    apply IH; [congruence|lia]. }
  apply G; [reflexivity|simpl; lia].
Qed.

Lemma X6_witness :
  0 <= 2 /\
  Z.of_nat (length (UndoManager._undo_stack
                      (UndoHistory.run (UndoManager.init 2)
                         [UndoHistory.Push 1; UndoHistory.Push 2;
                          UndoHistory.Push 3; UndoHistory.Undo]))
            + length (UndoManager._redo_stack
                        (UndoHistory.run (UndoManager.init 2)
                           [UndoHistory.Push 1; UndoHistory.Push 2;
                            UndoHistory.Push 3; UndoHistory.Undo]))) <= 2.
Proof.
  assert (H : 0 <= 2) by lia. split; [exact H|].
  exact (proj2 (X6_undo_history_bounded Z 2
                  [UndoHistory.Push 1; UndoHistory.Push 2;
                   UndoHistory.Push 3; UndoHistory.Undo] H)).
Defined.

(** X7: [push] empties the redo stack; when the undo stack is below
    [max_history] the new entry is added on top of it, and when it holds
    exactly [max_history >= 1] entries the oldest one is dropped and the new
    one added.  [undo] on an empty undo stack and [redo] on an empty redo
    stack return nothing and change nothing.  An [undo] that returns an entry
    followed by [redo] returns the same entry and restores the manager
    exactly, and so does a [redo] followed by [undo]. *)
Theorem X7_undo_redo_round_trip :
  forall (Item : Type) (self : UndoManager.t Item),
    (forall item,
        UndoManager._redo_stack (UndoManager.push self item) = [] /\
        (Z.of_nat (length (UndoManager._undo_stack self))
         < UndoManager.max_history self ->
         UndoManager._undo_stack (UndoManager.push self item)
         = UndoManager._undo_stack self ++ [item]) /\
        (Z.of_nat (length (UndoManager._undo_stack self))
         = UndoManager.max_history self -> 1 <= UndoManager.max_history self ->
         UndoManager._undo_stack (UndoManager.push self item)
         = drop 1 (UndoManager._undo_stack self) ++ [item])) /\
    (UndoManager._undo_stack self = [] -> UndoManager.undo self = (self, None)) /\
    (UndoManager._redo_stack self = [] -> UndoManager.redo self = (self, None)) /\
    (forall s1 item,
        UndoManager.undo self = (s1, Some item) ->
        UndoManager.redo s1 = (self, Some item)) /\
    (forall s1 item,
        UndoManager.redo self = (s1, Some item) ->
        UndoManager.undo s1 = (self, Some item)).
Proof.
  intros Item self. split; [|split; [|split; [|split]]].
  - intros item. unfold UndoManager.push.
    cbn [UndoManager._redo_stack UndoManager._undo_stack].
    split; [reflexivity|]. split.
    + intros Hlt.
      destruct (Z.ltb_spec (UndoManager.max_history self)
                  (Z.of_nat (length (UndoManager._undo_stack self ++ [item]))))
        as [Hc|_]; [|reflexivity].
      rewrite length_app in Hc. simpl in Hc. lia.
    + intros Heq Hpos.
      destruct (Z.ltb_spec (UndoManager.max_history self)
                  (Z.of_nat (length (UndoManager._undo_stack self ++ [item]))))
        as [_|Hc].
      * destruct (UndoManager._undo_stack self) as [|x l]; [simpl in Heq; lia|].
        reflexivity.
      * rewrite length_app in Hc. simpl in Hc. lia.
  - intros E. unfold UndoManager.undo. rewrite E. reflexivity.
  - intros E. unfold UndoManager.redo. rewrite E. reflexivity.
  - intros s1 item H. unfold UndoManager.undo in H.
    destruct (last (UndoManager._undo_stack self)) as [x|] eqn:El;
      [|discriminate H].
    inversion H. subst s1 x. unfold UndoManager.redo.
    cbn [UndoManager._redo_stack UndoManager._undo_stack UndoManager.max_history].
    rewrite last_snoc, removelast_last, (removelast_snoc_last _ _ El).
    destruct self; reflexivity.
  - intros s1 item H. unfold UndoManager.redo in H.
    destruct (last (UndoManager._redo_stack self)) as [x|] eqn:El;
      [|discriminate H].
    inversion H. subst s1 x. unfold UndoManager.undo.
    cbn [UndoManager._redo_stack UndoManager._undo_stack UndoManager.max_history].
    rewrite last_snoc, removelast_last, (removelast_snoc_last _ _ El).
    destruct self; reflexivity.
Qed.

Lemma X7_witness :
  UndoManager.undo (UndoManager.mk 100 [1; 2] [3])
    = (UndoManager.mk 100 [1] [3; 2], Some 2) /\
  UndoManager.redo (UndoManager.mk 100 [1] [3; 2])
    = (UndoManager.mk 100 [1; 2] [3], Some 2).
Proof.
  assert (H : UndoManager.undo (UndoManager.mk 100 [1; 2] [3])
              = (UndoManager.mk 100 [1] [3; 2], Some 2)) by reflexivity.
  split; [exact H|].
  exact (proj1 (proj2 (proj2 (proj2 (X7_undo_redo_round_trip Z
                                       (UndoManager.mk 100 [1; 2] [3])))))
           _ _ H).
Defined.

(** ** Editing the actions of an axis *)

Section AxisEdit.
Import Funscript FunscriptAxis.

Lemma ascending_filter (P : FunscriptAction -> Prop) `{forall a, Decision (P a)}
    (l : list FunscriptAction) :
  ascending l -> ascending (filter P l).
Proof.
  induction l as [|a l IH]; intros Hl; [exact I|].
  destruct Hl as [Ha Hl]. rewrite filter_cons.
  destruct (decide (P a)); [|apply IH, Hl].
  split; [|apply IH, Hl].
  apply Forall_forall. intros b Hb. apply list_elem_of_filter in Hb.
  exact (proj1 (Forall_forall _ _) Ha b (proj2 Hb)).
Qed.

Lemma at_time_app (k : Z) (l1 l2 : list FunscriptAction) :
  at_time k (l1 ++ l2) = at_time k l1 ++ at_time k l2.
Proof. unfold at_time. apply filter_app. Qed.

Lemma at_time_get (k : Z) (l : list FunscriptAction) (s e : Z) :
  at_time k (get_actions_in_range l s e)
  = if decide (s <= k <= e) then at_time k l else [].
Proof.
  unfold at_time, get_actions_in_range, in_range.
  induction l as [|a l IH]; [destruct (decide (s <= k <= e)); reflexivity|].
  rewrite (filter_cons _ a).
  destruct (decide (s <= at_ a <= e)) as [Hin|Hout].
  - rewrite !(filter_cons _ a), IH.
    destruct (decide (at_ a = k)) as [E|N]; destruct (decide (s <= k <= e));
      try reflexivity. exfalso. lia.
  - rewrite IH, (filter_cons _ a).
    destruct (decide (at_ a = k)) as [E|N]; destruct (decide (s <= k <= e));
      try reflexivity. exfalso. lia.
Qed.

Lemma at_time_remove (k : Z) (l : list FunscriptAction) (s e : Z) :
  at_time k (remove_actions_in_range l s e)
  = if decide (s <= k <= e) then [] else at_time k l.
Proof.
  unfold at_time, remove_actions_in_range, in_range.
  induction l as [|a l IH]; [destruct (decide (s <= k <= e)); reflexivity|].
  rewrite (filter_cons _ a).
  destruct (decide (~ s <= at_ a <= e)) as [Hout|Hin].
  - rewrite !(filter_cons _ a), IH.
    destruct (decide (at_ a = k)) as [E|N]; destruct (decide (s <= k <= e));
      try reflexivity. exfalso. lia.
  - rewrite IH, (filter_cons _ a).
    destruct (decide (at_ a = k)) as [E|N]; destruct (decide (s <= k <= e));
      try reflexivity. exfalso. lia.
Qed.

Lemma at_time_nil_outside (k : Z) (l : list FunscriptAction) (s e : Z) :
  Forall (in_range s e) l -> ~ (s <= k <= e) -> at_time k l = [].
Proof.
  intros Hall Hk. unfold at_time.
  induction Hall as [|a l Ha Hall IH]; [reflexivity|].
  rewrite filter_cons, IH. unfold in_range in Ha.
  destruct (decide (at_ a = k)); [exfalso; lia|reflexivity].
Qed.

(** Two sorted lists that hold the same actions, in the same order, at every
    time stamp are equal. *)
Lemma sorted_unique (l1 : list FunscriptAction) :
  forall l2 : list FunscriptAction,
    ascending l1 -> ascending l2 ->
    (forall k, at_time k l1 = at_time k l2) -> l1 = l2.
Proof.
  induction l1 as [|a l1 IH]; intros l2 H1 H2 Heq.
  - destruct l2 as [|b l2]; [reflexivity|].
    specialize (Heq (at_ b)). unfold at_time in Heq.
    rewrite filter_nil, filter_cons in Heq.
    destruct (decide (at_ b = at_ b)); [discriminate Heq|contradiction].
  - destruct l2 as [|b l2].
    { specialize (Heq (at_ a)). unfold at_time in Heq.
      rewrite filter_nil, filter_cons in Heq.
      destruct (decide (at_ a = at_ a)); [discriminate Heq|contradiction]. }
    destruct H1 as [Ha H1]. destruct H2 as [Hb H2].
    assert (Hab : at_ a = at_ b).
    { assert (Hina : a ∈ b :: l2).
      { pose proof (Heq (at_ a)) as E. unfold at_time in E.
        assert (Hx : a ∈ filter (fun x => at_ x = at_ a) (a :: l1)).
        { apply list_elem_of_filter. split; [reflexivity|apply list_elem_of_here]. }
        rewrite E in Hx. apply list_elem_of_filter in Hx. exact (proj2 Hx). }
      assert (Hinb : b ∈ a :: l1).
      { pose proof (Heq (at_ b)) as E. unfold at_time in E.
        assert (Hx : b ∈ filter (fun x => at_ x = at_ b) (b :: l2)).
        { apply list_elem_of_filter. split; [reflexivity|apply list_elem_of_here]. }
        rewrite <- E in Hx. apply list_elem_of_filter in Hx. exact (proj2 Hx). }
      apply elem_of_cons in Hina. apply elem_of_cons in Hinb.
      destruct Hina as [->|Hina]; [reflexivity|].
      destruct Hinb as [->|Hinb]; [reflexivity|].
      pose proof (proj1 (Forall_forall _ _) Hb a Hina) as L1.
      pose proof (proj1 (Forall_forall _ _) Ha b Hinb) as L2.
      simpl in L1, L2. lia. }
    assert (Hhead : a = b /\ forall k, at_time k l1 = at_time k l2).
    { pose proof (Heq (at_ a)) as E. unfold at_time in E.
      rewrite !filter_cons in E.
      destruct (decide (at_ a = at_ a)) as [_|N]; [|contradiction].
      destruct (decide (at_ b = at_ a)) as [_|N]; [|congruence].
      inversion E as [[Eab Etl]]. split; [reflexivity|].
      intros k. pose proof (Heq k) as Ek. unfold at_time in Ek |- *.
      rewrite !filter_cons in Ek. subst b.
      destruct (decide (at_ a = k)); [inversion Ek; reflexivity|exact Ek]. }
    destruct Hhead as [-> Htl]. f_equal. apply IH; assumption.
Qed.

Lemma min_at_bound (a0 : FunscriptAction) (l : list FunscriptAction) (lo : Z) :
  lo <= at_ a0 -> Forall (fun a => lo <= at_ a) l ->
  lo <= min_at a0 l /\ min_at a0 l <= at_ a0.
Proof.
  unfold min_at. generalize (at_ a0). intros m Hm Hall. revert m Hm.
  induction Hall as [|a l Ha Hall IH]; intros m Hm; cbn [fold_left]; [lia|].
  destruct (IH (Z.min m (at_ a)) ltac:(lia)) as [H1 H2]. lia.
Qed.

Lemma max_at_bound (a0 : FunscriptAction) (l : list FunscriptAction) (hi : Z) :
  at_ a0 <= hi -> Forall (fun a => at_ a <= hi) l ->
  max_at a0 l <= hi /\ at_ a0 <= max_at a0 l.
Proof.
  unfold max_at. generalize (at_ a0). intros m Hm Hall. revert m Hm.
  induction Hall as [|a l Ha Hall IH]; intros m Hm; cbn [fold_left]; [lia|].
  destruct (IH (Z.max m (at_ a)) ltac:(lia)) as [H1 H2]. lia.
Qed.

End AxisEdit.

Section AxisRoundTrip.
Import Funscript FunscriptAxis.

Lemma add_actions_range (actions : list FunscriptAction) (a0 : FunscriptAction)
    (rest : list FunscriptAction) (s e : Z) :
  s ∈ at_ <$> (a0 :: rest) -> e ∈ at_ <$> (a0 :: rest) ->
  Forall (in_range s e) (a0 :: rest) ->
  min_at a0 rest = s /\ max_at a0 rest = e.
Proof.
  intros Hs He Hall. unfold in_range in Hall.
  apply Forall_cons in Hall. destruct Hall as [H0 Hall].
  assert (Hlo : Forall (fun a => s <= at_ a) rest)
    by (eapply Forall_impl; [exact Hall|]; intros a Ha; simpl in Ha; lia).
  assert (Hhi : Forall (fun a => at_ a <= e) rest)
    by (eapply Forall_impl; [exact Hall|]; intros a Ha; simpl in Ha; lia).
  destruct (min_at_bound a0 rest s ltac:(lia) Hlo) as [L1 L2].
  destruct (max_at_bound a0 rest e ltac:(lia) Hhi) as [U1 U2].
  assert (Gmin : forall l m x, x ∈ at_ <$> l ->
                   fold_left (fun m a => Z.min m (at_ a)) l m <= x).
  { clear. induction l as [|a l IH]; intros m x Hx.
    - apply elem_of_nil in Hx. contradiction.
    - rewrite fmap_cons in Hx. apply elem_of_cons in Hx. cbn [fold_left].
      destruct Hx as [->|Hx]; [|apply IH, Hx].
      clear IH. generalize (Z.min m (at_ a)) (Z.le_min_r m (at_ a)).
      induction l as [|b l IH]; intros z Hz; cbn [fold_left]; [exact Hz|].
      apply IH. lia. }
  assert (Gmax : forall l m x, x ∈ at_ <$> l ->
                   x <= fold_left (fun m a => Z.max m (at_ a)) l m).
  { clear. induction l as [|a l IH]; intros m x Hx.
    - apply elem_of_nil in Hx. contradiction.
    - rewrite fmap_cons in Hx. apply elem_of_cons in Hx. cbn [fold_left].
      destruct Hx as [->|Hx]; [|apply IH, Hx].
      clear IH. generalize (Z.max m (at_ a)) (Z.le_max_r m (at_ a)).
      induction l as [|b l IH]; intros z Hz; cbn [fold_left]; [exact Hz|].
      apply IH. lia. }
  rewrite fmap_cons in Hs, He.
  apply elem_of_cons in Hs. apply elem_of_cons in He. split.
  - destruct Hs as [Hs|Hs]; [lia|].
    pose proof (Gmin rest (at_ a0) s Hs) as G. unfold min_at in *. lia.
  - destruct He as [He|He]; [lia|].
    pose proof (Gmax rest (at_ a0) e He) as G. unfold max_at in *. lia.
Qed.

Lemma remove_of_added (axis recorded : list FunscriptAction) (s e : Z) :
  Forall (in_range s e) recorded ->
  forall k,
    at_time k (remove_actions_in_range
                 (sort_actions (remove_actions_in_range axis s e ++ recorded)) s e)
    = at_time k (remove_actions_in_range axis s e).
Proof.
  intros Hall k. rewrite (at_time_remove k (sort_actions _)).
  rewrite sort_actions_stable, at_time_app, (at_time_remove k axis).
  destruct (decide (s <= k <= e)) as [Hin|Hout]; [reflexivity|].
  rewrite (at_time_nil_outside k recorded s e Hall Hout), app_nil_r. reflexivity.
Qed.

Lemma restore_sorted (axis rest : list FunscriptAction) (s e : Z) :
  ascending axis -> ascending rest ->
  (forall k, at_time k rest = at_time k (remove_actions_in_range axis s e)) ->
  (match get_actions_in_range axis s e with
   | [] => rest
   | _ => sort_actions (rest ++ get_actions_in_range axis s e)
   end) = axis.
Proof.
  intros Hax Hrest Heq.
  assert (Hsplit : forall k,
             at_time k (rest ++ get_actions_in_range axis s e) = at_time k axis).
  { intros k. rewrite at_time_app, Heq, at_time_remove, at_time_get.
    destruct (decide (s <= k <= e)); [reflexivity|apply app_nil_r]. }
  destruct (get_actions_in_range axis s e) as [|p ps] eqn:Eg.
  - apply sorted_unique; [exact Hrest|exact Hax|].
    intros k. rewrite <- Hsplit, app_nil_r. reflexivity.
  - apply sorted_unique; [apply sort_actions_ascending|exact Hax|].
    intros k. rewrite sort_actions_stable. apply Hsplit.
Qed.

End AxisRoundTrip.

(** X8: [add_actions] with no new actions leaves the axis as it is;
    otherwise the axis afterwards is sorted by time stamp and consists of the
    new actions and of the old actions whose time stamp lies outside the span
    from the smallest to the largest new time stamp: every old action inside
    that span is replaced. *)
Theorem X8_add_actions_replaces_span :
  forall (actions : list Funscript.FunscriptAction),
    FunscriptAxis.add_actions actions [] = actions /\
    forall (a0 : Funscript.FunscriptAction) (rest : list Funscript.FunscriptAction),
      let lo := FunscriptAxis.min_at a0 rest in
      let hi := FunscriptAxis.max_at a0 rest in
      let result := FunscriptAxis.add_actions actions (a0 :: rest) in
      Forall (fun a => lo <= Funscript.at_ a <= hi) (a0 :: rest) /\
      lo ∈ Funscript.at_ <$> (a0 :: rest) /\
      hi ∈ Funscript.at_ <$> (a0 :: rest) /\
      ascending result /\
      result ≡ₚ filter (fun a => ~ (lo <= Funscript.at_ a <= hi)) actions
                ++ (a0 :: rest).
Proof.
  intros actions. split; [reflexivity|]. intros a0 rest lo hi result.
  assert (G : forall (f : Z -> Z -> Z),
             (forall m x, f m x = m \/ f m x = x) ->
             forall l m, fold_left (fun m a => f m (Funscript.at_ a)) l m = m \/
                         fold_left (fun m a => f m (Funscript.at_ a)) l m
                         ∈ Funscript.at_ <$> l).
  { intros f Hf. induction l as [|a l IH]; intros m; cbn [fold_left];
      [left; reflexivity|].
    rewrite fmap_cons.
    destruct (IH (f m (Funscript.at_ a))) as [E|Hin].
    - rewrite E. destruct (Hf m (Funscript.at_ a)) as [->| ->];
        [left; reflexivity|right; apply list_elem_of_here].
    - right. apply list_elem_of_further, Hin. }
  assert (Hlo_in : lo ∈ Funscript.at_ <$> (a0 :: rest)).
  { rewrite fmap_cons. unfold lo, FunscriptAxis.min_at.
    destruct (G Z.min ltac:(intros; lia) rest (Funscript.at_ a0)) as [E|Hin];
      [rewrite E; apply list_elem_of_here|apply list_elem_of_further, Hin]. }
  assert (Hhi_in : hi ∈ Funscript.at_ <$> (a0 :: rest)).
  { rewrite fmap_cons. unfold hi, FunscriptAxis.max_at.
    destruct (G Z.max ltac:(intros; lia) rest (Funscript.at_ a0)) as [E|Hin];
      [rewrite E; apply list_elem_of_here|apply list_elem_of_further, Hin]. }
  assert (Hbounds : Forall (fun a => lo <= Funscript.at_ a <= hi) (a0 :: rest)).
  { assert (Gmin : forall l m,
               fold_left (fun m a => Z.min m (Funscript.at_ a)) l m <= m /\
               Forall (fun a => fold_left (fun m a => Z.min m (Funscript.at_ a)) l m
                                <= Funscript.at_ a) l).
    { induction l as [|a l IH]; intros m; cbn [fold_left];
        [split; [lia|constructor]|].
      destruct (IH (Z.min m (Funscript.at_ a))) as [H1 H2].
      split; [lia|]. constructor; [lia|exact H2]. }
    assert (Gmax : forall l m,
               m <= fold_left (fun m a => Z.max m (Funscript.at_ a)) l m /\
               Forall (fun a => Funscript.at_ a
                                <= fold_left (fun m a => Z.max m (Funscript.at_ a)) l m)
                 l).
    { induction l as [|a l IH]; intros m; cbn [fold_left];
        [split; [lia|constructor]|].
      destruct (IH (Z.max m (Funscript.at_ a))) as [H1 H2].
      split; [lia|]. constructor; [lia|exact H2]. }
    destruct (Gmin rest (Funscript.at_ a0)) as [L0 L].
    destruct (Gmax rest (Funscript.at_ a0)) as [U0 U].
    constructor; [unfold lo, hi, FunscriptAxis.min_at, FunscriptAxis.max_at; lia|].
    apply Forall_forall. intros a Ha.
    pose proof (proj1 (Forall_forall _ _) L a Ha) as La.
    pose proof (proj1 (Forall_forall _ _) U a Ha) as Ua.
    simpl in La, Ua. unfold lo, hi, FunscriptAxis.min_at, FunscriptAxis.max_at. lia. }
  split; [exact Hbounds|]. split; [exact Hlo_in|]. split; [exact Hhi_in|].
  unfold result, FunscriptAxis.add_actions. fold lo hi. split.
  - apply sort_actions_ascending.
  - rewrite sort_actions_perm. reflexivity.
Qed.

(** X9: recording over a sorted axis and undoing restores the axis exactly.
    If the axis's actions are sorted and the recorded actions all lie between
    the time stamps of the first and the last of them, the commit of
    [stop_recording] leaves a sorted axis, the undo of its entry gives back
    the actions the axis had before, and the redo of the entry gives back the
    axis with the recording. *)
Theorem X9_record_undo_redo :
  forall (name : string) (axis recorded : list Funscript.FunscriptAction)
         (first final : Funscript.FunscriptAction),
    ascending axis ->
    head recorded = Some first -> last recorded = Some final ->
    Forall (fun a => Funscript.at_ first <= Funscript.at_ a <= Funscript.at_ final)
      recorded ->
    exists axis' e,
      RecorderEdit.commit name axis recorded = Some (axis', e) /\
      ascending axis' /\
      RecorderEdit.undo axis' e = axis /\
      RecorderEdit.redo (RecorderEdit.undo axis' e) e = axis'.
Proof.
  intros name axis recorded first final Hax Hh Hl Hall.
  unfold RecorderEdit.commit. rewrite Hh, Hl. cbn [mbind option_bind].
  do 2 eexists. split; [reflexivity|].
  cbn [RecorderEdit.start_ms RecorderEdit.end_ms].
  destruct recorded as [|a0 rest]; [discriminate Hh|].
  simpl in Hh. inversion Hh. subst a0.
  assert (Hs : Funscript.at_ first ∈ Funscript.at_ <$> (first :: rest))
    by (rewrite fmap_cons; apply list_elem_of_here).
  assert (He : Funscript.at_ final ∈ Funscript.at_ <$> (first :: rest)).
  { apply list_elem_of_fmap_2. apply last_Some_elem_of. exact Hl. }
  destruct (add_actions_range axis first rest _ _ Hs He Hall) as [Emin Emax].
  assert (Eadd : FunscriptAxis.add_actions axis (first :: rest)
                 = Funscript.sort_actions
                     (FunscriptAxis.remove_actions_in_range axis
                        (Funscript.at_ first) (Funscript.at_ final)
                      ++ first :: rest)).
  { unfold FunscriptAxis.add_actions. rewrite Emin, Emax. reflexivity. }
  assert (Hundo : RecorderEdit.undo (FunscriptAxis.add_actions axis (first :: rest))
                    ("record",
                     RecorderEdit.mkSegment name (first :: rest)
                       (Funscript.at_ first) (Funscript.at_ final),
                     FunscriptAxis.get_actions_in_range axis
                       (Funscript.at_ first) (Funscript.at_ final)) = axis).
  { unfold RecorderEdit.undo.
    cbn [RecorderEdit.start_ms RecorderEdit.end_ms]. rewrite Eadd.
    apply restore_sorted; [exact Hax| |].
    - apply ascending_filter, sort_actions_ascending.
    - apply remove_of_added. exact Hall. }
  split; [rewrite Eadd; apply sort_actions_ascending|].
  split; [exact Hundo|]. rewrite Hundo. reflexivity.
Qed.

Lemma X9_witness :
  let axis := [Funscript.mkAction 0 10; Funscript.mkAction 500 50;
               Funscript.mkAction 900 20] in
  let recorded := [Funscript.mkAction 400 70; Funscript.mkAction 600 30] in
  ascending axis /\
  head recorded = Some (Funscript.mkAction 400 70) /\
  last recorded = Some (Funscript.mkAction 600 30) /\
  Forall (fun a => 400 <= Funscript.at_ a <= 600) recorded /\
  exists axis' e,
    RecorderEdit.commit "stroke" axis recorded = Some (axis', e) /\
    RecorderEdit.undo axis' e = axis.
Proof.
  intros axis recorded.
  assert (H1 : ascending axis).
  { simpl. repeat split; repeat constructor; simpl; lia. }
  assert (H2 : Forall (fun a => 400 <= Funscript.at_ a <= 600) recorded).
  { repeat constructor; simpl; lia. }
  refine (conj H1 (conj eq_refl (conj eq_refl (conj H2 _)))).
  destruct (X9_record_undo_redo "stroke" axis recorded _ _ H1 eq_refl eq_refl H2)
    as (axis' & e & E & _ & Hu & _).
  exists axis', e. split; [exact E | exact Hu].
Defined.

(** X10: [clear_range] over a range that holds no action changes nothing and
    pushes no entry; otherwise it removes exactly the actions inside the
    range.  On a sorted axis the undo of its entry restores the axis exactly;
    the redo of that entry then leaves the restored axis as it is (the range
    is not cleared again, the entry's segment holding no action). *)
Theorem X10_clear_range_undo :
  forall (name : string) (axis : list Funscript.FunscriptAction) (s e : Z),
    (FunscriptAxis.get_actions_in_range axis s e = [] ->
     RecorderEdit.clear_range name axis s e = (axis, None)) /\
    (FunscriptAxis.get_actions_in_range axis s e <> [] ->
     exists entry,
       RecorderEdit.clear_range name axis s e
       = (filter (fun a => ~ (s <= Funscript.at_ a <= e)) axis, Some entry) /\
       (ascending axis ->
        RecorderEdit.undo (filter (fun a => ~ (s <= Funscript.at_ a <= e)) axis) entry
        = axis /\
        RecorderEdit.redo axis entry = axis)).
Proof.
  intros name axis s e. unfold RecorderEdit.clear_range. split.
  - intros E. rewrite E. reflexivity.
  - intros Hne.
    destruct (FunscriptAxis.get_actions_in_range axis s e) as [|p ps] eqn:Eg;
      [contradiction|].
    eexists. split; [reflexivity|]. intros Hax. split; [|reflexivity].
    unfold RecorderEdit.undo. cbn [RecorderEdit.start_ms RecorderEdit.end_ms].
    rewrite <- Eg.
    assert (Hidem : FunscriptAxis.remove_actions_in_range
                      (filter (fun a => ~ (s <= Funscript.at_ a <= e)) axis) s e
                    = FunscriptAxis.remove_actions_in_range axis s e).
    { unfold FunscriptAxis.remove_actions_in_range, FunscriptAxis.in_range.
      rewrite list_filter_filter. apply list_filter_iff. intros a. tauto. }
    rewrite Hidem.
    pose proof (restore_sorted axis (FunscriptAxis.remove_actions_in_range axis s e)
                  s e Hax (ascending_filter _ _ Hax) (fun k => eq_refl)) as R.
    rewrite Eg in R. rewrite Eg. exact R.
Qed.

Lemma X10_witness :
  let axis := [Funscript.mkAction 0 10; Funscript.mkAction 500 50;
               Funscript.mkAction 900 20] in
  FunscriptAxis.get_actions_in_range axis 400 600 <> [] /\
  ascending axis /\
  exists entry,
    RecorderEdit.clear_range "stroke" axis 400 600
    = ([Funscript.mkAction 0 10; Funscript.mkAction 900 20], Some entry) /\
    RecorderEdit.undo [Funscript.mkAction 0 10; Funscript.mkAction 900 20] entry
    = axis.
Proof.
  intros axis.
  assert (H1 : FunscriptAxis.get_actions_in_range axis 400 600 <> [])
    by (vm_compute; discriminate).
  assert (H2 : ascending axis).
  { simpl. repeat split; repeat constructor; simpl; lia. }
  refine (conj H1 (conj H2 _)).
  destruct (proj2 (X10_clear_range_undo "stroke" axis 400 600) H1)
    as (entry & E & Hu).
  exists entry. split; [exact E|]. exact (proj1 (Hu H2)).
Defined.

(** ** Kalman filter *)

Section Kalman.
Import KalmanFilter1D.

Lemma kalman_update_seeded (self : t) (m : Q) :
  initialized self = true ->
  (0 <= process_noise self)%Q -> (0 < measurement_noise self)%Q ->
  (0 <= error self)%Q ->
  exists self' y,
    update self m = Some (self', y) /\
    initialized self' = true /\ estimate self' = y /\
    process_noise self' = process_noise self /\
    measurement_noise self' = measurement_noise self /\
    (0 <= error self')%Q /\
    (error self' <= error self + process_noise self)%Q /\
    between (estimate self) y m.
Proof.
  intros Hi Hp Hm He. unfold update. rewrite Hi. cbn [negb].
  set (pe := (error self + process_noise self)%Q).
  assert (Hpe : (0 <= pe)%Q) by (unfold pe; lra).
  rewrite fdiv_nonzero by lra. cbn [mbind option_bind].
  set (g := (pe / (pe + measurement_noise self))%Q).
  assert (Hg0 : (0 <= g)%Q) by (apply Qle_shift_div_l; lra).
  assert (Hg1 : (g <= 1)%Q) by (apply Qle_shift_div_r; lra).
  do 2 eexists. split; [reflexivity|].
  cbn [initialized estimate process_noise measurement_noise error].
  repeat (split; [reflexivity|]).
  assert (A : (0 <= (1 - g) * pe)%Q) by (apply Qmult_le_0_compat; lra).
  assert (B : (0 <= g * pe)%Q) by (apply Qmult_le_0_compat; lra).
  split; [exact A|]. split; [lra|].
  assert (E : (estimate self + g * (m - estimate self)
               == g * m + (1 - g) * estimate self)%Q) by ring.
  destruct (blend_between g m (estimate self) Hg0 Hg1) as [[H1 H2]|[H1 H2]];
    [left|right]; split; lra.
Qed.

Lemma kalman_run_seeded (ms : list Q) :
  forall self : t,
    initialized self = true ->
    (0 <= process_noise self)%Q -> (0 < measurement_noise self)%Q ->
    (0 <= error self)%Q ->
    exists outs,
      run self ms = Some outs /\ length outs = length ms /\
      forall (i : nat) (prev y m : Q),
        (estimate self :: outs) !! i = Some prev -> outs !! i = Some y ->
        ms !! i = Some m -> between prev y m.
Proof.
  induction ms as [|m0 rest IH]; intros self Hi Hp Hm He.
  - exists []. repeat split. intros i prev y m _ Hy. destruct i; discriminate Hy.
  - destruct (kalman_update_seeded self m0 Hi Hp Hm He)
      as (s' & y0 & Eu & Hi' & Hest & Hp' & Hm' & He' & _ & Hb).
    destruct (IH s' Hi' ltac:(rewrite Hp'; exact Hp) ltac:(rewrite Hm'; exact Hm) He')
      as (outs & Er & Hlen & Hchain).
    exists (y0 :: outs). cbn [run]. rewrite Eu. cbn [mbind option_bind fst snd].
    rewrite Er. cbn [mbind option_bind].
    split; [reflexivity|]. split; [simpl; f_equal; exact Hlen|].
    intros i prev y m Hprev Hy Hms. destruct i as [|i].
    + simpl in Hprev, Hy, Hms. inversion Hprev; inversion Hy; inversion Hms.
      subst. exact Hb.
    + simpl in Hprev, Hy, Hms. rewrite Hest in Hchain.
      apply (Hchain i prev y m); assumption.
Qed.

End Kalman.

(** X11: a KalmanFilter1D with [process_noise >= 0] and
    [measurement_noise > 0], reset and fed any stream of measurements, never
    raises (its gain never divides by zero); it returns its first measurement
    unchanged, and every later estimate lies between the estimate before it
    and the new measurement. *)
Theorem X11_kalman_between :
  forall (f0 : KalmanFilter1D.t) (m0 : Q) (rest : list Q),
    (0 <= KalmanFilter1D.process_noise f0)%Q ->
    (0 < KalmanFilter1D.measurement_noise f0)%Q ->
    exists outs,
      KalmanFilter1D.run (KalmanFilter1D.reset f0) (m0 :: rest) = Some outs /\
      length outs = S (length rest) /\
      outs !! 0%nat = Some m0 /\
      forall (i : nat) (prev y m : Q),
        outs !! i = Some prev -> outs !! S i = Some y -> rest !! i = Some m ->
        between prev y m.
Proof.
  intros f0 m0 rest Hp Hm.
  set (s1 := KalmanFilter1D.mk (KalmanFilter1D.process_noise f0)
               (KalmanFilter1D.measurement_noise f0) m0 1 true).
  destruct (kalman_run_seeded rest s1 eq_refl Hp Hm ltac:(simpl; lra))
    as (outs & Er & Hlen & Hchain).
  exists (m0 :: outs).
  change (KalmanFilter1D.run (KalmanFilter1D.reset f0) (m0 :: rest))
    with (outs' ← KalmanFilter1D.run s1 rest; Some (m0 :: outs')).
  rewrite Er. cbn [mbind option_bind].
  split; [reflexivity|]. split; [simpl; f_equal; exact Hlen|].
  split; [reflexivity|].
  intros i prev y m Hprev Hy Hms. apply (Hchain i prev y m); assumption.
Qed.

Lemma X11_witness :
  (0 <= KalmanFilter1D.process_noise (KalmanFilter1D.init (5 # 1000) (5 # 100)))%Q /\
  (0 < KalmanFilter1D.measurement_noise (KalmanFilter1D.init (5 # 1000) (5 # 100)))%Q /\
  exists outs,
    KalmanFilter1D.run
      (KalmanFilter1D.reset (KalmanFilter1D.init (5 # 1000) (5 # 100)))
      [1; 2; 3]%Q = Some outs /\
    length outs = 3%nat.
Proof.
  assert (Hp : (0 <= KalmanFilter1D.process_noise
                      (KalmanFilter1D.init (5 # 1000) (5 # 100)))%Q)
    by (intro E; discriminate E).
  assert (Hm : (0 < KalmanFilter1D.measurement_noise
                     (KalmanFilter1D.init (5 # 1000) (5 # 100)))%Q) by reflexivity.
  refine (conj Hp (conj Hm _)).
  destruct (X11_kalman_between (KalmanFilter1D.init (5 # 1000) (5 # 100)) 1
              [2; 3]%Q Hp Hm) as (outs & Er & Hlen & _).
  exists outs. split; [exact Er | exact Hlen].
Defined.

(** ** Recentering *)

Section Recenter.
Import VRControllerInput.




End Recenter.



(** ** Snapping time stamps to beats *)

Section Snapping.
Import Funscript BeatDetection BeatSnapping.

Lemma nearest_loop_spec (time_ms : Z) (points : list Z) :
  forall acc : Z * Z,
    let r := nearest_loop time_ms points acc in
    (r = acc /\ Forall (fun p => snd acc <= Z.abs (time_ms - p)) points) \/
    (fst r ∈ points /\ snd r = Z.abs (time_ms - fst r) /\ snd r < snd acc /\
     Forall (fun p => snd r <= Z.abs (time_ms - p)) points).
Proof.
  unfold nearest_loop.
  induction points as [|p points IH]; intros acc; cbn [fold_left].
  - left. split; [reflexivity|constructor].
  - cbv zeta.
    destruct (Z.ltb_spec (Z.abs (time_ms - p)) (snd acc)) as [Hlt|Hge].
    + right. destruct (IH (p, Z.abs (time_ms - p))) as [[E Hall]|(Hin & Hd & Hlt' & Hall)].
      * rewrite E. cbn [fst snd] in *. split; [apply list_elem_of_here|].
        split; [reflexivity|]. split; [exact Hlt|].
        constructor; [lia|exact Hall].
      * cbn [fst snd] in *. split; [apply list_elem_of_further, Hin|].
        split; [exact Hd|]. split; [lia|]. constructor; [lia|exact Hall].
    + destruct (IH acc) as [[E Hall]|(Hin & Hd & Hlt' & Hall)].
      * left. split; [exact E|]. constructor; [exact Hge|exact Hall].
      * right. split; [apply list_elem_of_further, Hin|].
        split; [exact Hd|]. split; [exact Hlt'|]. constructor; [lia|exact Hall].
Qed.

Lemma snap_in_spec (points : list Z) (time_ms tolerance_ms : Z) :
  let r := snap_in points time_ms tolerance_ms in
  (r = time_ms /\ Forall (fun p => tolerance_ms < Z.abs (time_ms - p)) points) \/
  (r ∈ points /\ Z.abs (time_ms - r) <= tolerance_ms /\
   Forall (fun p => Z.abs (time_ms - r) <= Z.abs (time_ms - p)) points).
Proof.
  cbv zeta. unfold snap_in. destruct points as [|p0 ps].
  - left. split; [reflexivity|constructor].
  - set (points := p0 :: ps).
    destruct (nearest_loop_spec time_ms points (time_ms, tolerance_ms + 1))
      as [[E Hall]|(Hin & Hd & Hlt & Hall)]; cbn [fst snd] in *.
    + rewrite E. cbn [fst snd].
      destruct (Z.leb_spec (tolerance_ms + 1) tolerance_ms) as [C|_]; [lia|].
      left. split; [reflexivity|].
      eapply Forall_impl; [exact Hall|]. intros p Hp. simpl in Hp. lia.
    + destruct (Z.leb_spec (snd (nearest_loop time_ms points
                                   (time_ms, tolerance_ms + 1))) tolerance_ms)
        as [Hle|C]; [|lia].
      right. split; [exact Hin|]. rewrite <- Hd. split; [exact Hle|exact Hall].
Qed.

Lemma snap_in_near (points : list Z) (time_ms tolerance_ms : Z) :
  Z.abs (snap_in points time_ms tolerance_ms - time_ms) <= Z.max 0 tolerance_ms.
Proof.
  destruct (snap_in_spec points time_ms tolerance_ms) as [[E _]|(_ & Hd & _)]; lia.
Qed.

Lemma snap_in_idempotent (points : list Z) (time_ms tolerance_ms : Z) :
  snap_in points (snap_in points time_ms tolerance_ms) tolerance_ms
  = snap_in points time_ms tolerance_ms.
Proof.
  destruct (snap_in_spec points time_ms tolerance_ms) as [[E _]|(Hin & Hd & _)].
  - rewrite E. exact E.
  - set (r := snap_in points time_ms tolerance_ms) in *.
    destruct (snap_in_spec points r tolerance_ms) as [[E _]|(_ & _ & Hall)];
      [exact E|].
    pose proof (proj1 (Forall_forall _ _) Hall r Hin) as H. simpl in H. lia.
Qed.

Lemma grid_raises (bd : BeatData) :
  subdivisions bd = 0 -> (2 <= length (beats bd))%nat -> get_beat_grid bd = None.
Proof.
  intros Hs Hlen. unfold get_beat_grid.
  destruct (Nat.ltb_spec (length (beats bd)) 2) as [C|_]; [lia|].
  destruct (beats bd) as [|a [|b bs]]; [simpl in Hlen; lia..|].
  rewrite Hs. reflexivity.
Qed.

Lemma snap_each_total (points : list Z) (tolerance_ms : Z)
    (actions : list FunscriptAction) :
  exists result,
    snap_each (fun t => Some (snap_in points t tolerance_ms)) actions = Some result /\
    Forall2 (fun a a' => pos a' = pos a /\
                         at_ a' = snap_in points (at_ a) tolerance_ms)
      actions result /\
    snap_each (fun t => Some (snap_in points t tolerance_ms)) result = Some result.
Proof.
  induction actions as [|a rest IH].
  - exists []. repeat split. constructor.
  - destruct IH as (result & E & Hall & Hidem).
    exists (mkAction (snap_in points (at_ a) tolerance_ms) (pos a) :: result).
    cbn [snap_each mbind option_bind at_ pos]. rewrite E.
    cbn [mbind option_bind]. split; [reflexivity|]. split.
    + constructor; [split; reflexivity|exact Hall].
    + rewrite Hidem. cbn [mbind option_bind]. rewrite snap_in_idempotent.
      reflexivity.
Qed.

End Snapping.

(** X13: [BeatData.snap_to_beat] returns either the time stamp it was given,
    and then every beat is farther from it than the tolerance, or a beat that
    lies within the tolerance and is at least as near as every other beat;
    [snap_to_grid] does the same over the points of the beat grid whenever
    the grid can be built.  The result is never farther from the given time
    than the tolerance, and snapping the result again returns it
    unchanged. *)
Theorem X13_snap_to_beat_nearest :
  forall (bd : BeatDetection.BeatData) (time_ms tolerance_ms : Z),
    let r := BeatSnapping.snap_to_beat bd time_ms tolerance_ms in
    ((r = time_ms /\
      Forall (fun b => tolerance_ms < Z.abs (time_ms - b)) (BeatDetection.beats bd)) \/
     (r ∈ BeatDetection.beats bd /\ Z.abs (time_ms - r) <= tolerance_ms /\
      Forall (fun b => Z.abs (time_ms - r) <= Z.abs (time_ms - b))
        (BeatDetection.beats bd))) /\
    Z.abs (r - time_ms) <= Z.max 0 tolerance_ms /\
    BeatSnapping.snap_to_beat bd r tolerance_ms = r /\
    forall grid,
      BeatDetection.get_beat_grid bd = Some grid ->
      exists g,
        BeatSnapping.snap_to_grid bd time_ms tolerance_ms = Some g /\
        ((g = time_ms /\ Forall (fun p => tolerance_ms < Z.abs (time_ms - p)) grid) \/
         (g ∈ grid /\ Z.abs (time_ms - g) <= tolerance_ms /\
          Forall (fun p => Z.abs (time_ms - g) <= Z.abs (time_ms - p)) grid)).
Proof.
  intros bd time_ms tolerance_ms r. unfold r, BeatSnapping.snap_to_beat.
  split; [apply snap_in_spec|]. split; [apply snap_in_near|].
  split; [apply snap_in_idempotent|].
  intros grid Eg. unfold BeatSnapping.snap_to_grid. rewrite Eg.
  cbn [mbind option_bind]. eexists. split; [reflexivity|]. apply snap_in_spec.
Qed.

(** X14: [snap_actions_to_beats] on the beats, or on the beat grid of beat
    data whose [subdivisions] is not zero, returns one action for each given
    action, with the same position and a time stamp no farther from the
    original than the tolerance; snapping its result again changes nothing.
    With the grid, two or more beats and [subdivisions = 0] it raises as soon
    as there is an action to snap. *)
Theorem X14_snap_actions_to_beats :
  forall (actions : list Funscript.FunscriptAction) (bd : BeatDetection.BeatData)
         (tolerance_ms : Z) (use_grid : bool),
    (use_grid = false \/ BeatDetection.subdivisions bd <> 0 ->
     exists result,
       BeatSnapping.snap_actions_to_beats actions bd tolerance_ms use_grid
       = Some result /\
       Forall2 (fun a a' =>
                  Funscript.pos a' = Funscript.pos a /\
                  Z.abs (Funscript.at_ a' - Funscript.at_ a) <= Z.max 0 tolerance_ms)
         actions result /\
       BeatSnapping.snap_actions_to_beats result bd tolerance_ms use_grid
       = Some result) /\
    (use_grid = true -> BeatDetection.subdivisions bd = 0 ->
     (2 <= length (BeatDetection.beats bd))%nat -> actions <> [] ->
     BeatSnapping.snap_actions_to_beats actions bd tolerance_ms use_grid = None).
Proof.
  intros actions bd tolerance_ms use_grid. split.
  - intros Hok. unfold BeatSnapping.snap_actions_to_beats.
    destruct (BeatDetection.beats bd) as [|b0 bs] eqn:Eb.
    { exists actions. split; [reflexivity|]. split; [|reflexivity].
      apply Forall2_same_length_lookup_2; [reflexivity|].
      intros i a a' Ha Ha'. rewrite Ha in Ha'. inversion Ha'. subst a'.
      split; [reflexivity|lia]. }
    assert (Hpoints : exists points,
               (if use_grid
                then fun t => BeatSnapping.snap_to_grid bd t tolerance_ms
                else fun t => Some (BeatSnapping.snap_to_beat bd t tolerance_ms))
               = fun t => Some (BeatSnapping.snap_in points t tolerance_ms)).
    { destruct use_grid.
      - destruct Hok as [C|Hs]; [discriminate C|].
        destruct (get_beat_grid_total bd Hs) as [g Eg]. exists g.
        unfold BeatSnapping.snap_to_grid. rewrite Eg. reflexivity.
      - exists (BeatDetection.beats bd). reflexivity. }
    destruct Hpoints as [points ->].
    destruct (snap_each_total points tolerance_ms actions)
      as (result & E & Hall & Hidem).
    exists result. split; [exact E|]. split; [|exact Hidem].
    eapply Forall2_impl; [exact Hall|]. intros a a' [Hp Ha].
    split; [exact Hp|]. rewrite Ha. apply snap_in_near.
  - intros -> Hs Hlen Hne. unfold BeatSnapping.snap_actions_to_beats.
    destruct (BeatDetection.beats bd) as [|b0 bs] eqn:Eb; [simpl in Hlen; lia|].
    destruct actions as [|a rest]; [contradiction|].
    cbn [BeatSnapping.snap_each]. unfold BeatSnapping.snap_to_grid.
    rewrite (grid_raises bd Hs ltac:(rewrite Eb; exact Hlen)). reflexivity.
Qed.

Lemma X14_witness :
  exists result,
    BeatSnapping.snap_actions_to_beats
      [Funscript.mkAction 30 10; Funscript.mkAction 480 90; Funscript.mkAction 700 40]
      (BeatDetection.mkBeatData [0; 500; 1000] [] 120 1 4) 50 false
    = Some result /\
    length result = 3%nat.
Proof.
  destruct (proj1 (X14_snap_actions_to_beats
                     [Funscript.mkAction 30 10; Funscript.mkAction 480 90;
                      Funscript.mkAction 700 40]
                     (BeatDetection.mkBeatData [0; 500; 1000] [] 120 1 4) 50 false)
              (or_introl eq_refl)) as (result & E & Hall & _).
  exists result. split; [exact E|].
  symmetry. exact (Forall2_length _ _ _ Hall).
Defined.

(** ** Smoothing *)

Section MovingAverage.
Import Smoothing.

Lemma range_elem (n i : Z) : i ∈ BeatDetection.range n -> 0 <= i < n.
Proof.
  unfold BeatDetection.range. intros H. apply list_elem_of_fmap in H.
  destruct H as (k & -> & Hk). apply elem_of_seq in Hk. lia.
Qed.

Lemma range_length (n : Z) : length (BeatDetection.range n) = Z.to_nat n.
Proof. unfold BeatDetection.range. rewrite length_map, length_seq. reflexivity. Qed.




Lemma window_nonzero (n half i : Z) :
  0 <= i < n -> Z.min n (i + half + 1) - Z.max 0 (i - half) <> 0.
Proof. lia. Qed.

Lemma moving_average_total (data : list Q) (window : Z) :
  exists result,
    _moving_average data window = Some result /\ length result = length data.
Proof.
  assert (H : is_Some (_moving_average data window)).
  { unfold _moving_average. apply mapM_is_Some_2. apply Forall_forall.
    intros i Hi. apply range_elem in Hi. cbv zeta. unfold compose.
    rewrite fdiv_nonzero; [eexists; reflexivity|].
    apply inject_Z_nonzero, window_nonzero, Hi. }
  destruct H as [result E]. exists result. split; [exact E|].
  unfold _moving_average in E. apply length_mapM in E.
  rewrite range_length in E. lia.
Qed.



End MovingAverage.


Section ApplySmoothing.
Import Funscript FunscriptAxis RecorderEdit Smoothing.

Lemma smoothed_pos_range (new_pos : Q) : 0 <= smoothed_pos new_pos <= 100.
Proof. unfold smoothed_pos. lia. Qed.

Lemma assign_rel (target : list FunscriptAction) :
  forall smoothed : list Q,
    Forall2 (fun a a' => at_ a' = at_ a /\ (a' = a \/ 0 <= pos a' <= 100))
      target (assign target smoothed).
Proof.
  induction target as [|a target IH]; intros smoothed.
  - destruct smoothed; constructor.
  - destruct smoothed as [|p smoothed]; cbn [assign].
    + apply Forall2_same_length_lookup_2; [reflexivity|].
      intros i x y Hx Hy. rewrite Hx in Hy. inversion Hy.
      split; [reflexivity|left; reflexivity].
    + constructor; [|apply IH].
      cbn [at_ pos]. split; [reflexivity|right; apply smoothed_pos_range].
Qed.

Lemma write_back_rel (s e : Z) (axis : list FunscriptAction) :
  forall updated : list FunscriptAction,
    Forall2 (fun a a' => at_ a' = at_ a /\ (a' = a \/ 0 <= pos a' <= 100))
      (get_actions_in_range axis s e) updated ->
    Forall2 (fun a a' => (at_ a' = at_ a /\ (a' = a \/ 0 <= pos a' <= 100)) /\
                         (~ in_range s e a -> a' = a))
      axis (write_back s e axis updated).
Proof.
  unfold get_actions_in_range.
  induction axis as [|a axis IH]; intros updated H; cbn [write_back];
    [constructor|].
  rewrite filter_cons in H. destruct (decide (in_range s e a)) as [Hin|Hout].
  - inversion H as [|? u ? us Hu Hus]; subst.
    constructor; [|apply IH, Hus].
    split; [exact Hu|]. intros C. contradiction.
  - constructor; [|apply IH, H].
    split; [split; [reflexivity|left; reflexivity]|reflexivity].
Qed.

Lemma remove_after_write_back (s e : Z) (axis axis' : list FunscriptAction) :
  Forall2 (fun a a' => (at_ a' = at_ a /\ (a' = a \/ 0 <= pos a' <= 100)) /\
                       (~ in_range s e a -> a' = a)) axis axis' ->
  remove_actions_in_range axis' s e = remove_actions_in_range axis s e.
Proof.
  unfold remove_actions_in_range.
  induction 1 as [|a a' axis axis' [[Hat _] Hout] _ IH]; [reflexivity|].
  rewrite !filter_cons, IH.
  destruct (decide (~ in_range s e a)) as [Ha|Ha];
    destruct (decide (~ in_range s e a')) as [Ha'|Ha'].
  - rewrite (Hout Ha). reflexivity.
  - exfalso. apply Ha'. unfold in_range in *. rewrite Hat. exact Ha.
  - exfalso. apply Ha. unfold in_range in *. rewrite <- Hat. exact Ha'.
  - reflexivity.
Qed.

Lemma ascending_last (l : list FunscriptAction) (z : FunscriptAction) :
  ascending l -> last l = Some z -> Forall (fun a => at_ a <= at_ z) l.
Proof.
  induction l as [|a l IH]; intros Hasc Hl; [constructor|].
  destruct Hasc as [Ha Hasc]. destruct l as [|b l].
  - simpl in Hl. inversion Hl. subst z. constructor; [lia|constructor].
  - change (last (a :: b :: l)) with (last (b :: l)) in Hl.
    constructor; [|apply IH; assumption].
    apply last_Some_elem_of in Hl.
    exact (proj1 (Forall_forall _ _) Ha z Hl).
Qed.

Lemma ascending_span (first : FunscriptAction) (rest : list FunscriptAction) :
  ascending (first :: rest) ->
  Forall (in_range (at_ first) (at_ (default first (last (first :: rest)))))
    (first :: rest).
Proof.
  intros Hasc.
  destruct (last (first :: rest)) as [z|] eqn:El;
    [|apply last_None in El; discriminate El].
  pose proof (ascending_last _ z Hasc El) as Hhi.
  destruct Hasc as [Hlo _].
  assert (Hlo' : Forall (fun a => at_ first <= at_ a) (first :: rest))
    by (constructor; [lia|exact Hlo]).
  apply Forall_forall. intros a Ha. unfold in_range.
  pose proof (proj1 (Forall_forall _ _) Hlo' a Ha) as L.
  pose proof (proj1 (Forall_forall _ _) Hhi a Ha) as U.
  simpl in L, U. unfold default, from_option, id. lia.
Qed.

Lemma filter_all {A : Type} (P : A -> Prop) `{forall x, Decision (P x)}
    (l : list A) :
  Forall P l -> filter P l = l.
Proof.
  induction 1 as [|x l Hx _ IH]; [reflexivity|].
  rewrite filter_cons, IH. destruct (decide (P x)); [reflexivity|contradiction].
Qed.

Lemma filter_none {A : Type} (P : A -> Prop) `{forall x, Decision (P x)}
    (l : list A) :
  Forall P l -> filter (fun x => ~ P x) l = [].
Proof.
  induction 1 as [|x l Hx _ IH]; [reflexivity|].
  rewrite filter_cons, IH. destruct (decide (~ P x)); [contradiction|reflexivity].
Qed.

Lemma same_times_in_range (s e : Z) (axis axis' : list FunscriptAction) :
  Forall2 (fun a a' => at_ a' = at_ a /\ (a' = a \/ 0 <= pos a' <= 100))
    axis axis' ->
  Forall (in_range s e) axis -> Forall (in_range s e) axis'.
Proof.
  induction 1 as [|a a' axis axis' [Hat _] _ IH]; intros Hall; [constructor|].
  apply Forall_cons in Hall. destruct Hall as [Ha Hall].
  constructor; [|apply IH, Hall]. unfold in_range in *. rewrite Hat. exact Ha.
Qed.

Lemma unchanged_rel (axis : list FunscriptAction) :
  Forall2 (fun a a' => at_ a' = at_ a /\ (a' = a \/ 0 <= pos a' <= 100)) axis axis.
Proof.
  apply Forall2_same_length_lookup_2; [reflexivity|].
  intros i x y Hx Hy. rewrite Hx in Hy. inversion Hy.
  split; [reflexivity|left; reflexivity].
Qed.

End ApplySmoothing.

(** X16: [Recorder.apply_smoothing] never raises.  It keeps the number of
    actions of the axis and every time stamp; an action is either left as it
    was or gets a position between 0 and 100, and with a time range the
    actions outside the range are left as they were.  When the axis has fewer
    actions than the window nothing changes and nothing is pushed on the undo
    stack.  On an axis sorted by time stamp, undoing the entry that was
    pushed restores the axis exactly. *)
Theorem X16_apply_smoothing :
  forall (name : string) (axis : list Funscript.FunscriptAction)
         (window_size : Z) (start_ms end_ms : option Z),
    exists (axis' : list Funscript.FunscriptAction)
           (pushed : option RecorderEdit.entry),
      Smoothing.apply_smoothing name axis window_size start_ms end_ms
      = Some (axis', pushed) /\
      Forall2 (fun a a' =>
                 Funscript.at_ a' = Funscript.at_ a /\
                 (a' = a \/ 0 <= Funscript.pos a' <= 100)) axis axis' /\
      (forall s e, start_ms = Some s -> end_ms = Some e ->
                   Forall2 (fun a a' => ~ (s <= Funscript.at_ a <= e) -> a' = a)
                     axis axis') /\
      (pushed = None -> axis' = axis) /\
      (Z.of_nat (length axis) < window_size -> pushed = None) /\
      (forall entry, pushed = Some entry -> ascending axis ->
                     RecorderEdit.undo axis' entry = axis).
Proof.
  intros name axis window_size start_ms end_ms.
  destruct axis as [|first rest].
  { exists [], None. split; [reflexivity|]. split; [constructor|].
    split; [intros; constructor|]. split; [reflexivity|].
    split; [reflexivity|]. intros entry C. discriminate C. }
  set (axis := first :: rest).
  assert (Hsame : forall (P : Funscript.FunscriptAction ->
                              Funscript.FunscriptAction -> Prop),
             (forall a, P a a) -> Forall2 P axis axis).
  { intros P HP. apply Forall2_same_length_lookup_2; [reflexivity|].
    intros i x y Hx Hy. rewrite Hx in Hy. inversion Hy. apply HP. }
  unfold Smoothing.apply_smoothing. fold axis.
  destruct (Smoothing.ranged start_ms end_ms) as [[s e]|] eqn:Er.
  - assert (Hse : start_ms = Some s /\ end_ms = Some e).
    { destruct start_ms, end_ms; simpl in Er; inversion Er. split; reflexivity. }
    destruct Hse as [-> ->]. cbv zeta.
    set (target := FunscriptAxis.get_actions_in_range axis s e).
    assert (Hlen : (length target <= length axis)%nat)
      by apply length_filter.
    destruct (Z.ltb_spec (Z.of_nat (length target)) window_size) as [Hlt|Hge].
    + exists axis, None. split; [reflexivity|]. split; [apply unchanged_rel|].
      split; [intros; apply Hsame; reflexivity|]. split; [reflexivity|].
      split; [reflexivity|]. intros entry C. discriminate C.
    + destruct (moving_average_total
                  (map (fun a => inject_Z (Funscript.pos a)) target) window_size)
        as (smoothed & Esm & _).
      rewrite Esm. cbn [mbind option_bind].
      pose proof (write_back_rel s e axis (Smoothing.assign target smoothed)
                    (assign_rel target smoothed)) as W.
      do 2 eexists. split; [reflexivity|]. split.
      { eapply Forall2_impl; [exact W|]. intros a a' [H _]. exact H. }
      split.
      { intros s' e' Es Ee. inversion Es. inversion Ee. subst s' e'.
        eapply Forall2_impl; [exact W|]. intros a a' [_ H]. exact H. }
      split; [intros C; discriminate C|]. split; [lia|].
      intros entry Ee Hasc. inversion Ee. subst entry.
      unfold RecorderEdit.undo.
      cbn [RecorderEdit.start_ms RecorderEdit.end_ms].
      rewrite (remove_after_write_back s e axis _ W).
      exact (restore_sorted axis (FunscriptAxis.remove_actions_in_range axis s e)
               s e Hasc (ascending_filter _ _ Hasc) (fun k => eq_refl)).
  - cbv zeta.
    destruct (Z.ltb_spec (Z.of_nat (length axis)) window_size) as [Hlt|Hge].
    + exists axis, None. split; [reflexivity|]. split; [apply unchanged_rel|].
      split; [intros; apply Hsame; reflexivity|]. split; [reflexivity|].
      split; [reflexivity|]. intros entry C. discriminate C.
    + destruct (moving_average_total
                  (map (fun a => inject_Z (Funscript.pos a)) axis) window_size)
        as (smoothed & Esm & _).
      rewrite Esm. cbn [mbind option_bind].
      pose proof (assign_rel axis smoothed) as W.
      do 2 eexists. split; [reflexivity|]. split; [exact W|].
      split.
      { intros s' e' -> ->. discriminate Er. }
      split; [intros C; discriminate C|]. split; [lia|].
      intros entry Ee Hasc. inversion Ee. subst entry.
      unfold RecorderEdit.undo.
      cbn [RecorderEdit.start_ms RecorderEdit.end_ms].
      set (s := Funscript.at_ first).
      set (e := Funscript.at_ (default first (last axis))).
      pose proof (ascending_span first rest Hasc) as Hspan. fold axis s e in Hspan.
      pose proof (same_times_in_range s e axis _ W Hspan) as Hspan'.
      unfold FunscriptAxis.remove_actions_in_range.
      rewrite (filter_none _ _ Hspan').
      pose proof (restore_sorted axis (FunscriptAxis.remove_actions_in_range axis s e)
                    s e Hasc (ascending_filter _ _ Hasc) (fun k => eq_refl)) as R.
      unfold FunscriptAxis.get_actions_in_range in R.
      rewrite (filter_all _ _ Hspan) in R.
      unfold FunscriptAxis.remove_actions_in_range in R.
      rewrite (filter_none _ _ Hspan) in R. exact R.
Qed.

(** ** The beat grid *)

Section BeatGrid.
Import BeatDetection.

Lemma int_mono (x y : Q) : (x <= y)%Q -> Py.int x <= Py.int y.
Proof.
  intros Hxy. unfold Py.int.
  destruct (Qle_bool 0 x) eqn:Ex; destruct (Qle_bool 0 y) eqn:Ey.
  - apply Qfloor_resp_le, Hxy.
  - apply Qle_bool_iff in Ex. apply Qle_bool_false in Ey. lra.
  - apply Qle_bool_false in Ex. apply Qle_bool_iff in Ey.
    assert (H1 : Qceiling x <= 0).
    { change 0 with (Qceiling 0). apply Qceiling_resp_le. lra. }
    assert (H2 : 0 <= Qfloor y).
    { change 0 with (Qfloor 0). apply Qfloor_resp_le. exact Ey. }
    lia.
  - apply Qceiling_resp_le, Hxy.
Qed.

(** The points of the grid between two consecutive beats. *)
Lemma segment_spec (start end_ s : Z) :
  0 < s ->
  let step := (inject_Z (end_ - start) / inject_Z s)%Q in
  let seg := map (fun k => Py.int (inject_Z start + inject_Z k * step)) (range s) in
  length seg = Z.to_nat s /\
  seg !! 0%nat = Some start /\
  (start <= end_ ->
   StronglySorted Z.le seg /\ Forall (fun x => start <= x <= end_) seg).
Proof.
  intros Hs step seg.
  assert (Hsq : (0 < inject_Z s)%Q)
    by (change 0%Q with (inject_Z 0); rewrite <- Zlt_Qlt; exact Hs).
  split; [unfold seg; rewrite length_map; apply range_length|]. split.
  - unfold seg, range. destruct (Z.to_nat s) as [|n] eqn:En; [lia|].
    cbn [seq map lookup list_lookup]. f_equal.
    rewrite <- (int_inject start) at 2. apply int_compat.
    change (inject_Z (Z.of_nat 0)) with 0%Q. ring.
  - intros Hle.
    assert (Hd : (0 <= inject_Z (end_ - start))%Q)
      by (change 0%Q with (inject_Z 0); rewrite <- Zle_Qle; lia).
    assert (Hstep : (0 <= step)%Q) by (apply Qle_shift_div_l; lra).
    assert (Hfull : (inject_Z s * step == inject_Z (end_ - start))%Q).
    { unfold step. field. lra. }
    split.
    + unfold seg, range. rewrite <- list_fmap_compose.
      apply (StronglySorted_fmap _ lt).
      * intros i j Hij. unfold compose. apply int_mono.
        assert (Hq : (inject_Z (Z.of_nat i) <= inject_Z (Z.of_nat j))%Q)
          by (rewrite <- Zle_Qle; lia).
        assert (Hm : (inject_Z (Z.of_nat i) * step
                      <= inject_Z (Z.of_nat j) * step)%Q)
          by (apply Qmult_le_compat_r; assumption).
        lra.
      * generalize 0%nat. induction (Z.to_nat s) as [|n IH]; intros a;
          cbn [seq]; constructor; [apply IH|].
        apply Forall_forall. intros x Hx. apply elem_of_seq in Hx. lia.
    + unfold seg. apply Forall_forall. intros x Hx.
      apply list_elem_of_fmap in Hx. destruct Hx as (k & -> & Hk).
      apply range_elem in Hk.
      assert (Hk0 : (0 <= inject_Z k)%Q)
        by (change 0%Q with (inject_Z 0); rewrite <- Zle_Qle; lia).
      assert (Hks : (inject_Z k <= inject_Z s)%Q) by (rewrite <- Zle_Qle; lia).
      assert (Hlo : (0 <= inject_Z k * step)%Q)
        by (apply Qmult_le_0_compat; assumption).
      assert (Hhi : (inject_Z k * step <= inject_Z s * step)%Q)
        by (apply Qmult_le_compat_r; assumption).
      assert (Hsub : (inject_Z (end_ - start) == inject_Z end_ - inject_Z start)%Q).
      { unfold Z.sub. rewrite inject_Z_plus, inject_Z_opp. reflexivity. }
      rewrite Hsub in Hfull.
      split.
      * rewrite <- (int_inject start) at 1. apply int_mono. lra.
      * rewrite <- (int_inject end_). apply int_mono. lra.
Qed.

Lemma grid_segments_cons (a b : Z) (bs : list Z) (s : Z) :
  s <> 0 ->
  grid_segments (a :: b :: bs) s
  = rest ← grid_segments (b :: bs) s;
    Some (map (fun k => Py.int (inject_Z a + inject_Z k
                                * (inject_Z (b - a) / inject_Z s)))
              (range s) ++ rest).
Proof.
  intros Hs.
  change (grid_segments (a :: b :: bs) s)
    with (step ← Py.fdiv (inject_Z (b - a)) (inject_Z s);
          rest ← grid_segments (b :: bs) s;
          Some (map (fun k => Py.int (inject_Z a + inject_Z k * step))
                  (range s) ++ rest)).
  rewrite (fdiv_nonzero _ _ (inject_Z_nonzero s Hs)). reflexivity.
Qed.

(** The grid over the beats [b :: bs], the last beat included. *)
Lemma grid_spec (s : Z) (bs : list Z) :
  s <> 0 ->
  forall b : Z,
    exists g,
      grid_segments (b :: bs) s = Some g /\
      length g = (length bs * Z.to_nat s)%nat /\
      (0 < s ->
       (forall i : nat,
           (g ++ [default b (last (b :: bs))]) !! (i * Z.to_nat s)%nat
           = (b :: bs) !! i) /\
       (StronglySorted Z.le (b :: bs) ->
        StronglySorted Z.le (g ++ [default b (last (b :: bs))]) /\
        Forall (fun x => b <= x <= default b (last (b :: bs)))
          (g ++ [default b (last (b :: bs))]))).
Proof.
  intros Hs. induction bs as [|b2 bs IH]; intros b.
  - exists []. split; [reflexivity|]. split; [reflexivity|]. intros Hpos.
    cbn [last default from_option app]. unfold id. split.
    + intros [|i]; [reflexivity|].
      assert (H : (1 <= S i * Z.to_nat s)%nat) by nia.
      destruct (S i * Z.to_nat s)%nat; [lia|reflexivity].
    + intros _. split; [repeat constructor|]. repeat constructor; lia.
  - destruct (IH b2) as (g & Eg & Hlen & Hrest).
    rewrite (grid_segments_cons b b2 bs s Hs), Eg. cbn [mbind option_bind].
    set (seg := map (fun k => Py.int (inject_Z b + inject_Z k
                                      * (inject_Z (b2 - b) / inject_Z s)))
                  (range s)).
    assert (Hseglen : length seg = Z.to_nat s)
      by (unfold seg; rewrite length_map; apply range_length).
    exists (seg ++ g). split; [reflexivity|]. split.
    { rewrite length_app, Hseglen, Hlen. simpl. lia. }
    intros Hpos. destruct (Hrest Hpos) as [Hbeats Hsorted].
    destruct (segment_spec b b2 s Hpos) as (_ & Hhead & Hseg). fold seg in Hhead, Hseg.
    change (last (b :: b2 :: bs)) with (last (b2 :: bs)).
    assert (Hlast : default b (last (b2 :: bs)) = default b2 (last (b2 :: bs))).
    { destruct (last (b2 :: bs)) eqn:El; [reflexivity|].
      apply last_None in El. discriminate El. }
    rewrite Hlast. set (final := default b2 (last (b2 :: bs))) in *.
    rewrite <- app_assoc. split.
    + intros [|i].
      * rewrite lookup_app_l by (rewrite Hseglen; lia). exact Hhead.
      * replace (S i * Z.to_nat s)%nat with (length seg + i * Z.to_nat s)%nat
          by (rewrite Hseglen; lia).
        rewrite lookup_app_r by lia.
        replace (length seg + i * Z.to_nat s - length seg)%nat
          with (i * Z.to_nat s)%nat by lia.
        rewrite Hbeats. reflexivity.
    + intros Hasc. apply StronglySorted_inv in Hasc. destruct Hasc as [Hasc Hb].
      destruct (Hsorted Hasc) as [Hs2 Hb2].
      assert (Hbb2 : b <= b2).
      { apply (proj1 (Forall_forall _ _) Hb). apply list_elem_of_here. }
      destruct (Hseg Hbb2) as [Hs1 Hb1].
      assert (Hfin : b2 <= final).
      { assert (Hin : final ∈ g ++ [final])
          by (apply elem_of_app; right; apply list_elem_of_here).
        pose proof (proj1 (Forall_forall _ _) Hb2 final Hin) as H. simpl in H. lia. }
      split.
      * apply StronglySorted_app_2; [|exact Hs1|exact Hs2].
        intros x1 x2 H1 H2.
        pose proof (proj1 (Forall_forall _ _) Hb1 x1 H1) as B1.
        pose proof (proj1 (Forall_forall _ _) Hb2 x2 H2) as B2.
        simpl in B1, B2. lia.
      * apply Forall_app. split.
        -- eapply Forall_impl; [exact Hb1|]. intros x Hx. simpl in Hx. lia.
        -- eapply Forall_impl; [exact Hb2|]. intros x Hx. simpl in Hx. lia.
Qed.

End BeatGrid.

(** X17: with at least two beats and [subdivisions] other than zero,
    [BeatData.get_beat_grid] returns a grid of
    [(len(beats) - 1) * max(subdivisions, 0) + 1] points.  With a positive
    [subdivisions] every beat is a grid point, the beat number [i] being the
    grid point number [i * subdivisions]; if moreover the beats are in
    ascending order, so is the grid, and every grid point lies between the
    first and the last beat. *)
Theorem X17_beat_grid_shape :
  forall (bd : BeatDetection.BeatData) (first final : Z),
    (2 <= length (BeatDetection.beats bd))%nat ->
    BeatDetection.subdivisions bd <> 0 ->
    head (BeatDetection.beats bd) = Some first ->
    last (BeatDetection.beats bd) = Some final ->
    exists grid,
      BeatDetection.get_beat_grid bd = Some grid /\
      length grid
      = ((length (BeatDetection.beats bd) - 1)
         * Z.to_nat (BeatDetection.subdivisions bd) + 1)%nat /\
      (0 < BeatDetection.subdivisions bd ->
       (forall i : nat,
           grid !! (i * Z.to_nat (BeatDetection.subdivisions bd))%nat
           = BeatDetection.beats bd !! i) /\
       (StronglySorted Z.le (BeatDetection.beats bd) ->
        StronglySorted Z.le grid /\
        Forall (fun x => first <= x <= final) grid)).
Proof.
  intros bd first final Hlen Hs Hh Hl. unfold BeatDetection.get_beat_grid.
  destruct (Nat.ltb_spec (length (BeatDetection.beats bd)) 2) as [C|_]; [lia|].
  destruct (BeatDetection.beats bd) as [|b bs] eqn:Eb; [discriminate Hh|].
  simpl in Hh. inversion Hh. subst b.
  destruct (grid_spec (BeatDetection.subdivisions bd) bs Hs first)
    as (g & Eg & Hglen & Hrest).
  rewrite Eg, Hl. cbn [mbind option_bind].
  rewrite Hl in Hrest. cbn [default from_option] in Hrest. unfold id in Hrest.
  exists (g ++ [final]). split; [reflexivity|]. split.
  - rewrite length_app, Hglen. simpl. lia.
  - exact Hrest.
Qed.

Lemma X17_witness :
  exists grid,
    BeatDetection.get_beat_grid (BeatDetection.mkBeatData [0; 1000; 2000] [] 120 1 4)
    = Some grid /\
    length grid = 9%nat /\
    StronglySorted Z.le grid.
Proof.
  destruct (X17_beat_grid_shape
              (BeatDetection.mkBeatData [0; 1000; 2000] [] 120 1 4) 0 2000
              ltac:(simpl; lia) ltac:(simpl; lia) eq_refl eq_refl)
    as (grid & E & Hlen & Hrest).
  exists grid. split; [exact E|]. split; [exact Hlen|].
  apply (proj2 (Hrest ltac:(simpl; lia))).
  repeat constructor; simpl; lia.
Defined.

(** ** A recording session *)

Section Session.
Import Funscript Recorder RecorderSession.

Lemma add_sample_axis_fields (vt : Z) (mp : gmap string Z) (s : Recorder.t)
    (b : string) :
  is_recording (add_sample_axis vt mp s b) = is_recording s /\
  active_axes (add_sample_axis vt mp s b) = active_axes s.
Proof.
  unfold add_sample_axis. destruct (mp !! controller_axis b); [|split; reflexivity].
  destruct (_ && _); split; reflexivity.
Qed.

Lemma add_sample_fields (vt : Z) (mp : gmap string Z) (s : Recorder.t) :
  is_recording (add_sample s vt mp) = is_recording s /\
  active_axes (add_sample s vt mp) = active_axes s.
Proof.
  unfold add_sample. destruct (negb (is_recording s)); [split; reflexivity|].
  generalize (elements (active_axes s)). intros l. revert s.
  induction l as [|b l IH]; intros s; [split; reflexivity|].
  cbn [fold_left]. destruct (IH (add_sample_axis vt mp s b)) as [H1 H2].
  destruct (add_sample_axis_fields vt mp s b) as [F1 F2].
  rewrite H1, H2, F1, F2. split; reflexivity.
Qed.

Lemma feed_snoc (s : Recorder.t) (samples : list (Z * gmap string Z))
    (x : Z * gmap string Z) :
  feed s (samples ++ [x]) = add_sample (feed s samples) (fst x) (snd x).
Proof. unfold feed. rewrite fold_left_app. reflexivity. Qed.

Lemma last_time_snoc (buffer : list FunscriptAction) (a : FunscriptAction) :
  last_time (buffer ++ [a]) = at_ a.
Proof. unfold last_time. rewrite last_snoc. reflexivity. Qed.

Lemma spaced_snoc (interval : Z) (buffer : list FunscriptAction)
    (a : FunscriptAction) :
  spaced interval buffer ->
  (0 <= last_time buffer -> interval <= at_ a - last_time buffer) ->
  spaced interval (buffer ++ [a]).
Proof.
  intros Hsp Hnew i x y Hx Hy Hpos.
  destruct (decide (S i < length buffer)%nat) as [Hlt|Hge].
  - rewrite lookup_app_l in Hx by lia. rewrite lookup_app_l in Hy by lia.
    exact (Hsp i x y Hx Hy Hpos).
  - assert (Hi : (i < length buffer)%nat).
    { apply lookup_lt_Some in Hy. rewrite length_app in Hy. simpl in Hy. lia. }
    rewrite lookup_app_l in Hx by lia.
    rewrite lookup_app_r in Hy by lia.
    replace (S i - length buffer)%nat with 0%nat in Hy by lia.
    simpl in Hy. inversion Hy. subst y.
    assert (Hl : last buffer = Some x).
    { rewrite last_lookup. replace (pred (length buffer)) with i by lia. exact Hx. }
    unfold last_time in Hnew. rewrite Hl in Hnew. apply Hnew, Hpos.
Qed.

(** What holds of the buffer of an active axis throughout a session. *)
Lemma feed_invariant (s0 : Recorder.t) (a : string)
    (samples : list (Z * gmap string Z)) :
  is_recording s0 = true -> a ∈ active_axes s0 ->
  _buffer s0 !! a = Some [] -> _last_sample_time s0 !! a = Some (-1) ->
  let s := feed s0 samples in
  is_recording s = true /\ active_axes s = active_axes s0 /\
  min_interval_ms s = min_interval_ms s0 /\
  exists buffer,
    _buffer s !! a = Some buffer /\
    _last_sample_time s !! a = Some (last_time buffer) /\
    Forall (fun x => 0 <= pos x <= 100) buffer /\
    spaced (min_interval_ms s0) buffer /\
    sublist (at_ <$> buffer) (fst <$> samples).
Proof.
  intros Hr Hin Hb Hl. cbv zeta.
  induction samples as [|x samples IH] using rev_ind.
  - split; [exact Hr|]. split; [reflexivity|]. split; [reflexivity|].
    exists []. split; [exact Hb|]. split; [exact Hl|]. split; [constructor|].
    split; [|constructor].
    intros i u v Hu. destruct i; discriminate Hu.
  - destruct IH as (Hr' & Ha' & Hm' & buffer & Eb & El & Hpos & Hsp & Hsub).
    rewrite feed_snoc. set (s := feed s0 samples) in *.
    destruct (add_sample_fields (fst x) (snd x) s) as [F1 F2].
    assert (Hin' : a ∈ active_axes s) by (rewrite Ha'; exact Hin).
    pose proof (add_sample_agree (fst x) (snd x) s a Hr') as Hag.
    destruct (decide (a ∈ active_axes s)) as [_|C]; [|contradiction].
    destruct Hag as (Gb & Gl & Gm).
    split; [rewrite F1; exact Hr'|]. split; [rewrite F2; exact Ha'|].
    split; [rewrite Gm; unfold add_sample_axis;
            destruct (snd x !! controller_axis a);
            [destruct (_ && _)|]; exact Hm'|].
    rewrite Gb, Gl. unfold add_sample_axis.
    assert (Hkeep : sublist (at_ <$> buffer) (fst <$> samples ++ [x])).
    { rewrite fmap_app. apply sublist_inserts_r. exact Hsub. }
    destruct (snd x !! controller_axis a) as [p|].
    2:{ exists buffer. repeat (split; [assumption|]). exact Hkeep. }
    rewrite El. cbn [default from_option]. unfold id.
    destruct (Z.leb_spec 0 (last_time buffer)) as [H0|H0];
      [destruct (Z.ltb_spec (fst x - last_time buffer) (min_interval_ms s))
         as [H1|H1]|]; cbn [andb].
    + exists buffer. repeat (split; [assumption|]). exact Hkeep.
    + exists (buffer ++ [mkAction (fst x) (Z.max 0 (Z.min 100 p))]).
      cbn [_buffer _last_sample_time]. rewrite !lookup_insert_eq, Eb.
      cbn [default from_option]. unfold id.
      split; [reflexivity|]. split; [rewrite last_time_snoc; reflexivity|].
      split; [apply Forall_app; split; [exact Hpos|repeat constructor; simpl; lia]|].
      split; [apply spaced_snoc; [exact Hsp|cbn [at_]; lia]|].
      rewrite !fmap_app. apply sublist_app; [exact Hsub|reflexivity].
    + exists (buffer ++ [mkAction (fst x) (Z.max 0 (Z.min 100 p))]).
      cbn [_buffer _last_sample_time]. rewrite !lookup_insert_eq, Eb.
      cbn [default from_option]. unfold id.
      split; [reflexivity|]. split; [rewrite last_time_snoc; reflexivity|].
      split; [apply Forall_app; split; [exact Hpos|repeat constructor; simpl; lia]|].
      split; [apply spaced_snoc; [exact Hsp|cbn [at_]; lia]|].
      rewrite !fmap_app. apply sublist_app; [exact Hsub|reflexivity].
Qed.

End Session.

(** X18: throughout a recording session (any calls of [add_sample] after
    [start_recording]) the buffer of every active axis holds only positions
    between 0 and 100; its time stamps are video times of the samples, in
    the order of the calls; and two consecutive buffered actions are at least
    [min_interval_ms] apart unless the earlier one has a negative time stamp.
    After [cancel_recording] the buffers are empty and further samples are
    ignored. *)
Theorem X18_recording_session :
  forall (self : Recorder.t) (video_time_ms : Z)
         (samples : list (Z * gmap string Z)) (axis : string),
    axis ∈ Recorder.active_axes self ->
    let session :=
      RecorderSession.feed (Recorder.start_recording self video_time_ms) samples in
    (exists buffer,
        Recorder._buffer session !! axis = Some buffer /\
        Forall (fun a => 0 <= Funscript.pos a <= 100) buffer /\
        sublist (Funscript.at_ <$> buffer) (fst <$> samples) /\
        RecorderSession.spaced (Recorder.min_interval_ms self) buffer) /\
    forall more : list (Z * gmap string Z),
      Recorder._buffer
        (RecorderSession.feed (RecorderSession.cancel_recording session) more) = ∅.
Proof.
  intros self video_time_ms samples axis Hin session. split.
  - destruct (feed_invariant (Recorder.start_recording self video_time_ms) axis
                samples eq_refl Hin)
      as (_ & _ & _ & buffer & Eb & _ & Hpos & Hsp & Hsub).
    + cbn [Recorder.start_recording Recorder._buffer].
      apply lookup_gset_to_gmap_Some. split; [exact Hin|reflexivity].
    + cbn [Recorder.start_recording Recorder._last_sample_time].
      apply lookup_gset_to_gmap_Some. split; [exact Hin|reflexivity].
    + exists buffer. split; [exact Eb|]. split; [exact Hpos|].
      split; [exact Hsub|exact Hsp].
  - intros more. generalize session. intros s.
    assert (H : RecorderSession.feed (RecorderSession.cancel_recording s) more
                = RecorderSession.cancel_recording s).
    { induction more as [|x more IH] using rev_ind; [reflexivity|].
      rewrite feed_snoc, IH. reflexivity. }
    rewrite H. reflexivity.
Qed.

Lemma X18_witness :
  "stroke" ∈ Recorder.active_axes Recorder.init /\
  exists buffer,
    Recorder._buffer
      (RecorderSession.feed (Recorder.start_recording Recorder.init 0)
         [(100, {[ "y" := 130 ]}); (105, {[ "y" := 40 ]}); (120, {[ "y" := -7 ]})])
      !! "stroke" = Some buffer /\
    Forall (fun a => 0 <= Funscript.pos a <= 100) buffer /\
    RecorderSession.spaced 11 buffer.
Proof.
  assert (Hin : "stroke" ∈ Recorder.active_axes Recorder.init)
    by (vm_compute; reflexivity).
  split; [exact Hin|].
  destruct (proj1 (X18_recording_session Recorder.init 0
                     [(100, {[ "y" := 130 ]}); (105, {[ "y" := 40 ]});
                      (120, {[ "y" := -7 ]})] "stroke" Hin))
    as (buffer & Eb & Hpos & _ & Hsp).
  exists buffer. split; [exact Eb|]. split; [exact Hpos|exact Hsp].
Defined.

(** ** Ending a recording session *)

Section Stop.
Import Funscript FunscriptAxis RecorderEdit StopRecording.
Variable pow_half : Q -> Q.






End Stop.



(** ** The manager of the six stabilizers *)

Section Manager.
Import Stabilization StabilizationManager.

Lemma init_effect (h : store) (name : string) (config : nat)
    (cfg : StabilizationConfig.t) :
  h !! config = Some cfg ->
  exists h' self' eff,
    AxisStabilizer.init h name config = Some (h', self') /\
    (forall l, is_Some (h !! l) -> h' !! l = h !! l) /\
    AxisStabilizer.axis_name self' = name /\
    AxisStabilizer._config self' = config /\
    h' !! AxisStabilizer._effective_config self' = Some eff /\
    eff = (if decide (name ∉ ROTATION_AXES) then cfg else scaled cfg) /\
    filters_follow self' eff /\
    Pipeline.reset self' = self'.
Proof.
  intros Hc. unfold AxisStabilizer.init.
  destruct (decide (name ∉ ROTATION_AXES)) as [Hp|Hr].
  - rewrite (adjust_position _ _ _ Hp). cbn [mbind option_bind fst snd].
    unfold AxisStabilizer._apply_config. cbn [AxisStabilizer._effective_config].
    rewrite Hc. cbn [mbind option_bind].
    do 3 eexists. split; [reflexivity|].
    split; [intros l _; reflexivity|].
    do 2 (split; [reflexivity|]). split; [exact Hc|].
    split; [reflexivity|]. split; [repeat split|reflexivity].
  - apply dec_stable in Hr.
    destruct (adjust_rotation h config _ cfg Hr Hc) as (h' & Ea & Hfresh & Hold).
    rewrite Ea. cbn [mbind option_bind fst snd].
    unfold AxisStabilizer._apply_config. cbn [AxisStabilizer._effective_config].
    rewrite Hfresh. cbn [mbind option_bind].
    do 3 eexists. split; [reflexivity|].
    split; [intros l Hl; apply Hold, fresh_not_allocated, Hl|].
    do 2 (split; [reflexivity|]). split; [exact Hfresh|].
    split; [reflexivity|]. split; [repeat split|reflexivity].
Qed.

Lemma follows_preserved (h h' : store) (cfg : StabilizationConfig.t)
    (stabs : list (string * AxisStabilizer.t)) :
  (forall l, is_Some (h !! l) -> h' !! l = h !! l) ->
  follows h cfg stabs -> follows h' cfg stabs.
Proof.
  intros Hold Hfol. unfold follows in *. eapply Forall_impl; [exact Hfol|].
  intros entry (Hname & eff & He & Hf & Hff).
  split; [exact Hname|]. exists eff. split; [|split; assumption].
  rewrite Hold; [exact He|]. rewrite He. eauto.
Qed.

Lemma init_all_effect (config : nat) (cfg : StabilizationConfig.t)
    (names : list string) :
  forall h : store,
    h !! config = Some cfg ->
    exists h' stabs,
      init_all h config names = Some (h', stabs) /\
      (forall l, is_Some (h !! l) -> h' !! l = h !! l) /\
      stabs.*1 = names /\
      follows h' cfg stabs /\
      Forall (fun entry => Pipeline.reset (snd entry) = snd entry) stabs.
Proof.
  induction names as [|name names IH]; intros h Hc.
  - exists h, []. split; [reflexivity|]. split; [intros l _; reflexivity|].
    split; [reflexivity|]. split; constructor.
  - destruct (init_effect h name config cfg Hc)
      as (h1 & s1 & eff & E1 & Hold1 & Hname & _ & Heff & Hval & Hff & Hfresh).
    assert (Hc1 : h1 !! config = Some cfg).
    { rewrite Hold1; [exact Hc|]. rewrite Hc. eauto. }
    destruct (IH h1 Hc1) as (h' & stabs & E & Hold & Hkeys & Hfol & Hfr).
    exists h', ((name, s1) :: stabs).
    cbn [init_all]. rewrite E1. cbn [mbind option_bind fst snd]. rewrite E.
    cbn [mbind option_bind fst snd]. split; [reflexivity|]. split.
    { intros l Hl. rewrite Hold; [apply Hold1, Hl|].
      rewrite Hold1; [exact Hl|exact Hl]. }
    split; [rewrite fmap_cons, Hkeys; reflexivity|]. split.
    + constructor; [|exact Hfol]. cbn [fst snd]. split; [exact Hname|].
      exists eff. split.
      * rewrite Hold; [exact Heff|]. rewrite Heff. eauto.
      * split; [rewrite Hval; apply effective_for_derived|exact Hff].
    + constructor; [exact Hfresh|exact Hfr].
Qed.

Lemma set_all_effect (config : nat) (cfg : StabilizationConfig.t)
    (stabs : list (string * AxisStabilizer.t)) :
  Forall (fun entry => AxisStabilizer.axis_name (snd entry) = fst entry) stabs ->
  forall h : store,
    h !! config = Some cfg ->
    exists h' stabs',
      set_all h config stabs = Some (h', stabs') /\
      (forall l, is_Some (h !! l) -> h' !! l = h !! l) /\
      stabs'.*1 = stabs.*1 /\
      follows h' cfg stabs'.
Proof.
  induction 1 as [|[name stab] stabs Hn _ IH]; intros h Hc.
  - exists h, []. split; [reflexivity|]. split; [intros l _; reflexivity|].
    split; [reflexivity|constructor].
  - cbn [fst snd] in Hn.
    destruct (set_config_effect h stab config cfg Hc)
      as (h1 & s1 & eff & E1 & Hold1 & Hname & _ & Heff & Hval & Hff).
    assert (Hc1 : h1 !! config = Some cfg).
    { rewrite Hold1; [exact Hc|]. rewrite Hc. eauto. }
    destruct (IH h1 Hc1) as (h' & stabs' & E & Hold & Hkeys & Hfol).
    exists h', ((name, s1) :: stabs').
    cbn [set_all]. rewrite E1. cbn [mbind option_bind fst snd]. rewrite E.
    cbn [mbind option_bind fst snd]. split; [reflexivity|]. split.
    { intros l Hl. rewrite Hold; [apply Hold1, Hl|].
      rewrite Hold1; [exact Hl|exact Hl]. }
    split; [rewrite !fmap_cons, Hkeys; reflexivity|].
    constructor; [|exact Hfol]. cbn [fst snd].
    split; [rewrite Hname; exact Hn|].
    exists eff. split.
    + rewrite Hold; [exact Heff|]. rewrite Heff. eauto.
    + split; [|exact Hff]. rewrite Hval, Hn. apply effective_for_derived.
Qed.

Lemma presets_loaded (preset : string) (config : nat) :
  STABILIZATION_PRESETS !! preset = Some config -> is_Some (loaded !! config).
Proof.
  unfold STABILIZATION_PRESETS. intros H.
  repeat (apply lookup_insert_Some in H; destruct H as [[_ <-]|[_ H]];
          [vm_compute; eauto|]).
  apply lookup_singleton_Some in H. destruct H as [_ <-]. vm_compute. eauto.
Qed.

Lemma follows_names (h : store) (cfg : StabilizationConfig.t)
    (stabs : list (string * AxisStabilizer.t)) :
  follows h cfg stabs ->
  Forall (fun entry => AxisStabilizer.axis_name (snd entry) = fst entry) stabs.
Proof.
  intros Hfol. eapply Forall_impl; [exact Hfol|]. intros entry [H _]. exact H.
Qed.

Lemma set_presets_effect (presets : list string) :
  forall (h : store) (self : StabilizationManager.t) (cfg : StabilizationConfig.t),
    (forall l, is_Some (loaded !! l) -> h !! l = loaded !! l) ->
    loaded !! _config self = Some cfg ->
    follows h cfg (stabilizers self) ->
    exists h' self' cfg',
      set_presets h self presets = Some (h', self') /\
      (forall l, is_Some (h !! l) -> h' !! l = h !! l) /\
      (stabilizers self').*1 = (stabilizers self).*1 /\
      _config self' = selected (_config self) presets /\
      loaded !! _config self' = Some cfg' /\
      follows h' cfg' (stabilizers self').
Proof.
  induction presets as [|p presets IH]; intros h self cfg Hload Hcfg Hfol.
  - exists h, self, cfg. split; [reflexivity|]. split; [intros l _; reflexivity|].
    split; [reflexivity|]. split; [reflexivity|]. split; assumption.
  - cbn [set_presets]. unfold set_preset, selected. cbn [fold_left].
    fold (selected (default (_config self) (STABILIZATION_PRESETS !! p)) presets).
    destruct (STABILIZATION_PRESETS !! p) as [config|] eqn:Ep.
    + destruct (presets_loaded p config Ep) as [cfg1 Hc1].
      assert (Hh : h !! config = Some cfg1).
      { rewrite Hload; [exact Hc1|]. rewrite Hc1. eauto. }
      destruct (set_all_effect config cfg1 (stabilizers self)
                  (follows_names h cfg _ Hfol) h Hh)
        as (h1 & stabs1 & E1 & Hold1 & Hkeys1 & Hfol1).
      rewrite E1. cbn [mbind option_bind fst snd default from_option]. unfold id.
      assert (Hload1 : forall l, is_Some (loaded !! l) -> h1 !! l = loaded !! l).
      { intros l Hl. rewrite Hold1; [apply Hload, Hl|].
        rewrite Hload; [exact Hl|exact Hl]. }
      destruct (IH h1 (mk p config stabs1) cfg1 Hload1 Hc1 Hfol1)
        as (h' & self' & cfg' & E & Hold & Hkeys & Hsel & Hc' & Hfol').
      exists h', self', cfg'. split; [exact E|]. split.
      { intros l Hl. rewrite Hold; [apply Hold1, Hl|].
        rewrite Hold1; [exact Hl|exact Hl]. }
      split; [rewrite Hkeys; exact Hkeys1|].
      split; [exact Hsel|]. split; assumption.
    + cbn [mbind option_bind fst snd default from_option].
      exact (IH h self cfg Hload Hcfg Hfol).
Qed.

End Manager.

(** X20: a [StabilizationManager] created for any preset name and then
    switched by any sequence of [set_preset] calls never raises and holds
    the six stabilizers x, y, z, pitch, yaw, roll, in this order.  The
    configuration in use is the preset of the last name that is a preset
    (the one given at creation, or "medium" when that is none); every
    stabilizer's filters carry its thresholds, with [spike_threshold],
    [slew_max_rate] and [jerk_max_jerk] multiplied by 60 on the rotation
    axes pitch, yaw and roll and unchanged on x, y and z, all other fields
    being those of the preset.  No object that existed before, the shared
    preset objects included, is changed: however often presets are switched,
    the factor stays 60. *)
Theorem X20_manager_presets :
  forall (h : Stabilization.store) (preset : string) (presets : list string),
    (forall l, is_Some (StabilizationManager.loaded !! l) ->
               h !! l = StabilizationManager.loaded !! l) ->
    exists h1 m1 h' m cfg,
      StabilizationManager.init h preset = Some (h1, m1) /\
      StabilizationManager._preset_name m1 = preset /\
      Forall (fun entry => Pipeline.reset (snd entry) = snd entry)
        (StabilizationManager.stabilizers m1) /\
      StabilizationManager.set_presets h1 m1 presets = Some (h', m) /\
      (forall l, is_Some (h !! l) -> h' !! l = h !! l) /\
      (StabilizationManager.stabilizers m).*1 = StabilizationManager.AXIS_NAMES /\
      StabilizationManager._config m
      = StabilizationManager.selected
          (default 2%nat (StabilizationManager.STABILIZATION_PRESETS !! preset))
          presets /\
      StabilizationManager.loaded !! StabilizationManager._config m = Some cfg /\
      StabilizationManager.follows h' cfg (StabilizationManager.stabilizers m).
Proof.
  intros h preset presets Hload. unfold StabilizationManager.init.
  change (StabilizationManager.STABILIZATION_PRESETS !! "medium") with (Some 2%nat).
  cbn [mbind option_bind].
  set (config := default 2%nat
                   (StabilizationManager.STABILIZATION_PRESETS !! preset)).
  assert (Hc : is_Some (StabilizationManager.loaded !! config)).
  { unfold config.
    destruct (StabilizationManager.STABILIZATION_PRESETS !! preset) as [c|] eqn:Ep.
    - exact (presets_loaded preset c Ep).
    - vm_compute. eauto. }
  destruct Hc as [cfg0 Hc0].
  assert (Hh : h !! config = Some cfg0).
  { rewrite Hload; [exact Hc0|]. rewrite Hc0. eauto. }
  destruct (init_all_effect config cfg0 StabilizationManager.AXIS_NAMES h Hh)
    as (h1 & stabs1 & E1 & Hold1 & Hkeys1 & Hfol1 & Hfresh1).
  rewrite E1. cbn [mbind option_bind fst snd].
  assert (Hload1 : forall l, is_Some (StabilizationManager.loaded !! l) ->
                             h1 !! l = StabilizationManager.loaded !! l).
  { intros l Hl. rewrite Hold1; [apply Hload, Hl|].
    rewrite Hload; [exact Hl|exact Hl]. }
  destruct (set_presets_effect presets h1
              (StabilizationManager.mk preset config stabs1) cfg0 Hload1 Hc0 Hfol1)
    as (h' & m & cfg & E & Hold & Hkeys & Hsel & Hc & Hfol).
  exists h1, (StabilizationManager.mk preset config stabs1), h', m, cfg.
  split; [reflexivity|]. split; [reflexivity|]. split; [exact Hfresh1|].
  split; [exact E|]. split.
  { intros l Hl. rewrite Hold; [apply Hold1, Hl|].
    rewrite Hold1; [exact Hl|exact Hl]. }
  split; [rewrite Hkeys; exact Hkeys1|].
  split; [exact Hsel|]. split; assumption.
Qed.

Lemma X20_witness :
  exists h' m,
    (r ← StabilizationManager.init StabilizationManager.loaded "turbo";
     StabilizationManager.set_presets (fst r) (snd r) ["heavy"; "none"])
    = Some (h', m) /\
    StabilizationManager._config m = 3%nat /\
    StabilizationManager.follows h' StabilizationManager.heavy
      (StabilizationManager.stabilizers m) /\
    h' !! 3%nat = Some StabilizationManager.heavy.
Proof.
  destruct (X20_manager_presets StabilizationManager.loaded "turbo"
              ["heavy"; "none"] (fun l _ => eq_refl))
    as (h1 & m1 & h' & m & cfg & E1 & _ & _ & E & Hold & _ & Hsel & Hc & Hfol).
  exists h', m. rewrite E1. cbn [mbind option_bind fst snd].
  split; [exact E|].
  assert (Hsel' : StabilizationManager._config m = 3%nat) by exact Hsel.
  split; [exact Hsel'|]. rewrite Hsel' in Hc.
  assert (Hcfg : cfg = StabilizationManager.heavy).
  { assert (H : StabilizationManager.loaded !! 3%nat
                = Some StabilizationManager.heavy) by reflexivity.
    rewrite H in Hc. inversion Hc. reflexivity. }
  rewrite <- Hcfg. split; [exact Hfol|].
  rewrite Hold; [rewrite Hcfg; reflexivity|]. eexists. reflexivity.
Defined.

(** ** The post-map stage on a stream *)

Section PostMapStream.
Import AxisStabilizer.

Lemma deadzone_cases (s : DeadzoneFilter.t) (v : Z) :
  DeadzoneFilter.filter s v
  = (DeadzoneFilter.mk (DeadzoneFilter.threshold s) (Some v), v) \/
  exists last,
    DeadzoneFilter._last_emitted s = Some last /\
    DeadzoneFilter.filter s v = (s, last).
Proof.
  unfold DeadzoneFilter.filter.
  destruct (DeadzoneFilter._last_emitted s) as [last|] eqn:El;
    [|left; reflexivity].
  destruct (Qle_bool _ _); [left; reflexivity|right; eauto].
Qed.

Lemma deadzone_output (s : DeadzoneFilter.t) (v : Z) :
  let r := DeadzoneFilter.filter s v in
  (snd r = v \/ DeadzoneFilter._last_emitted s = Some (snd r)) /\
  (DeadzoneFilter._last_emitted (fst r) = Some v \/
   DeadzoneFilter._last_emitted (fst r) = DeadzoneFilter._last_emitted s) /\
  snd (DeadzoneFilter.filter (fst r) v) = snd r.
Proof.
  cbv zeta. destruct (deadzone_cases s v) as [E|(last & El & E)].
  - rewrite E. cbn [fst snd DeadzoneFilter._last_emitted].
    split; [left; reflexivity|]. split; [left; reflexivity|].
    unfold DeadzoneFilter.filter.
    cbn [DeadzoneFilter._last_emitted DeadzoneFilter.threshold].
    destruct (Qle_bool _ _); reflexivity.
  - rewrite E. cbn [fst snd]. split; [right; exact El|].
    split; [right; reflexivity|]. rewrite E. reflexivity.
Qed.

Lemma hysteresis_cases (s : HysteresisFilter.t) (v : Z) :
  (exists d, HysteresisFilter.filter s v
             = (HysteresisFilter.mk (HysteresisFilter.band s) (Some v) d, v)) \/
  exists last,
    HysteresisFilter._last_emitted s = Some last /\
    HysteresisFilter.filter s v = (s, last).
Proof.
  unfold HysteresisFilter.filter.
  destruct (HysteresisFilter._last_emitted s) as [last|] eqn:El;
    [|left; eexists; reflexivity].
  cbv zeta.
  repeat match goal with
         | |- context [if ?b then (_, _) else _] => destruct b
         end;
    solve [left; eexists; reflexivity | right; eauto].
Qed.

Lemma hysteresis_output (s : HysteresisFilter.t) (v : Z) :
  let r := HysteresisFilter.filter s v in
  (snd r = v \/ HysteresisFilter._last_emitted s = Some (snd r)) /\
  (HysteresisFilter._last_emitted (fst r) = Some v \/
   HysteresisFilter._last_emitted (fst r) = HysteresisFilter._last_emitted s) /\
  snd (HysteresisFilter.filter (fst r) v) = snd r.
Proof.
  cbv zeta. destruct (hysteresis_cases s v) as [[d E]|(last & El & E)].
  - rewrite E. cbn [fst snd HysteresisFilter._last_emitted].
    split; [left; reflexivity|]. split; [left; reflexivity|].
    destruct (hysteresis_cases
                (HysteresisFilter.mk (HysteresisFilter.band s) (Some v) d) v)
      as [[d' E']|(last' & El' & E')]; rewrite E'; cbn [snd]; [reflexivity|].
    cbn [HysteresisFilter._last_emitted] in El'. inversion El'. reflexivity.
  - rewrite E. cbn [fst snd]. split; [right; exact El|].
    split; [right; reflexivity|]. rewrite E. reflexivity.
Qed.

(** The values that the two post-map filters of [s] last emitted are among
    [seen]. *)
Lemma post_map_step (h : Stabilization.store) (s : AxisStabilizer.t) (v : Z)
    (seen : list Z) :
  is_Some (h !! _effective_config s) ->
  (forall x, DeadzoneFilter._last_emitted (_deadzone s) = Some x -> x ∈ seen) ->
  (forall x, HysteresisFilter._last_emitted (_hysteresis s) = Some x -> x ∈ seen) ->
  exists s1 o,
    Pipeline.post_map h s v = Some (s1, o) /\
    _effective_config s1 = _effective_config s /\
    o ∈ seen ++ [v] /\
    (forall x, DeadzoneFilter._last_emitted (_deadzone s1) = Some x ->
               x ∈ seen ++ [v]) /\
    (forall x, HysteresisFilter._last_emitted (_hysteresis s1) = Some x ->
               x ∈ seen ++ [v]).
Proof.
  intros [c Hc] Hd Hh. unfold Pipeline.post_map. rewrite Hc.
  cbn [mbind option_bind]. cbv zeta.
  set (r1 := if StabilizationConfig.deadzone_enabled c
             then DeadzoneFilter.filter (_deadzone s) v else (_deadzone s, v)).
  set (r2 := if StabilizationConfig.hysteresis_enabled c
             then HysteresisFilter.filter (_hysteresis s) (snd r1)
             else (_hysteresis s, snd r1)).
  do 2 eexists. split; [reflexivity|]. cbn [_effective_config _deadzone _hysteresis].
  split; [reflexivity|].
  assert (Hv : v ∈ seen ++ [v]) by (apply elem_of_app; right; apply list_elem_of_here).
  assert (Hseen : forall x, x ∈ seen -> x ∈ seen ++ [v])
    by (intros x Hx; apply elem_of_app; left; exact Hx).
  assert (H1 : snd r1 ∈ seen ++ [v] /\
               (forall x, DeadzoneFilter._last_emitted (fst r1) = Some x ->
                          x ∈ seen ++ [v])).
  { unfold r1. destruct (StabilizationConfig.deadzone_enabled c).
    - destruct (deadzone_output (_deadzone s) v) as (Ho & Hl & _). split.
      + destruct Ho as [-> | Ho]; [exact Hv|apply Hseen, Hd, Ho].
      + intros x Hx.
        destruct Hl as [Hl|Hl]; rewrite Hl in Hx.
        * inversion Hx. subst x. exact Hv.
        * apply Hseen, Hd, Hx.
    - cbn [fst snd]. split; [exact Hv|].
      intros x Hx. apply Hseen, Hd, Hx. }
  destruct H1 as (Ho1 & Hl1).
  assert (H2 : snd r2 ∈ seen ++ [v] /\
               (forall x, HysteresisFilter._last_emitted (fst r2) = Some x ->
                          x ∈ seen ++ [v])).
  { unfold r2. destruct (StabilizationConfig.hysteresis_enabled c).
    - destruct (hysteresis_output (_hysteresis s) (snd r1)) as (Ho & Hl & _). split.
      + destruct Ho as [-> | Ho]; [exact Ho1|apply Hseen, Hh, Ho].
      + intros x Hx.
        destruct Hl as [Hl|Hl]; rewrite Hl in Hx.
        * inversion Hx. subst x. exact Ho1.
        * apply Hseen, Hh, Hx.
    - cbn [fst snd]. split; [exact Ho1|].
      intros x Hx. apply Hseen, Hh, Hx. }
  destruct H2 as (Ho2 & Hl2).
  split; [exact Ho2|]. split; [exact Hl1|exact Hl2].
Qed.

(** A value fed twice in a row comes out the same the second time. *)
Lemma post_map_stable (h : Stabilization.store) (s s1 : AxisStabilizer.t)
    (v o : Z) :
  Pipeline.post_map h s v = Some (s1, o) ->
  exists s2, Pipeline.post_map h s1 v = Some (s2, o).
Proof.
  unfold Pipeline.post_map.
  destruct (h !! _effective_config s) as [c|] eqn:Hc; [|discriminate].
  cbn [mbind option_bind]. cbv zeta. intros E. inversion E as [[Es Eo]].
  cbn [_effective_config _deadzone _hysteresis]. rewrite Hc.
  cbn [mbind option_bind]. eexists. f_equal. f_equal.
  destruct (StabilizationConfig.deadzone_enabled c);
    destruct (StabilizationConfig.hysteresis_enabled c); cbn [fst snd].
  - destruct (deadzone_output (_deadzone s) v) as (_ & _ & Hst1). rewrite Hst1.
    destruct (hysteresis_output (_hysteresis s)
                (snd (DeadzoneFilter.filter (_deadzone s) v))) as (_ & _ & Hst2).
    exact Hst2.
  - destruct (deadzone_output (_deadzone s) v) as (_ & _ & Hst1). exact Hst1.
  - destruct (hysteresis_output (_hysteresis s) v) as (_ & _ & Hst2). exact Hst2.
  - reflexivity.
Qed.

Lemma post_map_run_spec (h : Stabilization.store) (values : list Z) :
  forall (s : AxisStabilizer.t) (seen : list Z),
    is_Some (h !! _effective_config s) ->
    (forall x, DeadzoneFilter._last_emitted (_deadzone s) = Some x -> x ∈ seen) ->
    (forall x, HysteresisFilter._last_emitted (_hysteresis s) = Some x -> x ∈ seen) ->
    exists outs,
      PostMap.run h s values = Some outs /\
      length outs = length values /\
      (forall i o, outs !! i = Some o -> o ∈ seen ++ take (S i) values) /\
      (forall i v o, values !! i = Some v -> values !! S i = Some v ->
                     outs !! i = Some o -> outs !! S i = Some o) /\
      (forall s0 v o, Pipeline.post_map h s0 v = Some (s, o) ->
                      values !! 0%nat = Some v -> outs !! 0%nat = Some o).
Proof.
  induction values as [|v values IH]; intros s seen Hc Hd Hh.
  - exists []. split; [reflexivity|]. split; [reflexivity|].
    split; [intros i o Ho; destruct i; discriminate Ho|].
    split; [intros i u o Hu; destruct i; discriminate Hu|].
    intros s0 u o _ Hu. discriminate Hu.
  - destruct (post_map_step h s v seen Hc Hd Hh)
      as (s1 & o & E1 & Heff & Ho & Hd1 & Hh1).
    destruct (IH s1 (seen ++ [v]) ltac:(rewrite Heff; exact Hc) Hd1 Hh1)
      as (outs & E & Hlen & Hmem & Hchain & Hfirst).
    exists (o :: outs). cbn [PostMap.run]. rewrite E1.
    cbn [mbind option_bind fst snd]. rewrite E. cbn [mbind option_bind].
    split; [reflexivity|]. split; [simpl; f_equal; exact Hlen|]. split.
    { intros [|i] x Hx.
      - simpl in Hx. inversion Hx. subst x. cbn [take]. rewrite take_0. exact Ho.
      - simpl in Hx. specialize (Hmem i x Hx).
        rewrite <- app_assoc in Hmem. exact Hmem. }
    split.
    { intros [|i] u x Hu Hu' Hx.
      - simpl in Hu, Hu', Hx. inversion Hu. inversion Hx. subst u x.
        exact (Hfirst s v o E1 Hu').
      - simpl in Hu, Hu', Hx. exact (Hchain i u x Hu Hu' Hx). }
    intros s0 u x E0 Hu. simpl in Hu. inversion Hu. subst u. simpl.
    destruct (post_map_stable h s0 s v x E0) as [s' Es'].
    rewrite E1 in Es'. inversion Es'. reflexivity.
Qed.

End PostMapStream.

(** X21: a stabilizer that has been reset and is then fed any stream of
    mapped values through [post_map] never raises (its effective
    configuration being in the store) and returns one value per call; every
    value it returns is one of the values fed to it so far, so the output
    stays between 0 and 100 when the input does; and when a value is fed
    twice in a row the second call returns what the first returned: an axis
    held at one mapped value reports a constant position. *)
Theorem X21_post_map_stream :
  forall (h : Stabilization.store) (self : AxisStabilizer.t) (values : list Z),
    is_Some (h !! AxisStabilizer._effective_config self) ->
    exists outs,
      PostMap.run h (Pipeline.reset self) values = Some outs /\
      length outs = length values /\
      (forall i o, outs !! i = Some o -> o ∈ take (S i) values) /\
      (Forall (fun v => 0 <= v <= 100) values ->
       Forall (fun o => 0 <= o <= 100) outs) /\
      (forall i v o, values !! i = Some v -> values !! S i = Some v ->
                     outs !! i = Some o -> outs !! S i = Some o).
Proof.
  intros h self values Hc.
  destruct (post_map_run_spec h values (Pipeline.reset self) [] Hc)
    as (outs & E & Hlen & Hmem & Hchain & _).
  - intros x Hx. discriminate Hx.
  - intros x Hx. discriminate Hx.
  - exists outs. split; [exact E|]. split; [exact Hlen|].
    split; [exact Hmem|]. split; [|exact Hchain].
    intros Hall. apply Forall_forall. intros o Ho.
    apply list_elem_of_lookup in Ho. destruct Ho as [i Hi].
    pose proof (Hmem i o Hi) as Hin. simpl in Hin.
    apply (proj1 (Forall_forall _ _) Hall).
    exact (elem_of_sublist _ _ _ Hin (sublist_take _ _)).
Qed.

Lemma X21_witness :
  let h : Stabilization.store := {[ 0%nat := StabilizationConfig.medium ]} in
  exists outs,
    PostMap.run h
      (Pipeline.reset
         (AxisStabilizer.mk "y" 0 0 (SpikeRejector.init (1 # 2))
            (OneEuroFilter.init 1 (7 # 1000) 1) (SlewRateLimiter.init 5)
            (JerkLimiter.init 20) (DeadzoneFilter.init 1)
            (HysteresisFilter.init (3 # 2))))
      [50; 51; 51; 60] = Some outs /\
    length outs = 4%nat /\
    Forall (fun o => 0 <= o <= 100) outs.
Proof.
  intros h.
  destruct (X21_post_map_stream h
              (AxisStabilizer.mk "y" 0 0 (SpikeRejector.init (1 # 2))
                 (OneEuroFilter.init 1 (7 # 1000) 1) (SlewRateLimiter.init 5)
                 (JerkLimiter.init 20) (DeadzoneFilter.init 1)
                 (HysteresisFilter.init (3 # 2)))
              [50; 51; 51; 60] ltac:(eexists; reflexivity))
    as (outs & E & Hlen & _ & Hrange & _).
  exists outs. split; [exact E|]. split; [exact Hlen|].
  apply Hrange. repeat constructor; lia.
Defined.

(** ** Automatic calibration *)

Section AutoCal.
Import VRControllerInput AutoCalibration.









End AutoCal.



(** ** Locking an axis *)

(** X23: [lock_axis] and [unlock_axis] ignore an axis that has no lock
    entry, but [toggle_axis_lock] still returns True for it.  For an axis
    with a lock entry, [lock_axis] sets the lock, stores the axis's raw value
    of the current state and leaves the other axes as they are.
    [unlock_axis] on such an axis clears the lock; without a stabilization
    manager it returns, and [toggle_axis_lock] on a locked axis returns
    False; with a stabilization manager it raises AttributeError after the
    lock has been cleared, because [StabilizationManager] has no method
    [reset], and so does [toggle_axis_lock] on a locked axis. *)
Theorem X23_axis_lock :
  forall (self : AxisLock.t) (state : VRControllerInput.ControllerState)
         (axis : string),
    (AxisLock._axis_locks self !! axis = None ->
     AxisLock.lock_axis self state axis = self /\
     AxisLock.unlock_axis self axis = (self, AxisLock.Returned tt) /\
     AxisLock.toggle_axis_lock self state axis = (self, AxisLock.Returned true) /\
     AxisLock.is_axis_locked self axis = false) /\
    (is_Some (AxisLock._axis_locks self !! axis) ->
     let locked := AxisLock.lock_axis self state axis in
     let unlocked :=
       AxisLock.mk (<[axis := false]> (AxisLock._axis_locks self))
         (AxisLock._axis_lock_values self) (AxisLock._stabilization self) in
     AxisLock.is_axis_locked locked axis = true /\
     AxisLock._axis_lock_values locked !! axis
     = Some (AutoCalibration.raw_value state axis) /\
     (forall other, other <> axis ->
        AxisLock._axis_locks locked !! other = AxisLock._axis_locks self !! other /\
        AxisLock._axis_lock_values locked !! other
        = AxisLock._axis_lock_values self !! other) /\
     AxisLock.is_axis_locked unlocked axis = false /\
     (AxisLock._stabilization self = false ->
      AxisLock.unlock_axis self axis = (unlocked, AxisLock.Returned tt) /\
      (AxisLock.is_axis_locked self axis = true ->
       AxisLock.toggle_axis_lock self state axis
       = (unlocked, AxisLock.Returned false))) /\
     (AxisLock._stabilization self = true ->
      AxisLock.unlock_axis self axis
      = (unlocked, AxisLock.Raised "AttributeError") /\
      (AxisLock.is_axis_locked self axis = true ->
       AxisLock.toggle_axis_lock self state axis
       = (unlocked, AxisLock.Raised "AttributeError")))).
Proof.
  intros self state axis. split.
  - intros Hn. unfold AxisLock.lock_axis, AxisLock.unlock_axis,
      AxisLock.toggle_axis_lock, AxisLock.is_axis_locked, AxisLock.lock_axis.
    rewrite Hn. repeat split.
  - intros [b Hb]. cbv zeta.
    assert (Hattr : AxisLock.getattr "reset" = AxisLock.Raised "AttributeError")
      by (vm_compute; reflexivity).
    unfold AxisLock.lock_axis, AxisLock.unlock_axis, AxisLock.toggle_axis_lock,
      AxisLock.is_axis_locked, AxisLock.unlock_axis.
    rewrite Hb. cbn [AxisLock._axis_locks AxisLock._axis_lock_values
                     AxisLock._stabilization].
    rewrite !lookup_insert_eq. cbn [default from_option]. unfold id.
    split; [reflexivity|]. split; [reflexivity|]. split.
    { intros other Hne. rewrite !lookup_insert_ne by congruence.
      split; reflexivity. }
    split; [reflexivity|]. split.
    + intros ->. split; [reflexivity|]. intros ->. reflexivity.
    + intros ->. rewrite Hattr. split; [reflexivity|]. intros ->. reflexivity.
Qed.

Lemma X23_witness :
  AxisLock.unlock_axis
    (AxisLock.lock_axis (AxisLock.init true)
       (VRControllerInput.mkState 0 (3 # 10) 0 0 0 0) "y") "y"
  = (AxisLock.mk
       (<["y" := false]>
          (AxisLock._axis_locks
             (AxisLock.lock_axis (AxisLock.init true)
                (VRControllerInput.mkState 0 (3 # 10) 0 0 0 0) "y")))
       (AxisLock._axis_lock_values
          (AxisLock.lock_axis (AxisLock.init true)
             (VRControllerInput.mkState 0 (3 # 10) 0 0 0 0) "y"))
       true,
     AxisLock.Raised "AttributeError").
Proof.
  apply (proj2 (X23_axis_lock
                  (AxisLock.lock_axis (AxisLock.init true)
                     (VRControllerInput.mkState 0 (3 # 10) 0 0 0 0) "y")
                  (VRControllerInput.mkState 0 (3 # 10) 0 0 0 0) "y")).
  - vm_compute. eauto.
  - reflexivity.
Defined.
